(** * mymuesli-analyzer: a shallow embedding of [mymuesli_analyzer.py]

    The development follows the source file top to bottom:

    - [PyNum]: the Python numbers the program computes with ([int] and the
      IEEE-754 binary64 [float]), with the exceptions their operators raise;
    - [PyStr]: the [str] methods used on the price quotation and on names;
    - [PySort]: [sorted] (stable, with [key] and [reverse]) and
      [itertools.groupby];
    - the classes [Ingredient], [IngredientDict], [Offer], [ReadyMix] and
      [ReadyMixList], over an explicit program state (the class-level
      dictionary and list, the cache directory, the log of HTTP requests).

    Theorems come after all definitions. *)

From Stdlib Require Import ZArith QArith Qabs Qround Floats String Ascii List.
From Stdlib Require Import Lia Lqa.
From Stdlib Require Import Sorting.Sorted Sorting.Permutation DecimalString OrdersEx.
From stdpp Require Import gmap strings.

Set Warnings "-inexact-float,-clear-no-such-hyp".
Open Scope Z_scope.

(** ** Exceptions and results *)

(** The Python exceptions the modelled code can raise. [RequestException]
    stands for any failure of [requests.get] and [OSError] for any failure
    of the file system; [JSONDecodeError] is a subclass of [ValueError] in
    Python and is kept apart here. *)
Inductive exn : Type :=
  | ZeroDivisionError
  | OverflowError
  | ValueError
  | TypeError
  | AttributeError
  | StopIteration
  | JSONDecodeError
  | KeyError
  | OSError
  | RequestException.

#[global] Instance exn_eq_dec : EqDecision exn.
Proof. solve_decision. Defined.

Inductive result (A : Type) : Type :=
  | Ok (a : A)
  | Raise (e : exn).
Arguments Ok {A} a.
Arguments Raise {A} e.

#[global] Instance result_ret : MRet result := fun A a => Ok a.
#[global] Instance result_bind : MBind result := fun A B k r =>
  match r with Ok a => k a | Raise e => Raise e end.

(** ** Python numbers *)

Module PyNum.

(** *** binary64

    A [float] is a [spec_float] of the standard library at precision 53 and
    maximal exponent 1024.  Float-with-float arithmetic is the library's
    ([SFsub], [SFdiv]).  Conversions from exact quantities (an [int], a
    quotient of two [int]s, a decimal literal) round to nearest, ties to
    even: [round_ratio] below. *)

Definition prec : Z := 53.
Definition emax : Z := 1024.
Definition emin : Z := 3 - emax - prec.

Definition fsub : spec_float -> spec_float -> spec_float := SFsub prec emax.
Definition fdiv : spec_float -> spec_float -> spec_float := SFdiv prec emax.

Definition is_zero (f : spec_float) : bool :=
  match f with S754_zero _ => true | _ => false end.

(** [floor (log2 (n / d))] for positive [n] and [d]. *)
Definition ilog2_ratio (n d : Z) : Z :=
  let l := Z.log2 n - Z.log2 d in
  if (if 0 <=? l then d * 2 ^ l <=? n else d <=? n * 2 ^ (- l))
  then l else l - 1.

(** The exponent of the unit in the last place of [n / d]. *)
Definition rn_exp (n d : Z) : Z := Z.max (ilog2_ratio n d - (prec - 1)) emin.

(** [n / d] as a fraction of that unit: [n / d = rn_num / rn_den * 2 ^ rn_exp]. *)
Definition rn_num (n d : Z) : Z :=
  let e := rn_exp n d in if 0 <=? e then n else n * 2 ^ (- e).
Definition rn_den (n d : Z) : Z :=
  let e := rn_exp n d in if 0 <=? e then d * 2 ^ e else d.

(** The nearest integer to [a / b], the even one on a tie. *)
Definition nearest_even (a b : Z) : Z :=
  let q := a / b in
  match 2 * (a mod b) ?= b with
  | Lt => q
  | Gt => q + 1
  | Eq => if Z.even q then q else q + 1
  end.

Definition rn_mant (n d : Z) : Z := nearest_even (rn_num n d) (rn_den n d).

(** The float of sign [s] and magnitude [m * 2 ^ e], [m <= 2 ^ prec]. *)
Definition SF_of_rounded (s : bool) (m e : Z) : spec_float :=
  if m =? 0 then S754_zero s
  else
    let m' := if m =? 2 ^ prec then 2 ^ (prec - 1) else m in
    let e' := if m =? 2 ^ prec then e + 1 else e in
    if e' <=? emax - prec then S754_finite s (Z.to_pos m') e'
    else S754_infinity s.

(** Round the rational [n / d] ([0 <= n], [0 < d]) with sign [s]. *)
Definition round_ratio (s : bool) (n d : Z) : spec_float :=
  if n =? 0 then S754_zero s
  else SF_of_rounded s (rn_mant n d) (rn_exp n d).

(** The exact value of a finite float. *)
Definition Q_of_float (f : spec_float) : Q :=
  match f with
  | S754_finite s m e =>
      let v := if 0 <=? e then inject_Z (Z.pos m * 2 ^ e)
               else Z.pos m # Z.to_pos (2 ^ (- e)) in
      if s then Qopp v else v
  | _ => 0%Q
  end.

(** *** [int] and [float] together *)

Inductive pynum : Type :=
  | PyInt (z : Z)
  | PyFloat (f : spec_float).

(** [float(z)] for an [int]: correctly rounded; "int too large to convert to
    float" beyond the range. *)
Definition float_of_int (z : Z) : result spec_float :=
  match round_ratio (z <? 0) (Z.abs z) 1 with
  | S754_infinity _ => Raise OverflowError
  | f => Ok f
  end.

(** [float(x)] for a number. *)
Definition to_float (x : pynum) : result spec_float :=
  match x with
  | PyInt z => float_of_int z
  | PyFloat f => Ok f
  end.

(** [a / b] for two [int]s: the correctly rounded quotient; the sign of a
    zero result is the exclusive or of the operands' signs. *)
Definition int_true_divide (a b : Z) : result spec_float :=
  if b =? 0 then Raise ZeroDivisionError
  else
    match round_ratio (xorb (a <? 0) (b <? 0)) (Z.abs a) (Z.abs b) with
    | S754_infinity _ => Raise OverflowError
    | f => Ok f
    end.

(** [x / y]. *)
Definition truediv (x y : pynum) : result pynum :=
  match x, y with
  | PyInt a, PyInt b =>
      f ← int_true_divide a b; Ok (PyFloat f)
  | _, _ =>
      a ← to_float x;
      b ← to_float y;
      if is_zero b then Raise ZeroDivisionError
      else Ok (PyFloat (fdiv a b))
  end.

(** [x - y]. *)
Definition sub (x y : pynum) : result pynum :=
  match x, y with
  | PyInt a, PyInt b => Ok (PyInt (a - b))
  | _, _ =>
      a ← to_float x;
      b ← to_float y;
      Ok (PyFloat (fsub a b))
  end.

(** [bool(x)]: a number is false exactly when it is zero. *)
Definition truthy (x : pynum) : bool :=
  match x with
  | PyInt z => negb (z =? 0)
  | PyFloat f => negb (is_zero f)
  end.

(** [int(f)] for a [float]: truncation toward zero. *)
Definition int_of_float (f : spec_float) : result Z :=
  match f with
  | S754_zero _ => Ok 0
  | S754_finite s m e =>
      let a := if 0 <=? e then Z.pos m * 2 ^ e else Z.pos m / 2 ^ (- e) in
      Ok (if s then - a else a)
  | S754_infinity _ => Raise OverflowError
  | S754_nan => Raise ValueError
  end.

(** Comparison is exact, also between an [int] and a [float]: numbers are
    compared through their extended value. *)
Inductive xval : Type :=
  | XNaN
  | XNegInf
  | XFin (n e : Z)   (* n * 2 ^ e *)
  | XPosInf.

Definition xval_of (x : pynum) : xval :=
  match x with
  | PyInt z => XFin z 0
  | PyFloat (S754_zero _) => XFin 0 0
  | PyFloat (S754_finite s m e) => XFin (if s then Z.neg m else Z.pos m) e
  | PyFloat (S754_infinity s) => if s then XNegInf else XPosInf
  | PyFloat S754_nan => XNaN
  end.

Definition xcompare (a b : xval) : option comparison :=
  match a, b with
  | XNaN, _ | _, XNaN => None
  | XNegInf, XNegInf | XPosInf, XPosInf => Some Eq
  | XNegInf, _ | _, XPosInf => Some Lt
  | _, XNegInf | XPosInf, _ => Some Gt
  | XFin n1 e1, XFin n2 e2 =>
      let e := Z.min e1 e2 in
      Some (n1 * 2 ^ (e1 - e) ?= n2 * 2 ^ (e2 - e))
  end.

(** [x < y]. *)
Definition lt (x y : pynum) : bool :=
  match xcompare (xval_of x) (xval_of y) with
  | Some Lt => true
  | _ => false
  end.


End PyNum.

(** ** Python strings

    A [str] is modelled by the bytes of its UTF-8 encoding (a lone
    surrogate, which a [str] can hold, by the three bytes the same scheme
    gives it).  Searching, replacing and splitting with a well-formed
    pattern give the same result on the code points and on their
    encoding, and the byte order is the code point order.  Where Python
    looks at characters ([strip], [float], slices) the code points are
    decoded. *)

Module PyStr.

Open Scope string_scope.

(** A byte that continues a UTF-8 sequence, and the six bits it carries. *)
Definition is_continuation (c : ascii) : bool :=
  let n := nat_of_ascii c in ((128 <=? n) && (n <? 192))%nat.

Definition continuation_bits (c : ascii) : N := (N_of_ascii c - 128)%N.

(** The code point at the head of [s] and the number of bytes that encode
    it; [None] at the end of [s] and where no sequence starts. *)
Definition code_point (s : string) : option (N * nat) :=
  match s with
  | EmptyString => None
  | String c0 r =>
      let b := N_of_ascii c0 in
      if (b <? 128)%N then Some (b, 1%nat)
      else if (b <? 192)%N then None
      else if (b <? 224)%N then
        match r with
        | String c1 _ =>
            if is_continuation c1
            then Some (((b - 192) * 64 + continuation_bits c1)%N, 2%nat)
            else None
        | _ => None
        end
      else if (b <? 240)%N then
        match r with
        | String c1 (String c2 _) =>
            if is_continuation c1 && is_continuation c2
            then Some ((((b - 224) * 64 + continuation_bits c1) * 64
                        + continuation_bits c2)%N, 3%nat)
            else None
        | _ => None
        end
      else if (b <? 248)%N then
        match r with
        | String c1 (String c2 (String c3 _)) =>
            if is_continuation c1 && is_continuation c2 && is_continuation c3
            then Some (((((b - 240) * 64 + continuation_bits c1) * 64
                         + continuation_bits c2) * 64
                        + continuation_bits c3)%N, 4%nat)
            else None
        | _ => None
        end
      else None
  end.

(** [str.isspace] on one character: the ASCII white space (tab to carriage
    return, the four separators U+001C to U+001F, the space) and NEL,
    NBSP, U+1680, U+2000 to U+200A, U+2028, U+2029, U+202F, U+205F and
    U+3000. *)
Definition is_space (cp : N) : bool :=
  ((9 <=? cp) && (cp <=? 13) || (28 <=? cp) && (cp <=? 32)
   || (cp =? 133) || (cp =? 160) || (cp =? 5760)
   || (8192 <=? cp) && (cp <=? 8202)
   || (cp =? 8232) || (cp =? 8233) || (cp =? 8239) || (cp =? 8287)
   || (cp =? 12288))%N.

(** The number of bytes of the white space character at the head of [s],
    0 when [s] starts with none. *)
Definition space_length (s : string) : nat :=
  match code_point s with
  | Some (cp, n) => if is_space cp then n else 0%nat
  | None => 0%nat
  end.

(** [s.lstrip()]; [skip] counts the bytes of the current white space
    character that are still to be dropped. *)
Fixpoint lstrip_go (skip : nat) (s : string) : string :=
  match s with
  | EmptyString => EmptyString
  | String _ s' =>
      match skip with
      | S k => lstrip_go k s'
      | O =>
          match space_length s with
          | S k => lstrip_go k s'
          | O => s
          end
      end
  end.

Definition lstrip (s : string) : string := lstrip_go 0 s.

(** [s.isspace()] or [s] is empty. *)
Definition all_space (s : string) : bool :=
  match lstrip s with
  | EmptyString => true
  | String _ _ => false
  end.

(** [s.rstrip()]: [s] up to its longest suffix of white space. *)
Fixpoint rstrip (s : string) : string :=
  match s with
  | EmptyString => EmptyString
  | String c s' => if all_space s then EmptyString else String c (rstrip s')
  end.

(** [s.strip()] *)
Definition strip (s : string) : string := rstrip (lstrip s).

(** [s.startswith(p)] *)
Fixpoint startswith (p s : string) : bool :=
  match p, s with
  | EmptyString, _ => true
  | String a p', String b s' => Ascii.eqb a b && startswith p' s'
  | String _ _, EmptyString => false
  end.

(** [sub in s] *)
Fixpoint contains (sub s : string) : bool :=
  startswith sub s ||
  match s with
  | String _ s' => contains sub s'
  | EmptyString => false
  end.

(** [s.replace(old, new)] for a non-empty [old]: the occurrences are taken
    from the left and do not overlap; [skip] counts the characters of the
    occurrence being replaced that are still to be dropped. *)
Fixpoint replace_go (old new : string) (skip : nat) (s : string) : string :=
  match s with
  | EmptyString => EmptyString
  | String c s' =>
      match skip with
      | S k => replace_go old new k s'
      | O =>
          if startswith old s
          then new ++ replace_go old new (String.length old - 1) s'
          else String c (replace_go old new 0 s')
      end
  end.

(** With an empty [old], [new] goes before every character and at the end. *)
Fixpoint intersperse (new s : string) : string :=
  match s with
  | EmptyString => new
  | String c s' =>
      if is_continuation c then String c (intersperse new s')
      else new ++ String c (intersperse new s')
  end.

Definition replace (old new s : string) : string :=
  match old with
  | EmptyString => intersperse new s
  | _ => replace_go old new 0 s
  end.

(** [str(z)], as an f-string formats an [int]. *)
Definition str_of_int (z : Z) : string := NilZero.string_of_int (Z.to_int z).

(** *** [float(s)] *)

Definition is_digit (c : ascii) : bool :=
  let n := nat_of_ascii c in ((48 <=? n) && (n <=? 57))%nat.

Definition digit_val (c : ascii) : Z := Z.of_nat (nat_of_ascii c) - 48.

(** The rest of a digit part, after its first digit: digits, each possibly
    preceded by one underscore.  Returns the value, the number of digits
    read and the remaining input. *)
Fixpoint digits_go (acc : Z) (cnt : Z) (s : string) : Z * Z * string :=
  match s with
  | String c s' =>
      if is_digit c then digits_go (10 * acc + digit_val c) (cnt + 1) s'
      else if Ascii.eqb c "_" then
        match s' with
        | String c' _ => if is_digit c' then digits_go acc cnt s' else (acc, cnt, s)
        | EmptyString => (acc, cnt, s)
        end
      else (acc, cnt, s)
  | EmptyString => (acc, cnt, s)
  end.

(** A digit part continuing the value [acc]; [None] when [s] does not start
    with a digit. *)
Definition digitpart (acc : Z) (s : string) : option (Z * Z * string) :=
  match s with
  | String c _ => if is_digit c then Some (digits_go acc 0 s) else None
  | EmptyString => None
  end.

(** An optional sign: [true] for "-". *)
Definition sign (s : string) : bool * string :=
  match s with
  | String "-" s' => (true, s')
  | String "+" s' => (false, s')
  | _ => (false, s)
  end.

(** The mantissa [number ::= [digitpart] "." digitpart | digitpart ["."]]:
    its digits as an integer, the count of fractional digits, the rest. *)
Definition number (s : string) : option (Z * Z * string) :=
  match digitpart 0 s with
  | Some (ip, _, String "." r) =>
      match digitpart ip r with
      | Some (m, fd, r') => Some (m, fd, r')
      | None => Some (ip, 0, r)
      end
  | Some (ip, _, r) => Some (ip, 0, r)
  | None =>
      match s with
      | String "." r => digitpart 0 r
      | _ => None
      end
  end.

(** The exponent part, absent or [("e" | "E") [sign] digitpart]; [None] when
    what follows the mantissa is anything else. *)
Definition exponent (s : string) : option Z :=
  match s with
  | EmptyString => Some 0
  | String c r =>
      if Ascii.eqb c "e" || Ascii.eqb c "E" then
        let '(neg, r') := sign r in
        match digitpart 0 r' with
        | Some (x, _, EmptyString) => Some (if neg then - x else x)
        | _ => None
        end
      else None
  end.

Definition lower (c : ascii) : ascii :=
  let n := nat_of_ascii c in
  if ((65 <=? n) && (n <=? 90))%nat then ascii_of_nat (n + 32) else c.

Fixpoint lowercase (s : string) : string :=
  match s with
  | String c s' => String (lower c) (lowercase s')
  | EmptyString => EmptyString
  end.

(** The value [m * 10 ^ k] of a decimal literal, correctly rounded; a
    literal beyond the range is an infinity, not an error. *)
Definition float_of_decimal (neg : bool) (m k : Z) : spec_float :=
  if (0 <=? k)%Z then PyNum.round_ratio neg (m * 10 ^ k) 1
  else PyNum.round_ratio neg m (10 ^ (- k)).

(** The white space of C, which [float] drops at the two ends of its
    argument: tab to carriage return, and the space. *)
Definition is_c_space (c : ascii) : bool :=
  let n := nat_of_ascii c in ((9 <=? n) && (n <=? 13) || (n =? 32))%nat.

Fixpoint c_lstrip (s : string) : string :=
  match s with
  | String c s' => if is_c_space c then c_lstrip s' else s
  | EmptyString => EmptyString
  end.

Fixpoint c_rstrip (s : string) : string :=
  match s with
  | String c s' =>
      match c_rstrip s' with
      | EmptyString => if is_c_space c then EmptyString else String c EmptyString
      | r => String c r
      end
  | EmptyString => EmptyString
  end.

Definition c_strip (s : string) : string := c_rstrip (c_lstrip s).

Definition is_ascii_string (s : string) : bool :=
  forallb (fun c => (nat_of_ascii c <? 128)%nat) (list_ascii_of_string s).

(** What [float] reads in place of a [str] that is not ASCII: the
    characters below U+007F stay, a white space character becomes a space,
    a decimal digit of another script becomes the ASCII digit of its value;
    at any other character the text ends with a question mark.  [decimal]
    is the decimal digit value of a code point in the Unicode database of
    the interpreter, [None] for what is not a decimal digit. *)
Fixpoint to_ascii_go (decimal : N -> option N) (skip : nat) (s : string)
    : string :=
  match s with
  | EmptyString => EmptyString
  | String c s' =>
      match skip with
      | S k => to_ascii_go decimal k s'
      | O =>
          match code_point s with
          | Some (cp, n) =>
              if (cp <? 127)%N then String c (to_ascii_go decimal 0 s')
              else if (cp <? 128)%N then "?"
              else if is_space cp
              then String " " (to_ascii_go decimal (n - 1) s')
              else
                match decimal cp with
                | Some d =>
                    if (d <? 10)%N
                    then String (ascii_of_N (48 + d))
                           (to_ascii_go decimal (n - 1) s')
                    else "?"
                | None => "?"
                end
          | None => "?"
          end
      end
  end.

(** [float(s)] for a [str]. *)
Definition float_of_string (decimal : N -> option N) (s : string)
    : result spec_float :=
  let text := if is_ascii_string s then s else to_ascii_go decimal 0 s in
  let '(neg, body) := sign (c_strip text) in
  let low := lowercase body in
  if String.eqb low "inf" || String.eqb low "infinity" then Ok (S754_infinity neg)
  else if String.eqb low "nan" then Ok S754_nan
  else
    match number body with
    | Some (m, fd, r) =>
        match exponent r with
        | Some x => Ok (float_of_decimal neg m (x - fd))
        | None => Raise ValueError
        end
    | None => Raise ValueError
    end.

(** *** [split], [strip(chars)] and slices *)





(** [s.split(sep)] for a non-empty [sep]: the pieces between the
    occurrences of [sep], taken from the left without overlap; the head of
    the result is the piece being read, [skip] counts the characters of the
    current occurrence that are still to be dropped. *)
Fixpoint split_go (sep : string) (skip : nat) (s : string) : list string :=
  match s with
  | EmptyString => [EmptyString]
  | String c s' =>
      match skip with
      | S k => split_go sep k s'
      | O =>
          if startswith sep s
          then EmptyString :: split_go sep (String.length sep - 1) s'
          else
            match split_go sep 0 s' with
            | piece :: pieces => String c piece :: pieces
            | [] => [String c EmptyString]
            end
      end
  end.

(** [s.split(sep)]; an empty separator is an error. *)
Definition split (sep s : string) : result (list string) :=
  match sep with
  | EmptyString => Raise ValueError
  | _ => Ok (split_go sep 0 s)
  end.



End PyStr.

(** ** [sorted], [itertools.groupby] and dictionaries *)

Module PySort.

Section Sorted.
Context {A K : Type}.
Variable lt : K -> K -> bool.
Variable key : A -> K.

(** [before reverse y x]: [y] has to come strictly before [x]. *)
Definition before (reverse : bool) (y x : A) : bool :=
  if reverse then lt (key x) (key y) else lt (key y) (key x).

(** [x] stood left of every element of the sorted [l]: it moves right
    only past the elements that have to come strictly before it, so that
    elements with equal keys keep their order. *)
Fixpoint insert (reverse : bool) (x : A) (l : list A) : list A :=
  match l with
  | [] => [x]
  | y :: l' => if before reverse y x then y :: insert reverse x l' else x :: l
  end.

(** [sorted(l, key=key, reverse=reverse)]: the stable sort, which compares
    keys with [<] only.  When [<] orders the keys, this is the one list a
    stable sort can return.  When it does not (a NaN among floats), what
    [sorted] returns depends on the steps of its algorithm: of such a list
    only what holds of every arrangement is stated, or what it is for a
    list in which no element is smaller than the one before, which
    [sorted] returns as it is. *)
Definition sorted (reverse : bool) (l : list A) : list A :=
  fold_right (insert reverse) [] l.
End Sorted.

Section Groupby.
Context {A K : Type}.
Variable eqb : K -> K -> bool.
Variable key : A -> K.

(** [groupby(l, key=key)]: the maximal runs of consecutive elements with
    equal keys, each with the key of its first element. *)
Fixpoint groupby (l : list A) : list (K * list A) :=
  match l with
  | [] => []
  | x :: l' =>
      match groupby l' with
      | (k, g) :: gs =>
          if eqb (key x) k then (key x, x :: g) :: gs
          else (key x, [x]) :: (k, g) :: gs
      | [] => [(key x, [x])]
      end
  end.
End Groupby.

(** A [dict] keeps its items in insertion order; assigning to a key that is
    present replaces its value in place. *)
Section Dict.
Context {K V : Type}.
Variable eqb : K -> K -> bool.

Fixpoint dict_set (k : K) (v : V) (d : list (K * V)) : list (K * V) :=
  match d with
  | [] => [(k, v)]
  | (k', v') :: d' =>
      if eqb k k' then (k, v) :: d' else (k', v') :: dict_set k v d'
  end.

Fixpoint dict_get (k : K) (d : list (K * V)) : option V :=
  match d with
  | [] => None
  | (k', v') :: d' => if eqb k k' then Some v' else dict_get k d'
  end.

(** [{key(x): value(x) for x in l}], where evaluating a value may raise. *)
Fixpoint dict_comprehension {X : Type} (key : X -> K) (value : X -> result V)
    (d : list (K * V)) (l : list X) : result (list (K * V)) :=
  match l with
  | [] => Ok d
  | x :: l' =>
      match value x with
      | Ok v => dict_comprehension key value (dict_set (key x) v d) l'
      | Raise e => Raise e
      end
  end.
End Dict.

(** [a < b] on [str]. *)
Definition str_lt (a b : string) : bool :=
  match String_as_OT.compare a b with Lt => true | _ => false end.

End PySort.

(** ** The records of the vendor feeds

    A JSON scalar, as [response.json()] decodes it. *)
Inductive json : Type :=
  | JNull
  | JBool (b : bool)
  | JNum (x : PyNum.pynum)
  | JStr (s : string).

(** [bool(j)] *)
Definition py_bool (j : json) : bool :=
  match j with
  | JNull => false
  | JBool b => b
  | JNum x => PyNum.truthy x
  | JStr s => negb (String.eqb s "")
  end.

Definition float_one : spec_float := S754_finite false 4503599627370496 (-52).

(** [float(j)] *)
Definition py_float (decimal : N -> option N) (j : json) : result spec_float :=
  match j with
  | JNull => Raise TypeError
  | JBool b => Ok (if b then float_one else S754_zero false)
  | JNum x => PyNum.to_float x
  | JStr s => PyStr.float_of_string decimal s
  end.

(** An entry of a catalog record's ["ingredients"].  [amountMilligram] is
    the mass of the ingredient in the mix, a non-negative integer. *)
Module IngredientRef.
Record t : Type := mk {
  id : string;
  amount : string;
  amountMilligram : N
}.
End IngredientRef.

(** A catalog record ([/api/products]). *)
Module ProductDict.
Record t : Type := mk {
  id : Z;
  name : string;
  url : string;
  category : Z;
  type : string;
  ingredients : list IngredientRef.t;
  nutrition : string;
  flavour : string;
  weight : Z;
  likes : Z;
  articleNumber : string
}.
End ProductDict.

(** A search record ([/api/search]); [filter] is an object, kept as the list
    of its items. *)
Module SearchDict.
Record t : Type := mk {
  id : Z;
  type : string;
  brand_key : string;
  filter : list (string * string);
  popularity : PyNum.pynum
}.
End SearchDict.

(** A pricing record ([/api/offers]). *)
Module OfferDict.
Record t : Type := mk {
  id : Z;
  name : string;
  availability : json;
  availableForHotspot : json;
  price : PyNum.pynum;
  priceMarketing : json;
  priceQuotation : string;
  description : string;
  productArticleNumber : string
}.
End OfferDict.

(** ** class Ingredient *)

Module Ingredient.
Record t : Type := mk {
  ingredient_id : string;
  name : string;
  subtitle : option string;
  ingredient_type : string;
  hints : list string;
  description : option string;
  sub_ingredients : list string
}.

(** What [from_web] selects from an ingredient page: the text of the
    heading, of the optional subtitle, hints and description, and the
    names split out of the sub-ingredients paragraph. *)
Record page : Type := mk_page {
  h3 : string;
  page_subtitle : option string;
  page_hints : option (list string);
  page_description : option string;
  page_subingredients : list string
}.

(** The record [from_web] builds from the page of [id], given the class
    attribute [ingredient_type_map]. *)
Definition of_page (ingredient_type_map : gmap string string)
    (id : string) (p : page) : t :=
  {| ingredient_id := id;
     name := h3 p;
     subtitle := page_subtitle p;
     ingredient_type := default "Unbekannt"%string (ingredient_type_map !! h3 p);
     hints := default [] (page_hints p);
     description := page_description p;
     sub_ingredients := page_subingredients p |}.


End Ingredient.

(** ** class Offer *)

Module Offer.
Record t : Type := mk {
  offer_id : Z;
  name : string;
  availability : bool;
  availability_for_hotspot : bool;
  price : PyNum.pynum;
  original_price : PyNum.pynum;
  discount_percentage : PyNum.pynum;
  price_per_100g : spec_float;
  description : string
}.

(** [Offer.__init__] *)
Definition init (offer_id : Z) (name : string)
    (availability availability_for_hotspot : bool)
    (price original_price : PyNum.pynum) (price_per_100g : spec_float)
    (description : string) : result t :=
  difference ← PyNum.sub original_price price;
  discount ← PyNum.truediv difference original_price;
  Ok {| offer_id := offer_id;
        name := name;
        availability := availability;
        availability_for_hotspot := availability_for_hotspot;
        price := price;
        original_price := original_price;
        discount_percentage := discount;
        price_per_100g := price_per_100g;
        description := description |}.

(** The [price_per_100g] argument of [from_dict]. *)
Definition parse_price_per_100g (decimal : N -> option N)
    (priceQuotation : string) : result spec_float :=
  PyStr.float_of_string decimal
    (PyStr.strip
       (PyStr.replace "," "."
          (PyStr.replace " €/100g" "" priceQuotation))).

(** [Offer.from_dict]: the arguments are evaluated left to right.
    [decimal] is the table of decimal digits [float] works with. *)
Definition from_dict (decimal : N -> option N) (dict_data : OfferDict.t)
    : result t :=
  original_price ←
    (if py_bool (OfferDict.priceMarketing dict_data)
     then f ← py_float decimal (OfferDict.priceMarketing dict_data);
          Ok (PyNum.PyFloat f)
     else Ok (OfferDict.price dict_data));
  price_per_100g ←
    parse_price_per_100g decimal (OfferDict.priceQuotation dict_data);
  init (OfferDict.id dict_data)
       (OfferDict.name dict_data)
       (py_bool (OfferDict.availability dict_data))
       (py_bool (OfferDict.availableForHotspot dict_data))
       (OfferDict.price dict_data)
       original_price
       price_per_100g
       (OfferDict.description dict_data).
End Offer.

(** ** class ReadyMix: the record *)

Module ReadyMix.
(** An element of [ReadyMix.ingredients]. *)
Record triple : Type := mk_triple {
  ingredient : Ingredient.t;
  amount : string;
  grams_of : Z          (* the key ['grams'] *)
}.

Record t : Type := mk {
  name : string;
  url : string;
  category : Z;
  product_type : string;
  ingredients : list triple;
  ingredient_type_distribution : list (string * PyNum.pynum);
  nutrition : string;
  flavour : string;
  grams : Z;
  offers : list Offer.t;
  single_offer : option Offer.t;
  likes : Z;
  popularity : PyNum.pynum;
  filters : list (list string)
}.

(** [sum(...)] over [int]s. *)
Definition py_sum (l : list Z) : Z := fold_left Z.add l 0.

Definition type_of (i : triple) : string :=
  Ingredient.ingredient_type (ingredient i).

(** [int(amountMilligram / 1000)] *)
Definition grams_of_milligram (amountMilligram : N) : result Z :=
  quotient ← PyNum.int_true_divide (Z.of_N amountMilligram) 1000;
  PyNum.int_of_float quotient.

(** The sorted list assigned to [self.ingredients]. *)
Definition sort_ingredients (l : list triple) : list triple :=
  PySort.sorted Z.ltb grams_of true l.

(** The dictionary assigned to [self.ingredient_type_distribution]. *)
Definition distribution (ingredients : list triple)
    : result (list (string * PyNum.pynum)) :=
  PySort.dict_comprehension String.eqb
    (fun g : string * list triple => fst g)
    (fun g : string * list triple =>
       PyNum.truediv (PyNum.PyInt (py_sum (map grams_of (snd g))))
                     (PyNum.PyInt (py_sum (map grams_of ingredients))))
    []
    (PySort.groupby String.eqb type_of
       (PySort.sorted PySort.str_lt type_of false ingredients)).

(** The sorted list assigned to [self.offers]. *)
Definition sort_offers (l : list Offer.t) : list Offer.t :=
  PySort.sorted PyNum.lt Offer.price false l.

(** The predicate of [single_offer]: [f"{self.grams}g" in o.name]. *)
Definition names_weight (grams : Z) (o : Offer.t) : bool :=
  PyStr.contains (PyStr.str_of_int grams ++ "g")%string (Offer.name o).

(** [next(filter(..., offers), None)] *)
Definition select_single_offer (grams : Z) (offers : list Offer.t)
    : option Offer.t :=
  List.find (names_weight grams) offers.
End ReadyMix.

(** ** The program state

    [store] is the dictionary [IngredientDict.store], shared by every
    instance; [files] is the cache directory, one file per ingredient id;
    [requests] logs the HTTP requests made so far; [heap] holds the list
    objects and [all_elements] is the reference bound to the class attribute
    [ReadyMixList.all_elements]; [ingredient_type_map] is the class
    attribute of [Ingredient], built when the module is loaded. *)

Inductive request : Type :=
  | GetIngredientPage (ingredient_id : string)
  | GetProducts
  | GetSearch
  | GetOffers.

#[global] Instance request_eq_dec : EqDecision request.
Proof. solve_decision. Defined.

(** The content of a cache file: nothing, the dump of a record, or a file
    whose reading raises, in [open] or in [json.load] with
    [Ingredient.from_dict]. *)
Inductive file : Type :=
  | FEmpty
  | FDump (i : Ingredient.t)
  | FBroken (e : exn).

(** What becomes of the writing of a cache file: the dump is written; or
    [open(..., 'w')] raises and the directory is as it was; or the file is
    opened, which empties it, and the writing raises, which leaves in the
    file what was written until then. *)
Inductive write_outcome : Type :=
  | Written
  | NotOpened (e : exn)
  | Interrupted (e : exn) (remains : file).

Definition loc : Type := positive.

Record state : Type := mk_state {
  store : gmap string Ingredient.t;
  files : gmap string file;
  requests : list request;
  heap : gmap loc (list ReadyMix.t);
  all_elements : loc;
  ingredient_type_map : gmap string string
}.

(** What the program finds around it.  The vendor's server: the answer to
    a request depends on the request and on how many requests came before
    it.  The file system: what becomes of the writing of the cache file of
    an id, after so many requests.  The interpreter: the decimal digit
    value its Unicode database gives a code point. *)
Record world : Type := mk_world {
  ingredient_page : nat -> string -> result Ingredient.page;
  api_products : nat -> result (list ProductDict.t);
  api_search : nat -> result (list SearchDict.t);
  api_offers : nat -> result (list OfferDict.t);
  cache_write : nat -> string -> write_outcome;
  unicode_decimal : N -> option N
}.

(** A computation reads and changes the state and returns or raises; the
    changes made before an exception stay. *)
Definition M (A : Type) : Type := state -> result A * state.

#[global] Instance M_ret : MRet M := fun A a s => (Ok a, s).
#[global] Instance M_bind : MBind M := fun A B k m s =>
  match m s with
  | (Ok a, s') => k a s'
  | (Raise e, s') => (Raise e, s')
  end.

Definition get_state : M state := fun s => (Ok s, s).
Definition put_state (s : state) : M unit := fun _ => (Ok tt, s).
Definition lift {A} (r : result A) : M A := fun s => (r, s).

(** The list object a reference points to. *)
Definition deref (s : state) (l : loc) : list ReadyMix.t :=
  default [] (heap s !! l).

(** [l.append(x)] on the list object at [l]. *)
Definition list_append (l : loc) (x : ReadyMix.t) : M unit := fun s =>
  (Ok tt, mk_state (store s) (files s) (requests s)
            (<[l := deref s l ++ [x]]> (heap s))
            (all_elements s) (ingredient_type_map s)).

Section Program.
Variable w : world.

(** [requests.get(url)] with the decoding of the answer. *)
Definition http_get {A} (r : request) (answer : nat -> result A) : M A :=
  fun s =>
    (answer (length (requests s)),
     mk_state (store s) (files s) (requests s ++ [r]) (heap s)
       (all_elements s) (ingredient_type_map s)).

(** [Ingredient.from_web] *)
Definition Ingredient_from_web (ingredient_id : string) : M Ingredient.t :=
  ingredient_page ←
    http_get (GetIngredientPage ingredient_id)
             (fun n => ingredient_page w n ingredient_id);
  s ← get_state;
  mret (Ingredient.of_page (ingredient_type_map s) ingredient_id ingredient_page).

(** *** class IngredientDict *)

(** [path.exists(f) and stat(f).st_size > 0] *)
Definition cache_file_present (s : state) (ingredient_id : string) : bool :=
  match files s !! ingredient_id with
  | Some FEmpty | None => false
  | Some _ => true
  end.

(** [self.store[key] = value] *)
Definition IngredientDict_setitem (key : string) (value : Ingredient.t)
    : M unit := fun s =>
  (Ok tt, mk_state (<[key := value]> (store s)) (files s) (requests s)
            (heap s) (all_elements s) (ingredient_type_map s)).

(** [with open(path, 'r') as infile:
    json.load(infile, object_hook=Ingredient.from_dict)] on the cache file
    of [ingredient_id]. *)
Definition json_load (ingredient_id : string) : M Ingredient.t := fun s =>
  match files s !! ingredient_id with
  | Some (FDump i) => (Ok i, s)
  | Some (FBroken e) => (Raise e, s)
  | Some FEmpty | None => (Raise JSONDecodeError, s)
  end.

(** The state with the cache file of [ingredient_id] replaced. *)
Definition file_written (s : state) (ingredient_id : string) (f : file)
    : state :=
  mk_state (store s) (<[ingredient_id := f]> (files s)) (requests s) (heap s)
    (all_elements s) (ingredient_type_map s).

(** [with open(path, 'w') as outfile: json.dump(value.__dict__, outfile)] *)
Definition json_dump (ingredient_id : string) (value : Ingredient.t)
    : M unit := fun s =>
  match cache_write w (length (requests s)) ingredient_id with
  | Written => (Ok tt, file_written s ingredient_id (FDump value))
  | NotOpened e => (Raise e, s)
  | Interrupted e remains => (Raise e, file_written s ingredient_id remains)
  end.

(** [self.store[ingredient_id]] as an expression. *)
Definition store_lookup (ingredient_id : string) : M Ingredient.t := fun s =>
  match store s !! ingredient_id with
  | Some i => (Ok i, s)
  | None => (Raise KeyError, s)
  end.

(** [IngredientDict.__getitem__] *)
Definition IngredientDict_getitem (ingredient_id : string) : M Ingredient.t :=
  s ← get_state;
  if cache_file_present s ingredient_id then
    match store s !! ingredient_id with
    | Some i => mret i
    | None =>
        i ← json_load ingredient_id;
        _ ← IngredientDict_setitem ingredient_id i;
        store_lookup ingredient_id
    end
  else
    match store s !! ingredient_id with
    | Some i => mret i
    | None =>
        i ← Ingredient_from_web ingredient_id;
        _ ← IngredientDict_setitem ingredient_id i;
        i' ← store_lookup ingredient_id;
        _ ← json_dump ingredient_id i';
        store_lookup ingredient_id
    end.


(** [IngredientDict.__len__] *)
Definition IngredientDict_len : M nat := fun s => (Ok (size (store s)), s).

(** *** class ReadyMix *)

Definition BASE_URL : string := "https://www.mymuesli.com".

(** One element of the list comprehension of [ReadyMix.__init__]. *)
Definition ReadyMix_triple (ingredient : IngredientRef.t) : M ReadyMix.triple :=
  i ← IngredientDict_getitem (IngredientRef.id ingredient);
  g ← lift (ReadyMix.grams_of_milligram (IngredientRef.amountMilligram ingredient));
  mret (ReadyMix.mk_triple i (IngredientRef.amount ingredient) g).

(** [ReadyMix.__init__] *)
Definition ReadyMix_init (product_dict : ProductDict.t)
    (search_dict : SearchDict.t) (offer_dicts : list OfferDict.t)
    : M ReadyMix.t :=
  triples ← mapM ReadyMix_triple (ProductDict.ingredients product_dict);
  let ingredients := ReadyMix.sort_ingredients triples in
  distribution ← lift (ReadyMix.distribution ingredients);
  let grams := ProductDict.weight product_dict in
  parsed ← lift (mapM (Offer.from_dict (unicode_decimal w)) offer_dicts);
  let offers := ReadyMix.sort_offers parsed in
  mret {| ReadyMix.name := ProductDict.name product_dict;
          ReadyMix.url := (BASE_URL ++ ProductDict.url product_dict)%string;
          ReadyMix.category := ProductDict.category product_dict;
          ReadyMix.product_type := ProductDict.type product_dict;
          ReadyMix.ingredients := ingredients;
          ReadyMix.ingredient_type_distribution := distribution;
          ReadyMix.nutrition := ProductDict.nutrition product_dict;
          ReadyMix.flavour := ProductDict.flavour product_dict;
          ReadyMix.grams := grams;
          ReadyMix.offers := offers;
          ReadyMix.single_offer := ReadyMix.select_single_offer grams offers;
          ReadyMix.likes := ProductDict.likes product_dict;
          ReadyMix.popularity := SearchDict.popularity search_dict;
          ReadyMix.filters := [map snd (SearchDict.filter search_dict)] |}.

(** *** class ReadyMixList *)

(** The search entries [get_all_ready_mixes] keeps. *)
Definition is_ready_mix (sr : SearchDict.t) : bool :=
  String.eqb (SearchDict.type sr) "product"
  && String.eqb (SearchDict.brand_key sr) "mymuesli"
  && existsb (fun kv => String.eqb "is-ready-mix" (fst kv)) (SearchDict.filter sr).

(** [next(filter(...))] without a default. *)
Definition next_match {A} (p : A -> bool) (l : list A) : result A :=
  match List.find p l with
  | Some x => Ok x
  | None => Raise StopIteration
  end.

(** The body of the [for] loop of [get_all_ready_mixes]. *)
Definition append_ready_mix (mymuesli_products : list ProductDict.t)
    (mymuesli_offers : list OfferDict.t) (rmsi : SearchDict.t) : M unit :=
  rmpd ← lift (next_match
                 (fun product => ProductDict.id product =? SearchDict.id rmsi)
                 mymuesli_products);
  rm ← ReadyMix_init rmpd rmsi
         (List.filter
            (fun offer => String.eqb (OfferDict.productArticleNumber offer)
                                     (ProductDict.articleNumber rmpd))
            mymuesli_offers);
  s ← get_state;
  list_append (all_elements s) rm.

(** [for x in l: body(x)] *)
Fixpoint for_each {A} (body : A -> M unit) (l : list A) : M unit :=
  match l with
  | [] => mret tt
  | x :: l' => _ ← body x; for_each body l'
  end.

(** [ReadyMixList.get_all_ready_mixes] *)
Definition ReadyMixList_get_all_ready_mixes : M unit :=
  mymuesli_products ← http_get GetProducts (api_products w);
  mymuesli_search ← http_get GetSearch (api_search w);
  mymuesli_offers ← http_get GetOffers (api_offers w);
  for_each (append_ready_mix mymuesli_products mymuesli_offers)
           (List.filter is_ready_mix mymuesli_search).

(** [ReadyMixList.__new__]: what the expression [ReadyMixList()] evaluates
    to is the reference it returns. *)
Definition ReadyMixList_new : M loc :=
  s ← get_state;
  _ ← (if (length (deref s (all_elements s)) =? 0)%nat
       then ReadyMixList_get_all_ready_mixes
       else mret tt);
  s' ← get_state;
  mret (all_elements s').
End Program.

(** *** The script

    The script draws one pie per row of its table, at most ten rows
    ([head(10)]), into a figure of 2 rows and 5 columns: the trace of the
    row of index [idx] goes to column [(idx % 5) + 1] and to row
    [int(idx / 5) + 1]. *)

Definition trace_col (idx : Z) : Z := idx mod 5 + 1.

Definition trace_row (idx : Z) : result Z :=
  quotient ← PyNum.int_true_divide idx 5;
  whole ← PyNum.int_of_float quotient;
  Ok (whole + 1).

(** * Specification predicates *)

(** [s] without its last byte, and without its first [n] bytes. *)
Fixpoint but_last (s : string) : string :=
  match s with
  | EmptyString => EmptyString
  | String c EmptyString => EmptyString
  | String c s' => String c (but_last s')
  end.

Fixpoint string_drop (n : nat) (s : string) : string :=
  match n, s with
  | S k, String _ s' => string_drop k s'
  | _, _ => s
  end.

(** [pieces] are what is left of a string between the occurrences of [sep],
    the occurrences taken from the left without overlap: in the join of
    [pieces] by [sep], the first occurrence of [sep] ends the first piece
    (none starts earlier), the first occurrence after it ends the second
    piece, and so on; the last piece holds no occurrence.  Every string is
    such a join, in one way. *)
Fixpoint cut_at (sep : string) (pieces : list string) : Prop :=
  match pieces with
  | [] => False
  | p :: rest =>
      match rest with
      | [] => PyStr.contains sep p = false
      | _ :: _ =>
          PyStr.contains sep (p ++ but_last sep)%string = false
          /\ cut_at sep rest
      end
  end.

(** Every record of the in-memory dictionary is the content of its cache
    file.  This holds when the module is loaded (the dictionary is empty)
    and a call of [IngredientDict.__getitem__] that returns keeps it. *)
Definition cache_consistent (s : state) : Prop :=
  forall (ingredient_id : string) (i : Ingredient.t),
    store s !! ingredient_id = Some i ->
    files s !! ingredient_id = Some (FDump i).

(** The number of fetches of the page of [ingredient_id] in a request log. *)
Definition fetches (ingredient_id : string) (log : list request) : nat :=
  length (List.filter
            (fun r => bool_decide (r = GetIngredientPage ingredient_id)) log).

(** The state after the module is loaded, with whatever the cache directory
    holds: nothing resolved, nothing requested, an empty [all_elements]. *)
Definition initial_state (cache : gmap string file)
    (type_map : gmap string string) : state :=
  mk_state ∅ cache [] {[1%positive := []]} 1%positive type_map.

(** The state [__getitem__] is in after the fetch of a page, with the
    record in memory and the cache file not yet written. *)
Definition fetched_into_memory (s : state) (ingredient_id : string)
    (p : Ingredient.page) : state :=
  let i := Ingredient.of_page (ingredient_type_map s) ingredient_id p in
  mk_state (<[ingredient_id := i]> (store s)) (files s)
    (requests s ++ [GetIngredientPage ingredient_id]) (heap s)
    (all_elements s) (ingredient_type_map s).

(** The state [__getitem__] leaves after the fetch of a page and the
    writing of the cache file. *)
Definition resolved_from_web (s : state) (ingredient_id : string)
    (p : Ingredient.page) : state :=
  let i := Ingredient.of_page (ingredient_type_map s) ingredient_id p in
  mk_state (<[ingredient_id := i]> (store s))
    (<[ingredient_id := FDump i]> (files s))
    (requests s ++ [GetIngredientPage ingredient_id]) (heap s)
    (all_elements s) (ingredient_type_map s).

Definition resolved_from_file (s : state) (ingredient_id : string)
    (i : Ingredient.t) : state :=
  mk_state (<[ingredient_id := i]> (store s)) (files s) (requests s) (heap s)
    (all_elements s) (ingredient_type_map s).

Definition request_logged (s : state) (r : request) : state :=
  mk_state (store s) (files s) (requests s ++ [r]) (heap s)
    (all_elements s) (ingredient_type_map s).

(** The list objects and the binding of [all_elements] are the same in
    [s'] as in [s]. *)
Definition lists_kept (s s' : state) : Prop :=
  heap s' = heap s /\ all_elements s' = all_elements s.

(** The ReadyMix [__init__] builds once the ingredients are resolved into
    [triples], the distribution is computed and the offers are parsed. *)
Definition ReadyMix_built (product_dict : ProductDict.t)
    (search_dict : SearchDict.t) (triples : list ReadyMix.triple)
    (distribution : list (string * PyNum.pynum)) (parsed : list Offer.t)
    : ReadyMix.t :=
  {| ReadyMix.name := ProductDict.name product_dict;
     ReadyMix.url := (BASE_URL ++ ProductDict.url product_dict)%string;
     ReadyMix.category := ProductDict.category product_dict;
     ReadyMix.product_type := ProductDict.type product_dict;
     ReadyMix.ingredients := ReadyMix.sort_ingredients triples;
     ReadyMix.ingredient_type_distribution := distribution;
     ReadyMix.nutrition := ProductDict.nutrition product_dict;
     ReadyMix.flavour := ProductDict.flavour product_dict;
     ReadyMix.grams := ProductDict.weight product_dict;
     ReadyMix.offers := ReadyMix.sort_offers parsed;
     ReadyMix.single_offer :=
       ReadyMix.select_single_offer (ProductDict.weight product_dict)
         (ReadyMix.sort_offers parsed);
     ReadyMix.likes := ProductDict.likes product_dict;
     ReadyMix.popularity := SearchDict.popularity search_dict;
     ReadyMix.filters := [map snd (SearchDict.filter search_dict)] |}.





(** The state after the three feeds have been requested. *)
Definition feeds_requested (s : state) : state :=
  request_logged (request_logged (request_logged s GetProducts) GetSearch)
    GetOffers.

(** [rm] was assembled for the search entry [rmsi] from its catalog
    counterpart, the first product with the same id. *)
Definition assembled_from (products : list ProductDict.t)
    (rmsi : SearchDict.t) (rm : ReadyMix.t) : Prop :=
  exists rmpd,
    List.find (fun product => ProductDict.id product =? SearchDict.id rmsi)
      products = Some rmpd
    /\ ReadyMix.name rm = ProductDict.name rmpd
    /\ ReadyMix.grams rm = ProductDict.weight rmpd
    /\ ReadyMix.popularity rm = SearchDict.popularity rmsi.

(** The request log of [s'] continues that of [s]. *)
Definition log_extends (s s' : state) : Prop :=
  exists rest, requests s' = requests s ++ rest.

(** Half a unit in the last place of the floats between 1/2 and 1. *)
Definition half_ulp_one : Q := 1 # 18014398509481984.

(** [a] may stand left of [b] in a list sorted by [key]: [b] does not have
    to come strictly before [a]. *)
Definition in_order {A K : Type} (lt : K -> K -> bool) (key : A -> K)
    (reverse : bool) (a b : A) : Prop :=
  PySort.before lt key reverse b a = false.

(** The records of [s] are still in the dictionary in [s']. *)
Definition store_grows (s s' : state) : Prop :=
  forall (ingredient_id : string) (i : Ingredient.t),
    store s !! ingredient_id = Some i -> store s' !! ingredient_id = Some i.

(** [t] is the triple of the ingredient reference [ref]: its ingredient is
    the record the dictionary holds for the id, its amount is the stated
    one, and its grams are the floor of the quotient of the milligrams by
    1000 as Python computes it, which is the exact integer quotient for
    every mass below [2 ^ 53] mg. *)
Definition triple_for (s' : state) (ref : IngredientRef.t)
    (t : ReadyMix.triple) : Prop :=
  store s' !! IngredientRef.id ref = Some (ReadyMix.ingredient t)
  /\ ReadyMix.amount t = IngredientRef.amount ref
  /\ 0 <= ReadyMix.grams_of t
  /\ (exists quotient,
        PyNum.int_true_divide (Z.of_N (IngredientRef.amountMilligram ref)) 1000
        = Ok quotient
        /\ ReadyMix.grams_of t = Qfloor (PyNum.Q_of_float quotient))
  /\ (Z.of_N (IngredientRef.amountMilligram ref) < 2 ^ 53 ->
      ReadyMix.grams_of t = Z.of_N (IngredientRef.amountMilligram ref) / 1000).

(** A group of [groupby]: a non-empty list of elements with the key of the
    group. *)
Definition homogeneous {A : Type} (key : A -> string)
    (kg : string * list A) : Prop :=
  snd kg <> [] /\ Forall (fun x => key x = fst kg) (snd kg).

(** The exact value of a number, and the exact sum of a list of numbers. *)
Definition number_value (x : PyNum.pynum) : Q :=
  match x with
  | PyNum.PyInt z => inject_Z z
  | PyNum.PyFloat f => PyNum.Q_of_float f
  end.

Definition values_sum (l : list PyNum.pynum) : Q :=
  fold_right (fun v acc => (number_value v + acc)%Q) 0%Q l.

(** No ingredient page was fetched twice.  [run_invariant] adds what holds
    between the steps of a run that has not raised: the dictionary and the
    cache directory are in step, and the record of every fetched page is in
    the dictionary. *)
Definition fetched_at_most_once (s : state) : Prop :=
  forall ingredient_id : string,
    (fetches ingredient_id (requests s) <= 1)%nat.

Definition run_invariant (s : state) : Prop :=
  cache_consistent s
  /\ forall ingredient_id : string,
       (fetches ingredient_id (requests s) <= 1)%nat
       /\ ((fetches ingredient_id (requests s) = 1)%nat ->
           is_Some (store s !! ingredient_id)).

(** [m] keeps the invariant when it returns, and fetches no page twice
    also when it raises. *)
Definition keeps_run_invariant {A : Type} (m : M A) : Prop :=
  forall (s : state) (r : result A) (s' : state),
    run_invariant s -> m s = (r, s') ->
    fetched_at_most_once s' /\ (forall a, r = Ok a -> run_invariant s').

(** Every execution of [m] takes a state to a state related by [R],
    whether it returns or raises. *)
Definition steps (R : state -> state -> Prop) {A : Type} (m : M A) : Prop :=
  forall (s : state) (r : result A) (s' : state), m s = (r, s') -> R s s'.

(** The requests of [s'] are those of [s] followed by fetches of pages of
    ingredients among [ids]. *)
Definition fetched_pages_of (ids : list string) (s s' : state) : Prop :=
  exists rest,
    requests s' = requests s ++ rest
    /\ Forall (fun r => exists id, r = GetIngredientPage id /\ In id ids) rest.

(** A float that is a number: a zero or a finite value. *)
Definition is_finite (f : spec_float) : bool :=
  match f with
  | S754_zero _ | S754_finite _ _ _ => true
  | S754_infinity _ | S754_nan => false
  end.


(** Where a record can come from: the dump the cache directory held for
    the id when the module was loaded, or a page the server returned for
    the id. *)
Definition from_cache_or_page (w : world) (cache : gmap string file)
    (type_map : gmap string string) (ingredient_id : string)
    (i : Ingredient.t) : Prop :=
  cache !! ingredient_id = Some (FDump i)
  \/ exists (n : nat) (p : Ingredient.page),
       ingredient_page w n ingredient_id = Ok p
       /\ i = Ingredient.of_page type_map ingredient_id p.

(** Every record in memory can be traced back, and so can every dump the
    program may still load: that of an id that is not in memory. *)
Definition records_traced (w : world) (cache : gmap string file)
    (type_map : gmap string string) (s : state) : Prop :=
  ingredient_type_map s = type_map
  /\ (forall id i, store s !! id = Some i ->
        from_cache_or_page w cache type_map id i)
  /\ (forall id i, store s !! id = None -> files s !! id = Some (FDump i) ->
        from_cache_or_page w cache type_map id i).


(** * Sample data

    One product of three ingredients (50 g, 50 g, 30 g), two offers for it,
    and a server that answers every request. *)

Definition sample_page (name : string) : Ingredient.page :=
  Ingredient.mk_page name None None None [].

Definition sample_product : ProductDict.t :=
  ProductDict.mk 1 "Beeren-Mix" "/muesli/beeren-mix" 191 "mix"
    [IngredientRef.mk "Hafer" "50 g" 50000;
     IngredientRef.mk "Beere" "50 g" 50000;
     IngredientRef.mk "Nuss" "30 g" 30000]
    "{}" "fruchtig" 500 12 "A1".

(** A product whose only ingredient weighs half a gram. *)
Definition pinch_product : ProductDict.t :=
  ProductDict.mk 1 "Prise" "/muesli/prise" 191 "mix"
    [IngredientRef.mk "Hafer" "0,5 g" 500]
    "{}" "mild" 500 0 "A1".

Definition sample_search (id : Z) : SearchDict.t :=
  SearchDict.mk id "product" "mymuesli" [("is-ready-mix", "true")]
    (PyNum.PyInt 7).

Definition sample_offer (id : Z) (name : string) (price : PrimFloat.float)
    : OfferDict.t :=
  OfferDict.mk id name (JBool true) (JBool false)
    (PyNum.PyFloat (Prim2SF price)) JNull "1,60 €/100g" "" "A1".

Definition sample_offers : list OfferDict.t :=
  [sample_offer 8 "Beeren-Mix 2 x 500g" 14.9%float;
   sample_offer 7 "Beeren-Mix 500g" 7.99%float].

Definition sample_types : gmap string string :=
  {[ "Hafer" := "Getreide"; "Nuss" := "Kerne" ]}.

(** A database without decimal digits beyond the ASCII ones. *)
Definition ascii_digits : N -> option N := fun _ => None.

Definition sample_world (products : list ProductDict.t)
    (search : list SearchDict.t) : world :=
  mk_world (fun _ id => Ok (sample_page id)) (fun _ => Ok products)
    (fun _ => Ok search)
    (fun _ => Ok sample_offers)
    (fun _ _ => Written) ascii_digits.

(** The sample server, with a cache directory that cannot be written. *)
Definition read_only_world (products : list ProductDict.t)
    (search : list SearchDict.t) : world :=
  mk_world (fun _ id => Ok (sample_page id)) (fun _ => Ok products)
    (fun _ => Ok search)
    (fun _ => Ok sample_offers)
    (fun _ _ => NotOpened OSError) ascii_digits.

(** The sample server with the search feed down. *)
Definition search_down_world : world :=
  mk_world (fun _ id => Ok (sample_page id)) (fun _ => Ok [sample_product])
    (fun _ => Raise RequestException)
    (fun _ => Ok sample_offers)
    (fun _ _ => Written) ascii_digits.

Definition sample_state : state := initial_state ∅ sample_types.

(** The record of the sample page of "Hafer". *)
Definition hafer : Ingredient.t :=
  Ingredient.of_page sample_types "Hafer" (sample_page "Hafer").


(** The state after the resolution of "Hafer" at the start of a run. *)
Definition hafer_state : state :=
  snd (IngredientDict_getitem (sample_world [sample_product] [sample_search 1])
         "Hafer" sample_state).

(** The sample ReadyMix, built at the start of a run. *)
Definition sample_init : result ReadyMix.t * state :=
  ReadyMix_init (sample_world [sample_product] [sample_search 1])
    sample_product (sample_search 1) sample_offers sample_state.

(** The sample run: the first evaluation of [ReadyMixList()]. *)
Definition built_state : state :=
  snd (ReadyMixList_new (sample_world [sample_product] [sample_search 1])
         sample_state).

(** * Theorems *)

(** ** Numbers *)

Section NumFacts.
Import PyNum.

Lemma to_float_of_float f : to_float (PyFloat f) = Ok f.
Proof. reflexivity. Qed.

Lemma float_of_int_zero : float_of_int 0 = Ok (S754_zero false).
Proof. reflexivity. Qed.

(** A number is false exactly when its float is a zero. *)
Lemma truthy_false_to_float y :
  truthy y = false -> exists s, to_float y = Ok (S754_zero s).
Proof.
  destruct y as [z|f]; simpl.
  - intros H. apply negb_false_iff, Z.eqb_eq in H. subst z.
    exists false. reflexivity.
  - destruct f; simpl; try discriminate. intros _. eauto.
Qed.

(** Dividing by a zero raises [ZeroDivisionError] as soon as the dividend
    is a [float], or an [int] over an [int]. *)
Lemma truediv_float_by_zero f y :
  truthy y = false -> truediv (PyFloat f) y = Raise ZeroDivisionError.
Proof.
  intros H. destruct (truthy_false_to_float _ H) as [s Hs].
  destruct y as [z|g]; simpl in *.
  - rewrite Hs. reflexivity.
  - inversion Hs; subst. reflexivity.
Qed.

Lemma truediv_int_by_int_zero a :
  truediv (PyInt a) (PyInt 0) = Raise ZeroDivisionError.
Proof. reflexivity. Qed.

(** The difference of two numbers is an [int] only for two [int]s. *)
Lemma sub_shape x y d :
  sub x y = Ok d ->
  (exists a b, x = PyInt a /\ y = PyInt b /\ d = PyInt (a - b))
  \/ (exists f, d = PyFloat f).
Proof.
  destruct x as [a|f], y as [b|g]; simpl.
  - intros [= <-]. left. eauto.
  - destruct (float_of_int a); simpl; [intros [= <-]; eauto | discriminate].
  - destruct (float_of_int b); simpl; [intros [= <-]; eauto | discriminate].
  - intros [= <-]. eauto.
Qed.

(** [x - y] raises only when an [int] operand is too large for a float. *)
Lemma sub_raise x y e :
  sub x y = Raise e ->
  e = OverflowError
  /\ (to_float x = Raise OverflowError \/ to_float y = Raise OverflowError).
Proof.
  assert (Hf : forall z e', float_of_int z = Raise e' -> e' = OverflowError).
  { intros z e'. unfold float_of_int.
    destruct (round_ratio _ _ _); congruence. }
  destruct x as [a|f], y as [b|g]; simpl; try discriminate.
  - destruct (float_of_int a) eqn:Ha; simpl; [discriminate|].
    intros [= <-]. rewrite (Hf _ _ Ha) in *. auto.
  - destruct (float_of_int b) eqn:Hb; simpl; [discriminate|].
    intros [= <-]. rewrite (Hf _ _ Hb) in *. auto.
Qed.

(** A quotient that is returned had a non-zero divisor. *)
Lemma truediv_ok_truthy x y q : truediv x y = Ok q -> truthy y = true.
Proof.
  destruct (truthy y) eqn:Hy; [reflexivity|]. intros H. exfalso.
  destruct x as [a|f].
  - destruct y as [b|g].
    + simpl in Hy. apply negb_false_iff, Z.eqb_eq in Hy. subst b.
      discriminate H.
    + destruct g; simpl in Hy; try discriminate.
      simpl in H. destruct (float_of_int a); discriminate H.
  - rewrite truediv_float_by_zero in H by assumption. discriminate.
Qed.
End NumFacts.

(** ** Rounding

    [nearest_even] is within one half of the quotient; hence a share
    [a / G] of a total is rounded with an error of at most [2 ^ -54], and
    the quotient of a mass below [2 ^ 53] mg by 1000 truncates to the exact
    integer quotient. *)

Section RoundingFacts.
Import PyNum.

Lemma nearest_even_bounds a b :
  0 < b ->
  - b <= 2 * nearest_even a b * b - 2 * a <= b
  /\ a / b <= nearest_even a b <= a / b + 1.
Proof.
  intros Hb. unfold nearest_even.
  pose proof (Z.div_mod a b ltac:(lia)) as Hdm.
  pose proof (Z.mod_pos_bound a b Hb) as Hr.
  destruct (Z.compare_spec (2 * (a mod b)) b) as [H|H|H];
    [destruct (Z.even (a / b))| |]; nia.
Qed.

Lemma ilog2_ratio_le n d : 0 < n -> 0 < d -> ilog2_ratio n d <= Z.log2 n - Z.log2 d.
Proof. intros. unfold ilog2_ratio. repeat destruct (_ <=? _) ; lia. Qed.

Lemma ilog2_ratio_neg n d : 0 < n -> n < d -> ilog2_ratio n d <= -1.
Proof.
  intros Hn Hd. unfold ilog2_ratio.
  pose proof (Z.log2_le_mono n d ltac:(lia)) as Hl.
  destruct (0 <=? Z.log2 n - Z.log2 d) eqn:H0.
  - apply Z.leb_le in H0. replace (Z.log2 n - Z.log2 d) with 0 by lia.
    rewrite Z.pow_0_r, Z.mul_1_r.
    destruct (d <=? n) eqn:Hdn; [apply Z.leb_le in Hdn; lia | lia].
  - apply Z.leb_gt in H0. destruct (_ <=? _); lia.
Qed.

Lemma rn_exp_ge n d : emin <= rn_exp n d.
Proof. unfold rn_exp. lia. Qed.

Lemma Q_of_rounded (m e : Z) :
  0 < m -> e + 1 < 0 ->
  (Q_of_float (SF_of_rounded false m e) == m # Z.to_pos (2 ^ (- e)))%Q.
Proof.
  intros Hm He. unfold SF_of_rounded, emax, prec.
  destruct (m =? 0) eqn:H0; [apply Z.eqb_eq in H0; lia|].
  assert (Hemax : (e + 1 <=? 1024 - 53) = true) by (apply Z.leb_le; lia).
  assert (Hemax' : (e <=? 1024 - 53) = true) by (apply Z.leb_le; lia).
  destruct (m =? 2 ^ 53) eqn:Hp.
  - apply Z.eqb_eq in Hp. rewrite Hemax. unfold Q_of_float.
    destruct (0 <=? e + 1) eqn:H1; [apply Z.leb_le in H1; lia|].
    unfold Qeq. cbn [Qnum Qden].
    rewrite !Z2Pos.id by (apply Z.pow_pos_nonneg; lia).
    subst m.
    replace (- e) with (1 + - (e + 1)) by lia.
    rewrite Z.pow_add_r by lia. change (2 ^ 53) with (2 * 2 ^ (53 - 1)). lia.
  - rewrite Hemax'. unfold Q_of_float.
    destruct (0 <=? e) eqn:H1; [apply Z.leb_le in H1; lia|].
    rewrite Z2Pos.id by lia. reflexivity.
Qed.

Lemma rn_mant_neg_exp n d :
  0 < n -> 0 < d -> rn_exp n d < 0 ->
  let k := - rn_exp n d in
  let m := rn_mant n d in
  - d <= 2 * m * d - 2 * (n * 2 ^ k) <= d /\ 0 <= m.
Proof.
  intros Hn Hd He k m. subst m. unfold rn_mant, rn_num, rn_den.
  destruct (0 <=? rn_exp n d) eqn:H0; [apply Z.leb_le in H0; lia|].
  fold k. pose proof (nearest_even_bounds (n * 2 ^ k) d Hd) as [H1 H2].
  split; [exact H1|].
  assert (0 <= n * 2 ^ k / d); [|lia].
  apply Z.div_pos; [|lia]. apply Z.mul_nonneg_nonneg; [lia|].
  apply Z.pow_nonneg. lia.
Qed.

Lemma int_true_divide_share a G f :
  0 <= a <= G -> 0 < G ->
  int_true_divide a G = Ok f ->
  (Qabs (Q_of_float f - (a # Z.to_pos G)) <= half_ulp_one)%Q.
Proof.
  intros Ha HG. unfold int_true_divide.
  destruct (G =? 0) eqn:HG0; [apply Z.eqb_eq in HG0; lia|].
  replace (a <? 0) with false by (symmetry; apply Z.ltb_ge; lia).
  replace (G <? 0) with false by (symmetry; apply Z.ltb_ge; lia).
  rewrite !Z.abs_eq by lia. cbn [xorb].
  intros Hf.
  assert (Hround : f = round_ratio false a G)
    by (destruct (round_ratio false a G); congruence).
  clear Hf. subst f. unfold round_ratio.
  destruct (a =? 0) eqn:Ha0.
  - apply Z.eqb_eq in Ha0. subst a. cbn [Q_of_float].
    apply Qabs_Qle_condition. unfold half_ulp_one, Qle, Qminus, Qplus, Qopp.
    cbn. lia.
  - apply Z.eqb_neq in Ha0.
    assert (He : rn_exp a G <= -52 /\ (a < G -> rn_exp a G <= -53)).
    { unfold rn_exp, emin, emax, prec. split.
      - destruct (Z.eq_dec a G) as [->|Hne].
        + assert (ilog2_ratio G G = 0); [|lia].
          unfold ilog2_ratio. rewrite Z.sub_diag. cbn [Z.leb Z.compare].
          rewrite Z.pow_0_r, Z.mul_1_r, Z.leb_refl. reflexivity.
        + pose proof (ilog2_ratio_neg a G ltac:(lia) ltac:(lia)). lia.
      - intros Hlt. pose proof (ilog2_ratio_neg a G ltac:(lia) Hlt). lia. }
    destruct He as [He52 He53].
    pose proof (rn_mant_neg_exp a G ltac:(lia) HG ltac:(lia)) as [Hm Hm0].
    cbv zeta in Hm, Hm0.
    set (e := rn_exp a G) in *. set (m := rn_mant a G) in *.
    assert (HP : 0 < 2 ^ (- e)) by (apply Z.pow_pos_nonneg; lia).
    assert (HP53 : a < G -> 2 ^ 53 <= 2 ^ (- e))
      by (intros; apply Z.pow_le_mono_r; lia).
    destruct (Z.eq_dec m 0) as [Hm00|Hm00].
    + rewrite Hm00. cbn [SF_of_rounded Z.eqb Q_of_float].
      assert (a < G) by nia. specialize (HP53 H).
      apply Qabs_Qle_condition. unfold half_ulp_one, Qle, Qminus, Qplus, Qopp.
      cbn [Qnum Qden]. rewrite Pos2Z.inj_mul, !Z2Pos.id by lia. 
      change (2^53) with 9007199254740992 in HP53. nia.
    + rewrite (Q_of_rounded m e) by lia.
      apply Qabs_Qle_condition. unfold half_ulp_one, Qle, Qminus, Qplus, Qopp.
      cbn [Qnum Qden]. rewrite !Pos2Z.inj_mul, !Z2Pos.id by lia.
      destruct (Z.eq_dec a G) as [->|Hne].
      * assert (m = 2 ^ (- e)) by nia. nia.
      * specialize (HP53 ltac:(lia)).
        change (2^53) with 9007199254740992 in HP53. nia.
Qed.

Lemma round_ratio_sign n d :
  match round_ratio false n d with
  | S754_zero s | S754_infinity s | S754_finite s _ _ => s = false
  | S754_nan => False
  end.
Proof.
  unfold round_ratio, SF_of_rounded.
  repeat match goal with |- context [if ?b then _ else _] => destruct b end;
    reflexivity.
Qed.

Lemma int_of_float_nonneg f z :
  match f with
  | S754_zero s | S754_infinity s | S754_finite s _ _ => s = false
  | S754_nan => False
  end ->
  int_of_float f = Ok z ->
  0 <= z /\ z = Qfloor (Q_of_float f).
Proof.
  destruct f as [s|s| |s m e]; cbn [int_of_float Q_of_float];
    intros Hs; try contradiction; subst s; try discriminate.
  - intros [= <-]. split; [lia | reflexivity].
  - intros [= <-]. destruct (0 <=? e) eqn:He.
    + apply Z.leb_le in He. split.
      * apply Z.mul_nonneg_nonneg; [lia | apply Z.pow_nonneg; lia].
      * rewrite Qfloor_Z. reflexivity.
    + apply Z.leb_gt in He.
      assert (HP : 0 < 2 ^ (- e)) by (apply Z.pow_pos_nonneg; lia).
      split.
      * apply Z.div_pos; lia.
      * unfold Qfloor. rewrite Z2Pos.id by lia. reflexivity.
Qed.

Lemma int_true_divide_sign a b q :
  0 <= a -> 0 < b -> int_true_divide a b = Ok q ->
  match q with
  | S754_zero s | S754_infinity s | S754_finite s _ _ => s = false
  | S754_nan => False
  end.
Proof.
  intros Ha Hb. unfold int_true_divide.
  destruct (b =? 0) eqn:Hb0; [apply Z.eqb_eq in Hb0; lia|].
  replace (a <? 0) with false by (symmetry; apply Z.ltb_ge; lia).
  replace (b <? 0) with false by (symmetry; apply Z.ltb_ge; lia).
  cbn [xorb]. pose proof (round_ratio_sign (Z.abs a) (Z.abs b)) as Hr.
  destruct (round_ratio false (Z.abs a) (Z.abs b)); intros [= <-]; exact Hr.
Qed.

Lemma grams_of_milligram_floor (mg : N) (g : Z) :
  ReadyMix.grams_of_milligram mg = Ok g ->
  0 <= g
  /\ exists quotient,
       int_true_divide (Z.of_N mg) 1000 = Ok quotient
       /\ g = Qfloor (Q_of_float quotient).
Proof.
  unfold ReadyMix.grams_of_milligram.
  destruct (int_true_divide (Z.of_N mg) 1000) as [q|e] eqn:Hq; [|discriminate].
  change (int_of_float q = Ok g ->
          0 <= g /\ exists quotient,
            Ok q = Ok quotient /\ g = Qfloor (Q_of_float quotient)).
  intros Hg.
  pose proof (int_true_divide_sign (Z.of_N mg) 1000 q ltac:(lia) ltac:(lia) Hq) as Hs.
  destruct (int_of_float_nonneg q g Hs Hg) as [H0 Hfl].
  split; [exact H0|]. exists q. auto.
Qed.

Lemma grams_of_milligram_exact (mg : N) :
  (Z.of_N mg < 2 ^ 53) ->
  ReadyMix.grams_of_milligram mg = Ok (Z.of_N mg / 1000).
Proof.
  set (a := Z.of_N mg). intros Hlt. assert (Ha : 0 <= a) by (subst a; lia).
  unfold ReadyMix.grams_of_milligram. fold a. unfold int_true_divide.
  cbn [Z.eqb]. replace (a <? 0) with false by (symmetry; apply Z.ltb_ge; lia).
  cbn [Z.ltb Z.compare xorb]. rewrite Z.abs_eq by lia.
  change (Z.abs 1000) with 1000. unfold round_ratio.
  destruct (a =? 0) eqn:Ha0.
  - apply Z.eqb_eq in Ha0. rewrite Ha0. reflexivity.
  - apply Z.eqb_neq in Ha0.
    assert (He : rn_exp a 1000 <= -9).
    { unfold rn_exp, emin, emax, prec.
      pose proof (ilog2_ratio_le a 1000 ltac:(lia) ltac:(lia)) as Hl.
      change (Z.log2 1000) with 9 in Hl.
      assert (Z.log2 a < 53) by (apply Z.log2_lt_pow2; lia). lia. }
    pose proof (rn_mant_neg_exp a 1000 ltac:(lia) ltac:(lia) ltac:(lia))
      as [Hm Hm0].
    cbv zeta in Hm, Hm0.
    set (e := rn_exp a 1000) in *. set (m := rn_mant a 1000) in *.
    assert (HP : 2 ^ 9 <= 2 ^ (- e)) by (apply Z.pow_le_mono_r; lia).
    change (2 ^ 9) with 512 in HP.
    pose proof (Z.div_mod a 1000 ltac:(lia)) as Hdm.
    pose proof (Z.mod_pos_bound a 1000 ltac:(lia)) as Hr.
    assert (Hq : m / 2 ^ (- e) = a / 1000).
    { symmetry. apply Z.div_unique with (r := m - (a / 1000) * 2 ^ (- e)); nia. }
    unfold SF_of_rounded, emax, prec.
    destruct (m =? 0) eqn:Hm00.
    + apply Z.eqb_eq in Hm00. cbn [mbind result_bind int_of_float].
      rewrite <- Hq, Hm00. reflexivity.
    + apply Z.eqb_neq in Hm00.
      destruct (m =? 2 ^ 53) eqn:Hm53.
      * apply Z.eqb_eq in Hm53.
        replace (e + 1 <=? 1024 - 53) with true by (symmetry; apply Z.leb_le; lia).
        cbn [mbind result_bind int_of_float].
        replace (0 <=? e + 1) with false by (symmetry; apply Z.leb_gt; lia).
        f_equal. rewrite <- Hq, Hm53.
        rewrite Z2Pos.id by (apply Z.pow_pos_nonneg; lia).
        replace (- e) with (1 + - (e + 1)) by lia.
        rewrite Z.pow_add_r by lia.
        change (2 ^ 53) with (2 ^ 1 * 2 ^ (53 - 1)).
        rewrite Z.div_mul_cancel_l; [reflexivity | | lia].
        apply Z.pow_nonzero; lia.
      * replace (e <=? 1024 - 53) with true by (symmetry; apply Z.leb_le; lia).
        cbn [mbind result_bind int_of_float].
        replace (0 <=? e) with false by (symmetry; apply Z.leb_gt; lia).
        rewrite Z2Pos.id by lia. rewrite Hq. reflexivity.
Qed.
End RoundingFacts.

(** ** Sorting and order *)

Section SortFacts.
Context {A K : Type}.
Variable lt : K -> K -> bool.
Variable key : A -> K.
Variable reverse : bool.

#[local] Abbreviation before := (PySort.before lt key reverse).
#[local] Abbreviation insert := (PySort.insert lt key reverse).
#[local] Abbreviation sorted := (PySort.sorted lt key reverse).

Lemma insert_perm x l : Permutation (insert x l) (x :: l).
Proof.
  induction l as [|y l IH]; [reflexivity|]. cbn [PySort.insert].
  destruct (before y x); [|reflexivity].
  rewrite IH. apply perm_swap.
Qed.

Lemma sorted_perm l : Permutation (sorted l) l.
Proof.
  induction l as [|x l IH]; [reflexivity|].
  unfold PySort.sorted in *. cbn [fold_right].
  rewrite insert_perm. constructor. exact IH.
Qed.

Lemma sorted_nil_inv l : sorted l = [] -> l = [].
Proof.
  intros H. pose proof (sorted_perm l) as Hp. rewrite H in Hp.
  apply Permutation_nil in Hp. exact Hp.
Qed.

(** Stability: elements none of which has to come before another keep
    their order. *)
Lemma insert_filter (p : A -> bool) x l :
  (forall a b, p a = true -> p b = true -> before a b = false) ->
  List.filter p (insert x l) = List.filter p (x :: l).
Proof.
  intros Hp. induction l as [|y l IH]; [reflexivity|].
  cbn [PySort.insert]. destruct (before y x) eqn:Hb; [|reflexivity].
  cbn [List.filter] in *. rewrite IH.
  destruct (p y) eqn:Hy, (p x) eqn:Hx; try reflexivity.
  rewrite Hp in Hb by assumption. discriminate.
Qed.

Lemma sorted_stable (p : A -> bool) l :
  (forall a b, p a = true -> p b = true -> before a b = false) ->
  List.filter p (sorted l) = List.filter p l.
Proof.
  intros Hp. induction l as [|x l IH]; [reflexivity|].
  unfold PySort.sorted in *. cbn [fold_right].
  rewrite insert_filter by assumption. cbn [List.filter]. rewrite IH.
  reflexivity.
Qed.

(** Order: on keys that [lt] orders (it is asymmetric and negatively
    transitive on a domain [P]), no element of the result has to come
    before an earlier one. *)
Variable P : K -> Prop.
Hypothesis lt_asym : forall a b, P a -> P b -> lt a b = true -> lt b a = false.
Hypothesis lt_negtrans : forall a b c, P a -> P b -> P c ->
  lt b a = false -> lt c b = false -> lt c a = false.

#[local] Abbreviation ordered := (in_order lt key reverse).

Lemma before_asym a b :
  P (key a) -> P (key b) -> before a b = true -> before b a = false.
Proof. unfold PySort.before. destruct reverse; auto. Qed.

Lemma before_negtrans a b c : P (key a) -> P (key b) -> P (key c) ->
  before b a = false -> before c b = false -> before c a = false.
Proof. unfold PySort.before. destruct reverse; eauto. Qed.

Lemma insert_in_order x l :
  P (key x) -> Forall (fun y => P (key y)) l ->
  StronglySorted ordered l -> StronglySorted ordered (insert x l).
Proof.
  intros Hx Hl Hs. induction Hs as [|y l Hs IH Hy]; cbn [PySort.insert].
  - constructor; constructor.
  - inversion Hl as [|? ? Py Pl]; subst.
    destruct (before y x) eqn:Hb.
    + constructor; [apply IH; assumption|].
      rewrite (insert_perm x l). constructor; [|exact Hy].
      unfold in_order. apply before_asym; assumption.
    + constructor; [constructor; assumption|].
      constructor; [exact Hb|].
      rewrite Forall_forall in Hy, Pl |- *. intros z Hz.
      unfold in_order in *.
      apply (before_negtrans x y z); auto.
Qed.

Lemma sorted_in_order l :
  Forall (fun y => P (key y)) l -> StronglySorted ordered (sorted l).
Proof.
  induction l as [|x l IH]; intros Hl; [constructor|].
  inversion Hl; subst. unfold PySort.sorted in *. cbn [fold_right].
  apply insert_in_order; auto.
  rewrite (sorted_perm l). assumption.
Qed.
End SortFacts.

Section OrderFacts.
Import PyNum.






Lemma str_lt_irrefl a : PySort.str_lt a a = false.
Proof.
  unfold PySort.str_lt.
  destruct (String_as_OT.compare_spec a a) as [_|H|H]; try reflexivity.
  exfalso. exact (@StrictOrder_Irreflexive _ _ String_as_OT.lt_strorder a H).
Qed.

Lemma str_lt_iff a b : PySort.str_lt a b = true <-> String_as_OT.lt a b.
Proof.
  unfold PySort.str_lt, String_as_OT.lt.
  destruct (String_as_OT.compare a b); split; congruence.
Qed.

Lemma str_lt_trans a b c :
  PySort.str_lt a b = true -> PySort.str_lt b c = true ->
  PySort.str_lt a c = true.
Proof.
  rewrite !str_lt_iff.
  apply (@StrictOrder_Transitive _ _ String_as_OT.lt_strorder).
Qed.

Lemma str_lt_total a b :
  PySort.str_lt b a = false -> a <> b -> PySort.str_lt a b = true.
Proof.
  unfold PySort.str_lt. intros H Hne.
  destruct (String_as_OT.compare_spec a b) as [Heq|Hlt|Hgt]; try reflexivity.
  - contradiction.
  - unfold String_as_OT.lt in Hgt. rewrite Hgt in H. discriminate.
Qed.

Lemma str_lt_asym a b : PySort.str_lt a b = true -> PySort.str_lt b a = false.
Proof.
  intros H. destruct (PySort.str_lt b a) eqn:H'; [|reflexivity].
  pose proof (str_lt_trans _ _ _ H H') as Hc.
  rewrite str_lt_irrefl in Hc. discriminate.
Qed.

Lemma str_lt_negtrans a b c :
  PySort.str_lt b a = false -> PySort.str_lt c b = false ->
  PySort.str_lt c a = false.
Proof.
  intros H1 H2. destruct (PySort.str_lt c a) eqn:H3; [|reflexivity].
  destruct (string_dec b c) as [->|Hne]; [congruence|].
  pose proof (str_lt_total _ _ H2 Hne) as Hbc.
  rewrite (str_lt_trans _ _ _ Hbc H3) in H1. discriminate.
Qed.
End OrderFacts.

(** ** Offer: the discount *)

(** C1, as the code has it: [Offer.__init__] has no guard on the original
    price.  When the original price is zero (the [int] 0 or a float zero),
    no Offer is built: the constructor raises [ZeroDivisionError] (or
    [OverflowError] when the price is an [int] too large to subtract from a
    float).  When an Offer is built, the original price is non-zero and the
    discount is the quotient of [original_price - price] by
    [original_price]. *)
Theorem offer_discount_unguarded
    (offer_id : Z) (name : string) (availability availability_for_hotspot : bool)
    (price original_price : PyNum.pynum) (price_per_100g : spec_float)
    (description : string) :
  let built := Offer.init offer_id name availability availability_for_hotspot
                 price original_price price_per_100g description in
  (PyNum.truthy original_price = false ->
     built = Raise ZeroDivisionError
     \/ (built = Raise OverflowError
         /\ PyNum.to_float price = Raise OverflowError))
  /\ (forall o, built = Ok o ->
        PyNum.truthy original_price = true
        /\ exists difference,
             PyNum.sub original_price price = Ok difference
             /\ PyNum.truediv difference original_price
                = Ok (Offer.discount_percentage o)).
Proof.
  cbv zeta. unfold Offer.init. split.
  - intros Hz.
    destruct (PyNum.sub original_price price) as [d|e] eqn:Hs; simpl.
    + left. destruct (sub_shape _ _ _ Hs) as [(a & b & -> & -> & ->)|[f ->]].
      * simpl in Hz. apply negb_false_iff, Z.eqb_eq in Hz. subst a.
        reflexivity.
      * rewrite truediv_float_by_zero by assumption. reflexivity.
    + destruct (sub_raise _ _ _ Hs) as [-> [Ho|Hp]].
      * destruct (truthy_false_to_float _ Hz) as [s Hs']. congruence.
      * right. auto.
  - intros o.
    destruct (PyNum.sub original_price price) as [d|e] eqn:Hs; simpl;
      [|discriminate].
    destruct (PyNum.truediv d original_price) as [q|e] eqn:Hq; simpl;
      [|discriminate].
    intros [= <-]. split.
    + eapply truediv_ok_truthy; eassumption.
    + exists d. auto.
Qed.

(** Original price 10.00 and current price 8.00 give the float 0.2. *)
Lemma offer_discount_unguarded_witness :
  exists o,
    Offer.init 1 "Beeren 575g" true true
      (PyNum.PyFloat (Prim2SF 8)) (PyNum.PyFloat (Prim2SF 10))
      (Prim2SF 1.6) "" = Ok o
    /\ Offer.discount_percentage o = PyNum.PyFloat (Prim2SF 0.2).
Proof.
  destruct (Offer.init 1 "Beeren 575g" true true
      (PyNum.PyFloat (Prim2SF 8)) (PyNum.PyFloat (Prim2SF 10))
      (Prim2SF 1.6) "") as [o|e] eqn:Hb; [|vm_compute in Hb; discriminate].
  exists o. split; [reflexivity|].
  destruct (offer_discount_unguarded 1 "Beeren 575g" true true
      (PyNum.PyFloat (Prim2SF 8)) (PyNum.PyFloat (Prim2SF 10))
      (Prim2SF 1.6) "") as [_ H].
  destruct (H o Hb) as (_ & d & Hd & Hq).
  remember (Offer.discount_percentage o) as discount.
  vm_compute in Hd. injection Hd as <-.
  vm_compute in Hq. injection Hq as <-. vm_compute. reflexivity.
Defined.

(** C1, the claim fails: with original price 0.00 (and price 0.00) no Offer
    with discount 0 is built, the division raises. *)
Lemma offer_zero_original_price_raises :
  Offer.init 1 "Gratisprobe" true true
    (PyNum.PyFloat (S754_zero false)) (PyNum.PyFloat (S754_zero false))
    (S754_zero false) "" = Raise ZeroDivisionError
  /\ ~ (exists o,
          Offer.init 1 "Gratisprobe" true true
            (PyNum.PyFloat (S754_zero false)) (PyNum.PyFloat (S754_zero false))
            (S754_zero false) "" = Ok o
          /\ Offer.discount_percentage o = PyNum.PyFloat (S754_zero false)).
Proof.
  split; [reflexivity|]. intros (o & H & _). discriminate H.
Qed.

(** ** Offer: the price per 100 g *)

Section StrFacts.
Import PyStr.
Open Scope string_scope.

Lemma append_cons c a b : String c a ++ b = String c (a ++ b).
Proof. reflexivity. Qed.

Lemma append_nil_l a : "" ++ a = a.
Proof. reflexivity. Qed.

Lemma append_empty_r (s : string) : s ++ "" = s.
Proof.
  induction s as [|c s IH]; [reflexivity|].
  rewrite append_cons, IH. reflexivity.
Qed.

Lemma append_assoc_r (a b c : string) : (a ++ b) ++ c = a ++ (b ++ c).
Proof.
  induction a as [|x a IH]; [reflexivity|].
  rewrite !append_cons, IH. reflexivity.
Qed.

Lemma append_length (a b : string) :
  String.length (a ++ b) = (String.length a + String.length b)%nat.
Proof.
  induction a as [|c a IH]; [reflexivity|].
  rewrite append_cons. cbn [String.length]. rewrite IH. reflexivity.
Qed.

Lemma but_last_snoc (s : string) :
  s <> "" -> exists c, s = but_last s ++ String c "".
Proof.
  induction s as [|a s IH]; [contradiction|]. intros _.
  destruct s as [|b s].
  - exists a. reflexivity.
  - destruct (IH ltac:(discriminate)) as [c Hc]. exists c.
    change (but_last (String a (String b s)))
      with (String a (but_last (String b s))).
    rewrite append_cons, <- Hc. reflexivity.
Qed.

Lemma string_drop_length k s :
  (String.length (string_drop k s) <= String.length s)%nat.
Proof.
  revert s. induction k as [|k IH]; intros [|c s]; cbn; try lia.
  specialize (IH s). lia.
Qed.

Lemma string_drop_app (a b : string) : string_drop (String.length a) (a ++ b) = b.
Proof.
  induction a as [|c a IH]; [destruct b; reflexivity|].
  rewrite append_cons. cbn [String.length string_drop]. exact IH.
Qed.

(** [startswith] *)
Lemma startswith_self_app sep rest : startswith sep (sep ++ rest) = true.
Proof.
  induction sep as [|a sep IH]; [reflexivity|].
  rewrite append_cons. cbn [startswith]. rewrite Ascii.eqb_refl. exact IH.
Qed.

Lemma startswith_drop sep s :
  startswith sep s = true -> s = sep ++ string_drop (String.length sep) s.
Proof.
  revert s. induction sep as [|a sep IH]; intros s; [destruct s; reflexivity|].
  destruct s as [|b s]; [discriminate|]. cbn [startswith].
  intros H. apply andb_true_iff in H as [Hab Hs].
  apply Ascii.eqb_eq in Hab. subst b. cbn [String.length string_drop].
  rewrite append_cons. f_equal. apply IH. exact Hs.
Qed.

Lemma startswith_app sep a b :
  startswith sep a = true -> startswith sep (a ++ b) = true.
Proof.
  revert a. induction sep as [|x sep IH]; intros a; [reflexivity|].
  destruct a as [|y a]; [discriminate|]. rewrite append_cons.
  cbn [startswith].
  intros H. apply andb_true_iff in H as [Hxy Hs]. rewrite Hxy. cbn [andb].
  apply IH. exact Hs.
Qed.

(** Whether [sep] starts a string is seen on its first bytes. *)
Lemma startswith_long sep a b :
  (String.length sep <= String.length a)%nat ->
  startswith sep (a ++ b) = startswith sep a.
Proof.
  revert a. induction sep as [|x sep IH]; intros a Hlen; [reflexivity|].
  destruct a as [|y a]; [cbn in Hlen; lia|]. rewrite append_cons.
  cbn [startswith]. rewrite IH by (cbn in Hlen; lia). reflexivity.
Qed.

Lemma contains_cons sub c s :
  contains sub (String c s) = startswith sub (String c s) || contains sub s.
Proof. reflexivity. Qed.

Lemma contains_startswith sub s :
  contains sub s = false -> startswith sub s = false.
Proof.
  destruct s as [|c s]; cbn [contains]; intros H;
    apply orb_false_iff in H; apply H.
Qed.

Lemma contains_tail sub c s :
  contains sub (String c s) = false -> contains sub s = false.
Proof. rewrite contains_cons. intros H. apply orb_false_iff in H. apply H. Qed.

(** [replace] and [split]: the bytes of an occurrence are skipped. *)
Lemma replace_go_skip old new k s :
  replace_go old new k s = replace_go old new 0 (string_drop k s).
Proof.
  revert k. induction s as [|c s IH]; intros [|k]; try reflexivity.
  cbn [replace_go string_drop]. apply IH.
Qed.

Lemma replace_go_occurrence old new rest :
  old <> "" ->
  replace_go old new 0 (old ++ rest) = new ++ replace_go old new 0 rest.
Proof.
  intros Hold. destruct old as [|a old]; [contradiction|].
  rewrite append_cons. cbn [replace_go].
  rewrite <- append_cons, startswith_self_app.
  rewrite replace_go_skip.
  replace (String.length (String a old) - 1)%nat with (String.length old)
    by (cbn [String.length]; lia).
  rewrite string_drop_app. reflexivity.
Qed.

(** A string without an occurrence is left as it is. *)
Lemma replace_go_none old new s :
  contains old s = false -> replace_go old new 0 s = s.
Proof.
  induction s as [|c s IH]; [reflexivity|]. intros H.
  cbn [replace_go]. rewrite (contains_startswith _ _ H).
  rewrite IH by (eapply contains_tail; exact H). reflexivity.
Qed.

(** An occurrence of [old] that starts in [a] ends before the last byte
    of [a ++ old]. *)
Lemma startswith_before old a rest :
  old <> "" -> a <> "" ->
  startswith old (a ++ old ++ rest) = startswith old (a ++ but_last old).
Proof.
  intros Hold Ha. destruct (but_last_snoc old Hold) as [z Hz].
  remember (but_last old) as bl eqn:Hbl.
  assert (Hlen : (String.length old <= String.length (a ++ bl))%nat).
  { rewrite Hz, !append_length. cbn [String.length].
    destruct a; [contradiction | cbn [String.length]; lia]. }
  rewrite <- (startswith_long old (a ++ bl) (String z "" ++ rest) Hlen).
  f_equal. rewrite Hz at 1. rewrite !append_assoc_r. reflexivity.
Qed.

(** The first occurrence is replaced and the search goes on after it. *)
Lemma replace_go_first old new p rest :
  old <> "" ->
  contains old (p ++ but_last old) = false ->
  replace_go old new 0 (p ++ old ++ rest)
  = p ++ new ++ replace_go old new 0 rest.
Proof.
  intros Hold. induction p as [|c p IH]; intros H.
  - rewrite !append_nil_l. apply replace_go_occurrence. exact Hold.
  - pose proof (startswith_before old (String c p) rest Hold
                  ltac:(discriminate)) as Hst.
    rewrite (contains_startswith _ _ H) in Hst.
    rewrite !append_cons in *. cbn [replace_go]. rewrite Hst.
    rewrite IH by (eapply contains_tail; exact H). reflexivity.
Qed.

Lemma concat_cons sep p q ps :
  String.concat sep (p :: q :: ps) = p ++ sep ++ String.concat sep (q :: ps).
Proof. reflexivity. Qed.

(** [s.replace(old, new)] is [new.join(s.split(old))]. *)
Lemma replace_go_pieces old new pieces :
  old <> "" -> cut_at old pieces ->
  replace_go old new 0 (String.concat old pieces) = String.concat new pieces.
Proof.
  intros Hold. induction pieces as [|p rest IH]; [contradiction|].
  destruct rest as [|q rest].
  - cbn [cut_at String.concat]. apply replace_go_none.
  - intros [Hp Hrest]. rewrite !concat_cons.
    rewrite replace_go_first by assumption. rewrite IH by exact Hrest.
    reflexivity.
Qed.

Lemma split_go_skip sep k s :
  split_go sep k s = split_go sep 0 (string_drop k s).
Proof.
  revert k. induction s as [|c s IH]; intros [|k]; try reflexivity.
  cbn [split_go string_drop]. apply IH.
Qed.

Lemma split_go_not_nil sep k s : split_go sep k s <> [].
Proof.
  revert k. induction s as [|c s IH]; intros k; [discriminate|].
  cbn [split_go]. destruct k as [|k]; [|apply IH].
  destruct (startswith sep (String c s)); [discriminate|].
  destruct (split_go sep 0 s); discriminate.
Qed.

Lemma concat_cons_not_nil sep p ps :
  ps <> [] -> String.concat sep (p :: ps) = p ++ sep ++ String.concat sep ps.
Proof. destruct ps; [contradiction | reflexivity]. Qed.

(** The pieces of a split, joined with the separator, are the string. *)
Lemma split_go_concat sep s :
  sep <> "" -> String.concat sep (split_go sep 0 s) = s.
Proof.
  intros Hsep.
  remember (String.length s) as n eqn:Hn.
  revert s Hn. induction n as [n IH] using lt_wf_ind. intros s Hn.
  destruct s as [|c s]; [reflexivity|].
  cbn [split_go]. destruct (startswith sep (String c s)) eqn:Hst.
  - rewrite split_go_skip, concat_cons_not_nil by apply split_go_not_nil.
    rewrite (IH (String.length (string_drop (String.length sep - 1) s)))
      by (try reflexivity; pose proof (string_drop_length
            (String.length sep - 1) s); cbn in Hn; lia).
    rewrite append_nil_l. apply startswith_drop in Hst.
    destruct sep as [|a sep]; [contradiction|].
    cbn [String.length string_drop] in Hst.
    cbn [String.length]. replace (S (String.length sep) - 1)%nat
      with (String.length sep) by lia. symmetry. exact Hst.
  - specialize (IH (String.length s) ltac:(cbn in Hn; lia) s eq_refl).
    pose proof (split_go_not_nil sep 0 s) as Hne.
    destruct (split_go sep 0 s) as [|p ps]; [contradiction|].
    destruct ps as [|p' ps]; cbn [String.concat] in IH |- *;
      rewrite ?append_cons, IH; reflexivity.
Qed.

(** The pieces of a split are cut at the occurrences taken from the left. *)
Lemma split_go_cut_at sep s : sep <> "" -> cut_at sep (split_go sep 0 s).
Proof.
  intros Hsep.
  assert (Hempty : contains sep "" = false).
  { destruct sep; [contradiction | reflexivity]. }
  remember (String.length s) as n eqn:Hn.
  revert s Hn. induction n as [n IH] using lt_wf_ind. intros s Hn.
  destruct s as [|c s]; [exact Hempty|].
  cbn [split_go]. destruct (startswith sep (String c s)) eqn:Hst.
  - rewrite split_go_skip.
    pose proof (IH (String.length (string_drop (String.length sep - 1) s))
                  ltac:(pose proof (string_drop_length
                          (String.length sep - 1) s); cbn in Hn; lia)
                  _ eq_refl) as Hrest.
    pose proof (split_go_not_nil sep 0
                  (string_drop (String.length sep - 1) s)) as Hne.
    destruct (split_go sep 0 (string_drop (String.length sep - 1) s))
      as [|q qs]; [contradiction|].
    cbn [cut_at]. split; [|exact Hrest].
    rewrite append_nil_l.
    (* no occurrence of [sep] in [sep] without its last byte *)
    clear -Hsep. 
    assert (Hshort : forall t, (String.length t < String.length sep)%nat ->
                               contains sep t = false).
    { intros t. induction t as [|x t IHt]; intros Hl.
      - destruct sep; [contradiction | reflexivity].
      - rewrite contains_cons, IHt by (cbn in Hl; lia).
        rewrite orb_false_r.
        destruct (startswith sep (String x t)) eqn:Hs; [|reflexivity].
        apply startswith_drop in Hs.
        apply (f_equal String.length) in Hs.
        rewrite append_length in Hs. lia. }
    apply Hshort. destruct (but_last_snoc sep Hsep) as [z Hz].
    rewrite Hz at 2. rewrite append_length. cbn. lia.
  - pose proof (IH (String.length s) ltac:(cbn in Hn; lia) s eq_refl) as Hrest.
    pose proof (split_go_concat sep s Hsep) as Hjoin.
    destruct (split_go sep 0 s) as [|p ps] eqn:Hsp;
      [exfalso; eapply split_go_not_nil; exact Hsp|].
    destruct ps as [|q qs].
    + cbn [cut_at] in *. rewrite contains_cons, Hrest, orb_false_r.
      cbn [String.concat] in Hjoin. subst p. exact Hst.
    + cbn [cut_at] in *. destruct Hrest as [Hp Hqs]. split; [|exact Hqs].
      rewrite append_cons, contains_cons, Hp, orb_false_r.
      rewrite concat_cons in Hjoin.
      rewrite <- append_cons.
      rewrite <- (startswith_before sep (String c p)
                    (String.concat sep (q :: qs)) Hsep ltac:(discriminate)).
      rewrite append_cons, Hjoin. exact Hst.
Qed.

(** [float] raises nothing but [ValueError] on a string. *)
Lemma float_of_string_raise decimal s e :
  float_of_string decimal s = Raise e -> e = ValueError.
Proof.
  unfold float_of_string.
  destruct (sign (c_strip _)) as [neg body].
  destruct (_ || _); [discriminate|].
  destruct (String.eqb _ _); [discriminate|].
  destruct (number body) as [[[m fd] r]|]; [|intros [= <-]; reflexivity].
  destruct (exponent r); [discriminate|intros [= <-]; reflexivity].
Qed.
End StrFacts.

(** C3, as the code has it: ["3,49 €/100g"] parses to the float 3.49.  The
    unit suffix [" €/100g"] is removed wherever it occurs, the occurrences
    taken from the left, and every comma becomes a point: when the suffix
    cuts a string into [pieces], and the comma cuts these pieces put
    together into [parts], the string is parsed as [float] reads the parts
    joined by points, without the white space at the two ends.  Every
    string is cut into pieces in this way, into one piece when the
    separator does not occur, so the suffix is not required; and a string
    [float] rejects after this raises [ValueError]. *)
Theorem price_per_100g_suffix_optional (decimal : N -> option N) :
  Offer.parse_price_per_100g decimal "3,49 €/100g" = Ok (Prim2SF 3.49)
  /\ (forall pieces parts,
        cut_at " €/100g" pieces -> cut_at "," parts ->
        String.concat "" pieces = String.concat "," parts ->
        Offer.parse_price_per_100g decimal (String.concat " €/100g" pieces)
        = PyStr.float_of_string decimal
            (PyStr.strip (String.concat "." parts)))
  /\ (forall sep s, sep <> ""%string ->
        exists pieces, cut_at sep pieces /\ String.concat sep pieces = s)
  /\ (forall s e,
        Offer.parse_price_per_100g decimal s = Raise e -> e = ValueError).
Proof.
  split; [vm_compute; reflexivity|]. split; [|split].
  - intros pieces parts Hcut Hparts Heq. unfold Offer.parse_price_per_100g.
    unfold PyStr.replace.
    rewrite replace_go_pieces by (discriminate || exact Hcut).
    rewrite Heq.
    rewrite replace_go_pieces by (discriminate || exact Hparts).
    reflexivity.
  - intros sep s Hsep. exists (PyStr.split_go sep 0 s). split.
    + apply split_go_cut_at. exact Hsep.
    + apply split_go_concat. exact Hsep.
  - intros s e. apply float_of_string_raise.
Qed.

(** The suffix in the middle: ["3 €/100g,49"] is parsed as ["3.49"]. *)
Lemma price_per_100g_suffix_optional_witness :
  Offer.parse_price_per_100g ascii_digits "3 €/100g,49" = Ok (Prim2SF 3.49).
Proof.
  destruct (price_per_100g_suffix_optional ascii_digits) as (_ & H & _).
  change "3 €/100g,49"%string
    with (String.concat " €/100g" ["3"; ",49"]%string).
  rewrite (H ["3"; ",49"]%string ["3"; "49"]%string).
  - vm_compute. reflexivity.
  - split; vm_compute; reflexivity.
  - split; vm_compute; reflexivity.
  - reflexivity.
Defined.

(** C3, the claim fails: a string without the unit suffix does not fail, it
    parses to the float 3.49. *)
Lemma price_without_suffix_parses :
  Offer.parse_price_per_100g ascii_digits "3,49" = Ok (Prim2SF 3.49)
  /\ ~ (exists e, Offer.parse_price_per_100g ascii_digits "3,49" = Raise e)
  /\ (forall decimal : N -> option N,
        Offer.parse_price_per_100g decimal "3,49" = Ok (Prim2SF 3.49)).
Proof.
  split; [vm_compute; reflexivity|]. split.
  - intros [e H]. vm_compute in H. discriminate H.
  - intros decimal. vm_compute. reflexivity.
Qed.

(** White space around the price, the no-break space included, is
    dropped; the separators U+001C to U+001F are dropped by [strip] but not
    by [float]; and the digits of another script are read by their
    value. *)
Lemma price_with_padding_parses :
  forall decimal : N -> option N,
    Offer.parse_price_per_100g decimal " 3,49 €/100g" = Ok (Prim2SF 3.49)
    /\ Offer.parse_price_per_100g decimal
         ("3,49 €/100g" ++ String (ascii_of_nat 194) (String (ascii_of_nat 160) ""))
       = Ok (Prim2SF 3.49)
    /\ Offer.parse_price_per_100g decimal
         (String (ascii_of_nat 28) "9.99") = Ok (Prim2SF 9.99)
    /\ PyStr.float_of_string decimal (String (ascii_of_nat 28) "9.99")
       = Raise ValueError
    /\ PyStr.float_of_string decimal
         ("3.49" ++ String (ascii_of_nat 194) (String (ascii_of_nat 160) ""))
       = Ok (Prim2SF 3.49).
Proof. intros decimal. repeat split; vm_compute; reflexivity. Qed.

Lemma foreign_digits_parse :
  PyStr.float_of_string
    (fun cp => if (1632 <=? cp)%N && (cp <=? 1641)%N then Some (cp - 1632)%N
               else None)
    "٣.٤٩" = Ok (Prim2SF 3.49)
  /\ PyStr.float_of_string ascii_digits "٣.٤٩" = Raise ValueError.
Proof. split; vm_compute; reflexivity. Qed.

(** ** The state monad *)

Section MonadFacts.
Context {A B : Type}.

Lemma bind_unfold (m : M A) (k : A -> M B) (s : state) :
  (m ≫= k) s =
  match m s with
  | (Ok a, s') => k a s'
  | (Raise e, s') => (Raise e, s')
  end.
Proof. reflexivity. Qed.

Lemma bind_Ok (m : M A) (k : A -> M B) s b s2 :
  (m ≫= k) s = (Ok b, s2) ->
  exists a s1, m s = (Ok a, s1) /\ k a s1 = (Ok b, s2).
Proof.
  rewrite bind_unfold. destruct (m s) as [[a|e] s1]; [eauto | discriminate].
Qed.

Lemma bind_Raise (m : M A) (k : A -> M B) s e s2 :
  (m ≫= k) s = (Raise e, s2) ->
  m s = (Raise e, s2)
  \/ exists a s1, m s = (Ok a, s1) /\ k a s1 = (Raise e, s2).
Proof.
  rewrite bind_unfold. destruct (m s) as [[a|e'] s1]; intros H.
  - right. exists a, s1. auto.
  - left. injection H as -> ->. reflexivity.
Qed.
End MonadFacts.

(** ** IngredientDict: the cache *)

Section CacheFacts.
Variable w : world.

(** [__getitem__] by cases: a record in memory is returned as it is; else a
    non-empty cache file is loaded; else the page is fetched and the record
    is stored, and then dumped: when the writing of the cache file raises,
    the record stays in memory. *)
Lemma getitem_cases (ingredient_id : string) (s : state) :
  IngredientDict_getitem w ingredient_id s =
  match store s !! ingredient_id with
  | Some i => (Ok i, s)
  | None =>
      match files s !! ingredient_id with
      | Some (FDump i) => (Ok i, resolved_from_file s ingredient_id i)
      | Some (FBroken e) => (Raise e, s)
      | Some FEmpty | None =>
          match ingredient_page w (length (requests s)) ingredient_id with
          | Ok p =>
              match cache_write w (S (length (requests s))) ingredient_id with
              | Written =>
                  (Ok (Ingredient.of_page (ingredient_type_map s)
                         ingredient_id p),
                   resolved_from_web s ingredient_id p)
              | NotOpened e =>
                  (Raise e, fetched_into_memory s ingredient_id p)
              | Interrupted e remains =>
                  (Raise e,
                   file_written (fetched_into_memory s ingredient_id p)
                     ingredient_id remains)
              end
          | Raise e =>
              (Raise e, request_logged s (GetIngredientPage ingredient_id))
          end
      end
  end.
Proof.
  unfold IngredientDict_getitem, Ingredient_from_web, cache_file_present,
    json_load, store_lookup, IngredientDict_setitem, json_dump, http_get,
    get_state, mbind, M_bind, mret, M_ret.
  destruct (store s !! ingredient_id) as [i|] eqn:Hst.
  - destruct (files s !! ingredient_id) as [[| |]|]; reflexivity.
  - destruct (files s !! ingredient_id) as [[|i|e]|] eqn:Hf;
      cbn -[insert lookup]; rewrite ?Hf;
      try (destruct (ingredient_page w _ _) as [p|e]; [|reflexivity]);
      repeat (cbv beta iota delta
                [store files requests heap all_elements ingredient_type_map];
              rewrite ?lookup_insert_eq);
      rewrite ?length_app; cbn [length]; rewrite ?Nat.add_1_r;
      try (destruct (cache_write w _ _));
      repeat (cbv beta iota delta
                [store files requests heap all_elements ingredient_type_map
                 file_written];
              rewrite ?lookup_insert_eq);
      reflexivity.
Qed.
End CacheFacts.

Section CacheTheorems.
Variable w : world.

Lemma fetches_app (ingredient_id : string) (l l' : list request) :
  fetches ingredient_id (l ++ l')
  = (fetches ingredient_id l + fetches ingredient_id l')%nat.
Proof. unfold fetches. rewrite List.filter_app, length_app. reflexivity. Qed.

Lemma fetches_page (ingredient_id : string) :
  fetches ingredient_id [GetIngredientPage ingredient_id] = 1%nat.
Proof. unfold fetches. simpl. rewrite bool_decide_eq_true_2; reflexivity. Qed.

Lemma initial_state_consistent cache type_map :
  cache_consistent (initial_state cache type_map).
Proof. intros k i H. simpl in H. rewrite lookup_empty in H. discriminate. Qed.

(** A call of [__getitem__] that returns keeps the dictionary and the
    cache directory in step. *)
Lemma getitem_consistent (ingredient_id : string) (s : state) i s' :
  cache_consistent s ->
  IngredientDict_getitem w ingredient_id s = (Ok i, s') ->
  cache_consistent s'.
Proof.
  intros Hc. rewrite getitem_cases.
  destruct (store s !! ingredient_id) as [i0|] eqn:Hst;
    [intros [= <- <-]; exact Hc|].
  assert (Hins : forall (i1 : Ingredient.t) st,
            store st = <[ingredient_id := i1]> (store s) ->
            files st !! ingredient_id = Some (FDump i1) ->
            (forall k, k <> ingredient_id -> files st !! k = files s !! k) ->
            cache_consistent st).
  { intros i1 st Hs1 Hf1 Hother k i'. rewrite Hs1.
    destruct (decide (k = ingredient_id)) as [->|Hne].
    - rewrite lookup_insert_eq. congruence.
    - rewrite lookup_insert_ne by congruence. rewrite Hother by exact Hne.
      apply Hc. }
  destruct (files s !! ingredient_id) as [[|i0|e]|] eqn:Hf;
    try (destruct (ingredient_page w _ _) as [p|e'];
         [destruct (cache_write w _ _)|]);
    intros [= <- <-];
    (eapply Hins;
     [reflexivity
     |cbn [files resolved_from_web resolved_from_file];
      rewrite ?lookup_insert_eq; first [reflexivity | exact Hf]
     |intros k Hk; cbn [files resolved_from_web resolved_from_file];
      rewrite ?lookup_insert_ne by congruence; reflexivity]).
Qed.

(** A record that was returned is in the dictionary afterwards. *)
Lemma getitem_stored (ingredient_id : string) (s : state) i s' :
  IngredientDict_getitem w ingredient_id s = (Ok i, s') ->
  store s' !! ingredient_id = Some i.
Proof.
  rewrite getitem_cases.
  destruct (store s !! ingredient_id) as [i0|] eqn:Hst;
    [intros [= <- <-]; exact Hst|].
  destruct (files s !! ingredient_id) as [[|i0|e]|];
    try (destruct (ingredient_page w _ _) as [p|e'];
         [destruct (cache_write w _ _)|]);
    intros [= <- <-]; simpl; apply lookup_insert_eq.
Qed.

(** A record that was not in memory is returned when it is in the cache
    file: it was loaded from the file, or fetched and written to it. *)
Lemma getitem_persisted (ingredient_id : string) (s : state) i s' :
  store s !! ingredient_id = None ->
  IngredientDict_getitem w ingredient_id s = (Ok i, s') ->
  files s' !! ingredient_id = Some (FDump i).
Proof.
  intros Hst. rewrite getitem_cases, Hst.
  destruct (files s !! ingredient_id) as [[|i0|e]|] eqn:Hf;
    try (destruct (ingredient_page w _ _) as [p|e'];
         [destruct (cache_write w _ _)|]);
    intros [= <- <-]; cbn [files resolved_from_web resolved_from_file];
    rewrite ?lookup_insert_eq; first [reflexivity | exact Hf].
Qed.

(** One call fetches the page of its ingredient at most once. *)
Lemma getitem_fetches (ingredient_id : string) (s : state) r s' :
  IngredientDict_getitem w ingredient_id s = (r, s') ->
  (fetches ingredient_id (requests s')
   <= fetches ingredient_id (requests s) + 1)%nat.
Proof.
  rewrite getitem_cases.
  destruct (store s !! ingredient_id) as [i0|];
    [intros [= <- <-]; lia|].
  destruct (files s !! ingredient_id) as [[|i0|e]|];
    try (destruct (ingredient_page w _ _) as [p|e'];
         [destruct (cache_write w _ _)|]);
    intros [= <- <-]; simpl;
    rewrite ?fetches_app, ?fetches_page; lia.
Qed.

(** C6, as the code has it: when a resolution of an id returns, a second
    resolution returns the same record and changes nothing, so that the
    page is fetched at most once over the two.  A record that was not in
    memory before is returned only when its cache file holds its dump; a
    record that was in memory is returned as it is, with nothing read or
    written, whatever the cache directory holds: it is in its cache file
    when the dictionary and the cache directory were in step, as they are
    until the writing of a cache file raises. *)
Theorem resolve_twice_one_fetch (ingredient_id : string)
    (s s1 s2 : state) (i1 : Ingredient.t) (r2 : result Ingredient.t) :
  IngredientDict_getitem w ingredient_id s = (Ok i1, s1) ->
  IngredientDict_getitem w ingredient_id s1 = (r2, s2) ->
  r2 = Ok i1
  /\ s2 = s1
  /\ (fetches ingredient_id (requests s2)
      <= fetches ingredient_id (requests s) + 1)%nat
  /\ (store s !! ingredient_id = None ->
      files s1 !! ingredient_id = Some (FDump i1))
  /\ (cache_consistent s ->
      files s1 !! ingredient_id = Some (FDump i1) /\ cache_consistent s1)
  /\ (forall i, store s !! ingredient_id = Some i -> i1 = i /\ s1 = s).
Proof.
  intros H1 H2.
  pose proof (getitem_stored _ _ _ _ H1) as Hst.
  rewrite getitem_cases, Hst in H2. injection H2 as <- <-.
  split; [reflexivity|]. split; [reflexivity|].
  split; [eapply getitem_fetches; eassumption|].
  split; [intros Hnone; eapply getitem_persisted; eassumption|].
  split.
  - intros Hc. pose proof (getitem_consistent _ _ _ _ Hc H1) as Hc1.
    split; [apply Hc1; exact Hst | exact Hc1].
  - intros i Hin. rewrite getitem_cases, Hin in H1.
    injection H1 as <- <-. auto.
Qed.
End CacheTheorems.

(** ** What the classes leave alone *)

Section FrameFacts.
Variable w : world.

Lemma lists_kept_refl s : lists_kept s s.
Proof. split; reflexivity. Qed.

Lemma lists_kept_trans s1 s2 s3 :
  lists_kept s1 s2 -> lists_kept s2 s3 -> lists_kept s1 s3.
Proof. intros [H1 H2] [H3 H4]. split; congruence. Qed.

Lemma getitem_lists_kept ingredient_id s r s' :
  IngredientDict_getitem w ingredient_id s = (r, s') -> lists_kept s s'.
Proof.
  rewrite getitem_cases.
  destruct (store s !! ingredient_id) as [i0|];
    [intros [= <- <-]; apply lists_kept_refl|].
  destruct (files s !! ingredient_id) as [[|i0|e]|];
    try (destruct (ingredient_page w _ _) as [p|e'];
         [destruct (cache_write w _ _)|]);
    intros [= <- <-]; split; reflexivity.
Qed.

Lemma triple_lists_kept ingredient s r s' :
  ReadyMix_triple w ingredient s = (r, s') -> lists_kept s s'.
Proof.
  unfold ReadyMix_triple. rewrite bind_unfold.
  destruct (IngredientDict_getitem w _ s) as [[i|e] s1] eqn:Hg.
  - apply getitem_lists_kept in Hg. rewrite bind_unfold. unfold lift.
    destruct (ReadyMix.grams_of_milligram _); intros [= <- <-]; exact Hg.
  - apply getitem_lists_kept in Hg. intros [= <- <-]. exact Hg.
Qed.

Lemma mapM_cons {X Y} (f : X -> M Y) (x : X) (l : list X) :
  mapM f (x :: l) = (y ← f x; k ← mapM f l; mret (y :: k)).
Proof. reflexivity. Qed.

Lemma triples_lists_kept l s r s' :
  mapM (ReadyMix_triple w) l s = (r, s') -> lists_kept s s'.
Proof.
  revert s r s'. induction l as [|x l IH]; intros s r s'.
  - intros [= <- <-]. apply lists_kept_refl.
  - rewrite mapM_cons, bind_unfold.
    destruct (ReadyMix_triple w x s) as [[t|e] s1] eqn:Ht.
    + apply triple_lists_kept in Ht. rewrite bind_unfold.
      destruct (mapM (ReadyMix_triple w) l s1) as [[k|e] s2] eqn:Hl.
      * apply IH in Hl. intros [= <- <-].
        eapply lists_kept_trans; eassumption.
      * apply IH in Hl. intros [= <- <-].
        eapply lists_kept_trans; eassumption.
    + apply triple_lists_kept in Ht. intros [= <- <-]. exact Ht.
Qed.

Lemma init_lists_kept product_dict search_dict offer_dicts s r s' :
  ReadyMix_init w product_dict search_dict offer_dicts s = (r, s') ->
  lists_kept s s'.
Proof.
  unfold ReadyMix_init. rewrite bind_unfold.
  destruct (mapM (ReadyMix_triple w) _ s) as [[k|e] s1] eqn:Hl.
  - apply triples_lists_kept in Hl. cbv zeta. rewrite bind_unfold.
    unfold lift at 1. destruct (ReadyMix.distribution _).
    + rewrite bind_unfold. unfold lift.
      destruct (mapM (Offer.from_dict (unicode_decimal w)) offer_dicts); intros [= <- <-]; exact Hl.
    + intros [= <- <-]. exact Hl.
  - apply triples_lists_kept in Hl. intros [= <- <-]. exact Hl.
Qed.
End FrameFacts.

(** ** ReadyMix: the constructor, step by step *)

Section InitFacts.
Variable w : world.

(** A ReadyMix that is built went through every step of [__init__]. *)
Lemma init_Ok product_dict search_dict offer_dicts s rm s' :
  ReadyMix_init w product_dict search_dict offer_dicts s = (Ok rm, s') ->
  exists triples distribution parsed,
    mapM (ReadyMix_triple w) (ProductDict.ingredients product_dict) s
    = (Ok triples, s')
    /\ ReadyMix.distribution (ReadyMix.sort_ingredients triples)
       = Ok distribution
    /\ mapM (Offer.from_dict (unicode_decimal w)) offer_dicts = Ok parsed
    /\ rm = ReadyMix_built product_dict search_dict triples distribution parsed.
Proof.
  unfold ReadyMix_init. rewrite bind_unfold.
  destruct (mapM (ReadyMix_triple w) _ s) as [[k|e] s1] eqn:Hl;
    [|discriminate].
  cbv zeta. rewrite bind_unfold. unfold lift at 1.
  destruct (ReadyMix.distribution _) as [d|e] eqn:Hd; [|discriminate].
  rewrite bind_unfold. unfold lift.
  destruct (mapM (Offer.from_dict (unicode_decimal w)) offer_dicts) as [parsed|e] eqn:Hp;
    [|discriminate].
  intros [= <- <-]. exists k, d, parsed. auto.
Qed.

(** The distribution is computed right after the ingredients: when it
    raises, so does the constructor, whatever the offers are. *)
Lemma init_distribution_raises product_dict search_dict offer_dicts s
    triples s' e :
  mapM (ReadyMix_triple w) (ProductDict.ingredients product_dict) s
  = (Ok triples, s') ->
  ReadyMix.distribution (ReadyMix.sort_ingredients triples) = Raise e ->
  ReadyMix_init w product_dict search_dict offer_dicts s = (Raise e, s').
Proof.
  intros Hl Hd. unfold ReadyMix_init. rewrite bind_unfold, Hl.
  cbv zeta. rewrite bind_unfold. unfold lift at 1. rewrite Hd. reflexivity.
Qed.
End InitFacts.

(** ** ReadyMixList *)

Section ListFacts.
Variable w : world.

Lemma deref_lists_kept s s' l : lists_kept s s' -> deref s' l = deref s l.
Proof. intros [H _]. unfold deref. rewrite H. reflexivity. Qed.

Lemma deref_append s l x :
  deref (snd (list_append l x s)) l = deref s l ++ [x].
Proof. unfold deref at 1. simpl. rewrite lookup_insert_eq. reflexivity. Qed.

(** One turn of the loop appends one ReadyMix, or raises and appends none. *)
Lemma append_ready_mix_spec products offers rmsi s r s' :
  append_ready_mix w products offers rmsi s = (r, s') ->
  all_elements s' = all_elements s
  /\ match r with
     | Ok _ =>
         exists rm, assembled_from products rmsi rm
           /\ deref s' (all_elements s) = deref s (all_elements s) ++ [rm]
     | Raise _ => deref s' (all_elements s) = deref s (all_elements s)
     end.
Proof.
  unfold append_ready_mix. rewrite bind_unfold. unfold lift, next_match.
  destruct (List.find _ products) as [rmpd|] eqn:Hfind.
  - rewrite bind_unfold.
    destruct (ReadyMix_init w rmpd rmsi _ s) as [[rm|e] s1] eqn:Hinit.
    + pose proof (init_lists_kept _ _ _ _ _ _ _ Hinit) as Hk.
      apply init_Ok in Hinit as (tr & d & pa & _ & _ & _ & ->).
      rewrite bind_unfold. unfold get_state.
      destruct Hk as [Hh Ha]. unfold list_append.
      intros [= <- <-]. split; [simpl; exact Ha|].
      exists (ReadyMix_built rmpd rmsi tr d pa). split.
      * exists rmpd. repeat split; auto.
      * rewrite <- Ha. unfold deref. simpl. rewrite lookup_insert_eq, Hh.
        reflexivity.
    + intros [= <- <-]. apply init_lists_kept in Hinit.
      split; [apply Hinit | apply deref_lists_kept, Hinit].
  - intros [= <- <-]. auto.
Qed.

(** The loop appends one ReadyMix per entry, in order, up to the entry on
    which it raises. *)
Lemma for_each_append_spec products offers items s r s' :
  for_each (append_ready_mix w products offers) items s = (r, s') ->
  all_elements s' = all_elements s
  /\ exists added,
       deref s' (all_elements s) = deref s (all_elements s) ++ added
       /\ match r with
          | Ok _ => Forall2 (assembled_from products) items added
          | Raise _ =>
              exists k, (k < length items)%nat
                /\ Forall2 (assembled_from products) (take k items) added
          end.
Proof.
  revert s r s'. induction items as [|x items IH]; intros s r s'.
  - intros [= <- <-]. split; [reflexivity|]. exists [].
    rewrite app_nil_r. split; [reflexivity | constructor].
  - cbn [for_each]. rewrite bind_unfold.
    destruct (append_ready_mix w products offers x s) as [[[]|e] s1] eqn:Hx.
    + apply append_ready_mix_spec in Hx as (Ha & rm & Hrm & Hd).
      intros Hrest. apply IH in Hrest as (Ha' & added & Hd' & Hr).
      split; [congruence|]. exists (rm :: added). split.
      * rewrite Ha in Hd'. rewrite Hd', Hd, <- app_assoc. reflexivity.
      * destruct r as [[]|e].
        -- constructor; assumption.
        -- destruct Hr as (k & Hk & Hf). exists (S k). split; [simpl; lia|].
           simpl. constructor; assumption.
    + apply append_ready_mix_spec in Hx as (Ha & Hd).
      intros [= <- <-]. split; [assumption|]. exists [].
      rewrite app_nil_r. split; [assumption|].
      exists 0%nat. split; [simpl; lia | constructor].
Qed.
End ListFacts.

Section ListTheorems.
Variable w : world.

(** No list object is created: the loop only writes the one [all_elements]
    refers to. *)
Lemma append_ready_mix_dom products offers rmsi s r s' :
  append_ready_mix w products offers rmsi s = (r, s') ->
  dom (heap s') ⊆ dom (heap s) ∪ {[all_elements s]}.
Proof.
  unfold append_ready_mix. rewrite bind_unfold. unfold lift, next_match.
  destruct (List.find _ products) as [rmpd|].
  - rewrite bind_unfold.
    destruct (ReadyMix_init w rmpd rmsi _ s) as [[rm|e] s1] eqn:Hinit;
      apply init_lists_kept in Hinit as [Hh Ha].
    + rewrite bind_unfold. unfold get_state, list_append.
      intros [= <- <-]. simpl. rewrite dom_insert, Hh, Ha. set_solver.
    + intros [= <- <-]. rewrite Hh. set_solver.
  - intros [= <- <-]. set_solver.
Qed.

Lemma for_each_append_dom products offers items s r s' :
  for_each (append_ready_mix w products offers) items s = (r, s') ->
  dom (heap s') ⊆ dom (heap s) ∪ {[all_elements s]}.
Proof.
  revert s r s'. induction items as [|x items IH]; intros s r s'.
  - intros [= <- <-]. set_solver.
  - cbn [for_each]. rewrite bind_unfold.
    destruct (append_ready_mix w products offers x s) as [[[]|e] s1] eqn:Hx.
    + pose proof (append_ready_mix_dom _ _ _ _ _ _ Hx) as Hd.
      apply append_ready_mix_spec in Hx as [Ha _].
      intros Hrest. apply IH in Hrest. rewrite Ha in Hrest. set_solver.
    + intros [= <- <-]. eapply append_ready_mix_dom; eassumption.
Qed.

Lemma get_all_heap s r s' :
  ReadyMixList_get_all_ready_mixes w s = (r, s') ->
  dom (heap s') ⊆ dom (heap s) ∪ {[all_elements s]}.
Proof.
  unfold ReadyMixList_get_all_ready_mixes. rewrite bind_unfold.
  unfold http_get at 1.
  destruct (api_products w _); [|intros [= <- <-]; set_solver].
  rewrite bind_unfold. unfold http_get at 1.
  destruct (api_search w _); [|intros [= <- <-]; set_solver].
  rewrite bind_unfold. unfold http_get at 1.
  destruct (api_offers w _); [|intros [= <- <-]; set_solver].
  intros H. apply for_each_append_dom in H. exact H.
Qed.

(** [get_all_ready_mixes] appends to the stored list and never removes. *)
Lemma get_all_spec s r s' :
  ReadyMixList_get_all_ready_mixes w s = (r, s') ->
  all_elements s' = all_elements s
  /\ exists added,
       deref s' (all_elements s) = deref s (all_elements s) ++ added
       /\ (forall u, r = Ok u ->
             exists products search,
               api_products w (length (requests s)) = Ok products
               /\ api_search w (S (length (requests s))) = Ok search
               /\ Forall2 (assembled_from products)
                    (List.filter is_ready_mix search) added)
       /\ (forall e, r = Raise e ->
             added = []
             \/ exists products search k,
                  api_products w (length (requests s)) = Ok products
                  /\ api_search w (S (length (requests s))) = Ok search
                  /\ (k < length (List.filter is_ready_mix search))%nat
                  /\ Forall2 (assembled_from products)
                       (take k (List.filter is_ready_mix search)) added).
Proof.
  unfold ReadyMixList_get_all_ready_mixes. rewrite bind_unfold.
  unfold http_get at 1.
  destruct (api_products w (length (requests s))) as [products|e] eqn:Hp.
  2:{ intros [= <- <-]. split; [reflexivity|]. exists [].
      rewrite app_nil_r. split; [reflexivity|].
      split; [discriminate | intros; left; reflexivity]. }
  rewrite bind_unfold. unfold http_get at 1. cbn [requests].
  rewrite length_app. cbn [length]. rewrite Nat.add_1_r.
  destruct (api_search w (S (length (requests s)))) as [search|e] eqn:Hs.
  2:{ intros [= <- <-]. split; [reflexivity|]. exists [].
      rewrite app_nil_r. split; [reflexivity|].
      split; [discriminate | intros; left; reflexivity]. }
  rewrite bind_unfold. unfold http_get at 1.
  destruct (api_offers w _) as [offers|e].
  2:{ intros [= <- <-]. split; [reflexivity|]. exists [].
      rewrite app_nil_r. split; [reflexivity|].
      split; [discriminate | intros; left; reflexivity]. }
  intros H. apply for_each_append_spec in H as (Ha & added & Hd & Hr).
  split; [exact Ha|]. exists added. split; [exact Hd|]. split.
  - intros u ->. exists products, search. auto.
  - intros e ->. destruct Hr as (k & Hk & Hf). right.
    exists products, search, k. auto.
Qed.

(** The constructor returns the reference bound to [all_elements], leaves
    the binding alone and hands on what [get_all_ready_mixes] raises. *)
Lemma new_cases s :
  ReadyMixList_new w s =
  if (length (deref s (all_elements s)) =? 0)%nat then
    match ReadyMixList_get_all_ready_mixes w s with
    | (Ok _, s') => (Ok (all_elements s'), s')
    | (Raise e, s') => (Raise e, s')
    end
  else (Ok (all_elements s), s).
Proof.
  unfold ReadyMixList_new. rewrite bind_unfold. unfold get_state at 1.
  cbv beta iota. rewrite bind_unfold.
  destruct (length (deref s (all_elements s)) =? 0)%nat; [|reflexivity].
  destruct (ReadyMixList_get_all_ready_mixes w s) as [[u|e] s']; reflexivity.
Qed.

Lemma new_returns_binding s r s' :
  ReadyMixList_new w s = (Ok r, s') ->
  r = all_elements s /\ all_elements s' = all_elements s
  /\ dom (heap s') ⊆ dom (heap s) ∪ {[all_elements s]}.
Proof.
  rewrite new_cases.
  destruct (length (deref s (all_elements s)) =? 0)%nat.
  - destruct (ReadyMixList_get_all_ready_mixes w s) as [[u|e] s1] eqn:Hg;
      [|discriminate].
    intros [= <- <-]. pose proof (get_all_heap _ _ _ Hg) as Hdom.
    apply get_all_spec in Hg as (Ha & _). auto.
  - intros [= <- <-]. split; [reflexivity|]. split; [reflexivity|].
    set_solver.
Qed.
End ListTheorems.

(** ** The request log only grows *)

Section LogFacts.
Variable w : world.

Lemma log_extends_refl s : log_extends s s.
Proof. exists []. rewrite app_nil_r. reflexivity. Qed.

Lemma log_extends_trans s1 s2 s3 :
  log_extends s1 s2 -> log_extends s2 s3 -> log_extends s1 s3.
Proof.
  intros [r1 H1] [r2 H2]. exists (r1 ++ r2).
  rewrite H2, H1, app_assoc. reflexivity.
Qed.

Lemma getitem_log ingredient_id s r s' :
  IngredientDict_getitem w ingredient_id s = (r, s') -> log_extends s s'.
Proof.
  rewrite getitem_cases.
  destruct (store s !! ingredient_id) as [i0|];
    [intros [= <- <-]; apply log_extends_refl|].
  destruct (files s !! ingredient_id) as [[|i0|e]|];
    try (destruct (ingredient_page w _ _) as [p|e'];
         [destruct (cache_write w _ _)|]);
    intros [= <- <-];
    first [ apply log_extends_refl
          | exists []; simpl; rewrite app_nil_r; reflexivity
          | eexists; reflexivity ].
Qed.

Lemma triple_log ingredient s r s' :
  ReadyMix_triple w ingredient s = (r, s') -> log_extends s s'.
Proof.
  unfold ReadyMix_triple. rewrite bind_unfold.
  destruct (IngredientDict_getitem w _ s) as [[i|e] s1] eqn:Hg;
    apply getitem_log in Hg.
  - rewrite bind_unfold. unfold lift.
    destruct (ReadyMix.grams_of_milligram _); intros [= <- <-]; exact Hg.
  - intros [= <- <-]. exact Hg.
Qed.

Lemma triples_log l s r s' :
  mapM (ReadyMix_triple w) l s = (r, s') -> log_extends s s'.
Proof.
  revert s r s'. induction l as [|x l IH]; intros s r s'.
  - intros [= <- <-]. apply log_extends_refl.
  - rewrite mapM_cons, bind_unfold.
    destruct (ReadyMix_triple w x s) as [[t|e] s1] eqn:Ht;
      apply triple_log in Ht.
    + rewrite bind_unfold.
      destruct (mapM (ReadyMix_triple w) l s1) as [[k|e] s2] eqn:Hl;
        apply IH in Hl; intros [= <- <-];
        eapply log_extends_trans; eassumption.
    + intros [= <- <-]. exact Ht.
Qed.

Lemma init_log product_dict search_dict offer_dicts s r s' :
  ReadyMix_init w product_dict search_dict offer_dicts s = (r, s') ->
  log_extends s s'.
Proof.
  unfold ReadyMix_init. rewrite bind_unfold.
  destruct (mapM (ReadyMix_triple w) _ s) as [[k|e] s1] eqn:Hl;
    apply triples_log in Hl.
  - cbv zeta. rewrite bind_unfold.
    unfold lift at 1. destruct (ReadyMix.distribution _).
    + rewrite bind_unfold. unfold lift.
      destruct (mapM (Offer.from_dict (unicode_decimal w)) offer_dicts); intros [= <- <-]; exact Hl.
    + intros [= <- <-]. exact Hl.
  - intros [= <- <-]. exact Hl.
Qed.

Lemma append_ready_mix_log products offers rmsi s r s' :
  append_ready_mix w products offers rmsi s = (r, s') -> log_extends s s'.
Proof.
  unfold append_ready_mix. rewrite bind_unfold. unfold lift, next_match.
  destruct (List.find _ products) as [rmpd|].
  - rewrite bind_unfold.
    destruct (ReadyMix_init w rmpd rmsi _ s) as [[rm|e] s1] eqn:Hinit;
      apply init_log in Hinit.
    + rewrite bind_unfold. unfold get_state, list_append.
      intros [= <- <-]. exact Hinit.
    + intros [= <- <-]. exact Hinit.
  - intros [= <- <-]. apply log_extends_refl.
Qed.

Lemma for_each_log products offers items s r s' :
  for_each (append_ready_mix w products offers) items s = (r, s') ->
  log_extends s s'.
Proof.
  revert s r s'. induction items as [|x items IH]; intros s r s'.
  - intros [= <- <-]. apply log_extends_refl.
  - cbn [for_each]. rewrite bind_unfold.
    destruct (append_ready_mix w products offers x s) as [[[]|e] s1] eqn:Hx;
      apply append_ready_mix_log in Hx.
    + intros Hrest. apply IH in Hrest.
      eapply log_extends_trans; eassumption.
    + intros [= <- <-]. exact Hx.
Qed.
End LogFacts.

(** ** ReadyMixList: the claims *)

(** C6, at the start of a run: the page of "Hafer" is fetched once over two
    resolutions, and its record is in the cache file after the first. *)
Lemma resolve_twice_one_fetch_witness :
  exists s1,
    IngredientDict_getitem (sample_world [sample_product] [sample_search 1])
      "Hafer" sample_state = (Ok hafer, s1)
    /\ IngredientDict_getitem (sample_world [sample_product] [sample_search 1])
         "Hafer" s1 = (Ok hafer, s1)
    /\ fetches "Hafer" (requests s1) = 1%nat
    /\ files s1 !! "Hafer" = Some (FDump hafer).
Proof.
  set (w := sample_world [sample_product] [sample_search 1]).
  exists (snd (IngredientDict_getitem w "Hafer" sample_state)).
  assert (H1 : IngredientDict_getitem w "Hafer" sample_state
               = (Ok hafer, snd (IngredientDict_getitem w "Hafer" sample_state)))
    by (vm_compute; reflexivity).
  destruct (resolve_twice_one_fetch w "Hafer" sample_state _ _ hafer _
              H1 (surjective_pairing _))
    as (Hr & Hs & Hf & Hfile & _).
  split; [exact H1|]. split.
  - rewrite (surjective_pairing (IngredientDict_getitem w "Hafer" _)).
    rewrite Hr, Hs. reflexivity.
  - split; [vm_compute; reflexivity|]. apply Hfile. reflexivity.
Defined.

(** C6, the claim fails: with a cache directory that cannot be written,
    the first resolution of "Hafer" fetches the page, puts the record in
    memory and raises; the second returns the record, with no cache file
    that holds it and no other fetch: a resolution that is not
    persisted. *)
Lemma resolution_without_cache_file :
  let w := read_only_world [sample_product] [sample_search 1] in
  let s1 := snd (IngredientDict_getitem w "Hafer" sample_state) in
  fst (IngredientDict_getitem w "Hafer" sample_state) = Raise OSError
  /\ IngredientDict_getitem w "Hafer" s1 = (Ok hafer, s1)
  /\ files s1 !! "Hafer" = None
  /\ fetches "Hafer" (requests s1) = 1%nat.
Proof. vm_compute. repeat split. Qed.

Section ListClaims.
Variable w : world.

(** C7, as the code has it: the guard of [__new__] is the emptiness of the
    stored list.  While the list is non-empty a request returns it and
    changes nothing (no request is made); while it is empty, also after a
    build that found no product, a request fetches the feeds again. *)
Theorem new_is_noop_when_nonempty (s : state) :
  (deref s (all_elements s) <> [] ->
     ReadyMixList_new w s = (Ok (all_elements s), s))
  /\ (deref s (all_elements s) = [] ->
        exists rest,
          requests (snd (ReadyMixList_new w s))
          = requests s ++ GetProducts :: rest).
Proof.
  split; intros H; rewrite new_cases.
  - destruct (deref s (all_elements s)); [congruence | reflexivity].
  - rewrite H. cbn [length Nat.eqb].
    unfold ReadyMixList_get_all_ready_mixes. rewrite bind_unfold.
    unfold http_get at 1.
    destruct (api_products w _) as [products|e]; [|exists []; reflexivity].
    set (s1 := mk_state _ _ (requests s ++ [GetProducts]) _ _ _).
    match goal with
    | |- context [ (?m ≫= ?k) s1 ] =>
        destruct ((m ≫= k) s1) as [r s2] eqn:Hrest;
        assert (Hlog : exists rest, requests s2 = requests s1 ++ rest)
    end.
    { clear H. revert Hrest. rewrite bind_unfold. unfold http_get at 1.
      destruct (api_search w _) as [search|e];
        [|intros [= <- <-]; exists [GetSearch]; reflexivity].
      rewrite bind_unfold. unfold http_get at 1.
      destruct (api_offers w _) as [offers|e];
        [|intros [= <- <-]; exists [GetSearch; GetOffers]; simpl;
          rewrite <- app_assoc; reflexivity].
      intros Hloop. apply for_each_log in Hloop as [rest Hrest'].
      exists (GetSearch :: GetOffers :: rest). rewrite Hrest'. simpl.
      rewrite <- !app_assoc. reflexivity. }
    destruct Hlog as [rest Hrest']. exists rest.
    destruct r; simpl; rewrite Hrest'; subst s1; simpl;
      rewrite <- app_assoc; reflexivity.
Qed.


(** C10: two evaluations of [ReadyMixList()] that return give the same
    reference, the one bound to the class attribute [all_elements]; no list
    object is created; and an element appended through the first reference
    is read through the second. *)
Theorem new_returns_the_class_list (s s1 s2 : state) (r1 r2 : loc) :
  ReadyMixList_new w s = (Ok r1, s1) ->
  ReadyMixList_new w s1 = (Ok r2, s2) ->
  r1 = all_elements s
  /\ r2 = r1
  /\ dom (heap s2) ⊆ dom (heap s) ∪ {[all_elements s]}
  /\ forall x : ReadyMix.t,
       deref (snd (list_append r1 x s2)) r2 = deref s2 r2 ++ [x].
Proof.
  intros H1 H2.
  apply new_returns_binding in H1 as (-> & Ha1 & Hd1).
  apply new_returns_binding in H2 as (-> & Ha2 & Hd2).
  split; [reflexivity|]. split; [exact Ha1|]. split.
  - rewrite Ha1 in Hd2. set_solver.
  - intros x. rewrite Ha1. apply deref_append.
Qed.
End ListClaims.

Lemma built_state_run :
  ReadyMixList_new (sample_world [sample_product] [sample_search 1])
    sample_state = (Ok 1%positive, built_state).
Proof. vm_compute. reflexivity. Qed.

Lemma built_state_rerun :
  ReadyMixList_new (sample_world [sample_product] [sample_search 1])
    built_state = (Ok 1%positive, built_state).
Proof. vm_compute. reflexivity. Qed.

Lemma built_state_nonempty : deref built_state (all_elements built_state) <> [].
Proof. vm_compute. discriminate. Qed.

Lemma new_is_noop_when_nonempty_witness :
  ReadyMixList_new (sample_world [sample_product] [sample_search 1])
    built_state = (Ok (all_elements built_state), built_state).
Proof.
  apply (proj1 (new_is_noop_when_nonempty
                  (sample_world [sample_product] [sample_search 1])
                  built_state)).
  exact built_state_nonempty.
Defined.

(** C7, the claim fails: after a build that completed with no ready mix in
    the search feed, a second request fetches the three feeds again. *)
Lemma new_refetches_after_empty_build :
  let w := sample_world [sample_product] [] in
  let first := ReadyMixList_new w sample_state in
  let second := ReadyMixList_new w (snd first) in
  fst first = Ok 1%positive
  /\ requests (snd first) = [GetProducts; GetSearch; GetOffers]
  /\ fst second = Ok 1%positive
  /\ requests (snd second)
     = [GetProducts; GetSearch; GetOffers; GetProducts; GetSearch; GetOffers].
Proof. vm_compute. repeat split. Qed.



Lemma new_returns_the_class_list_witness :
  exists r1 r2 s2,
    ReadyMixList_new (sample_world [sample_product] [sample_search 1])
      built_state = (Ok r2, s2)
    /\ r1 = 1%positive /\ r2 = r1.
Proof.
  exists 1%positive, 1%positive, built_state.
  destruct (new_returns_the_class_list _ _ _ _ _ _
              built_state_run built_state_rerun) as (_ & Hr & _).
  split; [exact built_state_rerun|]. split; [reflexivity | exact Hr].
Defined.

(** ** ReadyMix: the ingredients *)

Section StoreFacts.
Variable w : world.

Lemma store_grows_refl s : store_grows s s.
Proof. intros k i H. exact H. Qed.

Lemma store_grows_trans s1 s2 s3 :
  store_grows s1 s2 -> store_grows s2 s3 -> store_grows s1 s3.
Proof. intros H1 H2 k i H. apply H2, H1, H. Qed.

Lemma getitem_store_grows ingredient_id s r s' :
  IngredientDict_getitem w ingredient_id s = (r, s') -> store_grows s s'.
Proof.
  rewrite getitem_cases.
  destruct (store s !! ingredient_id) as [i0|] eqn:Hst;
    [intros [= <- <-]; apply store_grows_refl|].
  assert (Hins : forall v, store_grows s
            (mk_state (<[ingredient_id := v]> (store s)) (files s)
               (requests s) (heap s) (all_elements s) (ingredient_type_map s))).
  { intros v k i H. simpl. rewrite lookup_insert_ne; [exact H | congruence]. }
  destruct (files s !! ingredient_id) as [[|i0|e]|];
    try (destruct (ingredient_page w _ _) as [p|e'];
         [destruct (cache_write w _ _)|]);
    intros [= <- <-]; try apply store_grows_refl;
    intros k i H; simpl; try exact H;
    (rewrite lookup_insert_ne; [exact H | congruence]).
Qed.

Lemma triple_spec ref s t s' :
  ReadyMix_triple w ref s = (Ok t, s') -> triple_for s' ref t.
Proof.
  unfold ReadyMix_triple. rewrite bind_unfold.
  destruct (IngredientDict_getitem w _ s) as [[i|e] s1] eqn:Hg; [|discriminate].
  rewrite bind_unfold. unfold lift.
  destruct (ReadyMix.grams_of_milligram _) as [g|e] eqn:Hgr; [|discriminate].
  intros [= <- <-]. apply getitem_stored in Hg.
  destruct (grams_of_milligram_floor _ _ Hgr) as (H0 & q & Hq & Hfl).
  repeat split; cbn; auto.
  - exists q. auto.
  - intros Hlt. rewrite grams_of_milligram_exact in Hgr by assumption.
    congruence.
Qed.

Lemma triple_store_grows ref s r s' :
  ReadyMix_triple w ref s = (r, s') -> store_grows s s'.
Proof.
  unfold ReadyMix_triple. rewrite bind_unfold.
  destruct (IngredientDict_getitem w _ s) as [[i|e] s1] eqn:Hg;
    apply getitem_store_grows in Hg.
  - rewrite bind_unfold. unfold lift.
    destruct (ReadyMix.grams_of_milligram _); intros [= <- <-]; exact Hg.
  - intros [= <- <-]. exact Hg.
Qed.

Lemma triple_for_grows s s' ref t :
  store_grows s s' -> triple_for s ref t -> triple_for s' ref t.
Proof. intros Hs (H1 & H2). split; auto. Qed.

Lemma triples_spec refs s triples s' :
  mapM (ReadyMix_triple w) refs s = (Ok triples, s') ->
  Forall2 (triple_for s') refs triples /\ store_grows s s'.
Proof.
  revert s triples s'. induction refs as [|ref refs IH]; intros s triples s'.
  - intros [= <- <-]. split; [constructor | apply store_grows_refl].
  - rewrite mapM_cons, bind_unfold.
    destruct (ReadyMix_triple w ref s) as [[t|e] s1] eqn:Ht; [|discriminate].
    rewrite bind_unfold.
    destruct (mapM (ReadyMix_triple w) refs s1) as [[k|e] s2] eqn:Hl;
      [|discriminate].
    intros [= <- <-]. destruct (IH _ _ _ Hl) as [Hf Hg]. split.
    + constructor; [|exact Hf].
      eapply triple_for_grows; [exact Hg|]. eapply triple_spec; eassumption.
    + eapply store_grows_trans; [|exact Hg].
      eapply triple_store_grows; eassumption.
Qed.
End StoreFacts.

Lemma StronglySorted_weaken {A} (R R' : A -> A -> Prop) (l : list A) :
  (forall a b, R a b -> R' a b) -> StronglySorted R l -> StronglySorted R' l.
Proof.
  intros HR Hs. induction Hs as [|x l Hs IH Hx]; constructor; [exact IH|].
  eapply Forall_impl; [exact Hx|]. intros b. apply HR.
Qed.

Lemma Forall_trivial {A} (l : list A) : Forall (fun _ => True) l.
Proof. induction l; constructor; auto. Qed.

Lemma sort_ingredients_descending (l : list ReadyMix.triple) :
  StronglySorted (fun a b => ReadyMix.grams_of b <= ReadyMix.grams_of a)
    (ReadyMix.sort_ingredients l).
Proof.
  apply (StronglySorted_weaken (in_order Z.ltb ReadyMix.grams_of true)).
  - intros a b. unfold in_order, PySort.before. rewrite Z.ltb_ge. auto.
  - apply (sorted_in_order Z.ltb ReadyMix.grams_of true (fun _ => True)).
    + intros a b _ _. rewrite Z.ltb_lt, Z.ltb_ge. lia.
    + intros a b c _ _ _. rewrite !Z.ltb_ge. lia.
    + apply Forall_trivial.
Qed.

Lemma sort_ingredients_stable (g : Z) (l : list ReadyMix.triple) :
  List.filter (fun t => ReadyMix.grams_of t =? g) (ReadyMix.sort_ingredients l)
  = List.filter (fun t => ReadyMix.grams_of t =? g) l.
Proof.
  apply sorted_stable. intros a b Ha Hb.
  apply Z.eqb_eq in Ha, Hb. unfold PySort.before. apply Z.ltb_ge. lia.
Qed.

(** C5: the ingredients of a ReadyMix are the triples of the listed
    ingredient references, one per reference, each with the resolved
    ingredient, the stated amount and the grams, floor of the milligrams by
    1000; they are sorted by descending grams, and the triples of equal
    grams stand in the order of their references. *)
Theorem ingredients_sorted_stable (w : world) (product_dict : ProductDict.t)
    (search_dict : SearchDict.t) (offer_dicts : list OfferDict.t)
    (s : state) (rm : ReadyMix.t) (s' : state) :
  ReadyMix_init w product_dict search_dict offer_dicts s = (Ok rm, s') ->
  exists triples,
    Forall2 (triple_for s') (ProductDict.ingredients product_dict) triples
    /\ Permutation (ReadyMix.ingredients rm) triples
    /\ StronglySorted
         (fun a b => ReadyMix.grams_of b <= ReadyMix.grams_of a)
         (ReadyMix.ingredients rm)
    /\ forall g : Z,
         List.filter (fun t => ReadyMix.grams_of t =? g) (ReadyMix.ingredients rm)
         = List.filter (fun t => ReadyMix.grams_of t =? g) triples.
Proof.
  intros H. apply init_Ok in H as (triples & d & parsed & Ht & _ & _ & ->).
  exists triples. cbn [ReadyMix.ingredients ReadyMix_built].
  split; [|split; [|split]].
  - eapply triples_spec; eassumption.
  - apply sorted_perm.
  - apply sort_ingredients_descending.
  - intros g. apply sort_ingredients_stable.
Qed.

(** With grams 50, 50, 30 the two 50 g entries keep their order. *)
Lemma ingredients_sorted_stable_witness :
  exists rm s',
    sample_init = (Ok rm, s')
    /\ StronglySorted
         (fun a b => ReadyMix.grams_of b <= ReadyMix.grams_of a)
         (ReadyMix.ingredients rm)
    /\ map (fun t => (Ingredient.name (ReadyMix.ingredient t),
                      ReadyMix.grams_of t)) (ReadyMix.ingredients rm)
       = [("Hafer"%string, 50); ("Beere"%string, 50); ("Nuss"%string, 30)].
Proof.
  destruct sample_init as [[rm|e] s'] eqn:H; [|vm_compute in H; discriminate].
  exists rm, s'. split; [reflexivity|].
  destruct (ingredients_sorted_stable _ _ _ _ _ _ _ H)
    as (triples & _ & _ & Hs & _).
  split; [exact Hs|].
  vm_compute in H. injection H as <- _. reflexivity.
Defined.

(** ** ReadyMix: the offers *)





Section OfferFacts.
Variable w : world.

(** The three feeds are requested in order; the loop starts after them. *)
Lemma get_all_cases s :
  ReadyMixList_get_all_ready_mixes w s =
  match api_products w (length (requests s)) with
  | Raise e => (Raise e, request_logged s GetProducts)
  | Ok products =>
      match api_search w (S (length (requests s))) with
      | Raise e =>
          (Raise e, request_logged (request_logged s GetProducts) GetSearch)
      | Ok search =>
          match api_offers w (S (S (length (requests s)))) with
          | Raise e => (Raise e, feeds_requested s)
          | Ok offers =>
              for_each (append_ready_mix w products offers)
                (List.filter is_ready_mix search) (feeds_requested s)
          end
      end
  end.
Proof.
  unfold ReadyMixList_get_all_ready_mixes. rewrite bind_unfold.
  unfold http_get at 1.
  destruct (api_products w (length (requests s))) as [products|e];
    [|reflexivity].
  rewrite bind_unfold. unfold http_get at 1. cbn [requests].
  rewrite length_app. cbn [length]. rewrite Nat.add_1_r.
  destruct (api_search w (S (length (requests s)))) as [search|e];
    [|reflexivity].
  rewrite bind_unfold. unfold http_get at 1. cbn [requests].
  rewrite !length_app. cbn [length]. rewrite !Nat.add_1_r.
  destruct (api_offers w (S (S (length (requests s))))) as [offers|e];
    reflexivity.
Qed.





End OfferFacts.




(** ** ReadyMix: the distribution *)

Section SumFacts.
Import ReadyMix.

Lemma fold_left_add_acc (l : list Z) (a : Z) :
  fold_left Z.add l a = a + fold_left Z.add l 0.
Proof.
  revert a. induction l as [|x l IH]; intros a; cbn [fold_left]; [lia|].
  rewrite (IH (a + x)), (IH (0 + x)). lia.
Qed.

Lemma py_sum_cons (x : Z) (l : list Z) : py_sum (x :: l) = x + py_sum l.
Proof. unfold py_sum. cbn [fold_left]. rewrite fold_left_add_acc. lia. Qed.

Lemma py_sum_app (l l' : list Z) : py_sum (l ++ l') = py_sum l + py_sum l'.
Proof.
  induction l as [|x l IH]; [reflexivity|].
  rewrite <- app_comm_cons, !py_sum_cons, IH. lia.
Qed.

Lemma py_sum_perm (l l' : list Z) : Permutation l l' -> py_sum l = py_sum l'.
Proof.
  induction 1 as [|x l l' _ IH|x y l|l1 l2 l3 _ IH1 _ IH2];
    rewrite ?py_sum_cons; lia.
Qed.

Lemma py_sum_nonneg (l : list Z) : Forall (fun x => 0 <= x) l -> 0 <= py_sum l.
Proof.
  induction 1 as [|x l Hx _ IH]; [reflexivity|]. rewrite py_sum_cons. lia.
Qed.
End SumFacts.

Section GroupFacts.
Context {A : Type}.
Variable key : A -> string.

#[local] Abbreviation groupby := (PySort.groupby String.eqb key).

Lemma groupby_cons_not_nil x l : groupby (x :: l) <> [].
Proof.
  cbn [PySort.groupby]. destruct (groupby l) as [|[k g] gs]; [discriminate|].
  destruct (String.eqb (key x) k); discriminate.
Qed.

Lemma groupby_concat l : concat (map snd (groupby l)) = l.
Proof.
  induction l as [|x l IH]; [reflexivity|]. cbn [PySort.groupby].
  destruct (groupby l) as [|[k g] gs].
  - cbn in IH. subst l. reflexivity.
  - destruct (String.eqb (key x) k); cbn in *; rewrite IH; reflexivity.
Qed.

(** Every group is a non-empty run of elements with the key of the group. *)
Lemma groupby_groups l :
  Forall (fun kg : string * list A =>
            snd kg <> [] /\ Forall (fun x => key x = fst kg) (snd kg))
    (groupby l).
Proof.
  induction l as [|x l IH]; [constructor|]. cbn [PySort.groupby].
  destruct (groupby l) as [|[k g] gs].
  - repeat constructor. discriminate.
  - inversion IH as [|? ? [Hne Hg] Hgs]; subst. cbn in Hne, Hg.
    destruct (String.eqb_spec (key x) k) as [Hk|Hk].
    + constructor; [|exact Hgs]. cbn. split; [discriminate|].
      constructor; [reflexivity|]. rewrite Hk. exact Hg.
    + constructor; [|exact IH]. cbn. split; [discriminate|].
      repeat constructor.
Qed.

(** On a list sorted by key, the keys of the groups increase strictly. *)
Lemma groupby_keys_increase l :
  StronglySorted (in_order PySort.str_lt key false) l ->
  StronglySorted
    (fun kg kg' : string * list A => PySort.str_lt (fst kg) (fst kg') = true)
    (groupby l).
Proof.
  induction 1 as [|x l Hs IH Hx]; [constructor|]. cbn [PySort.groupby].
  pose proof (groupby_groups l) as Hg.
  pose proof (groupby_concat l) as Hc.
  destruct (groupby l) as [|[k g] gs]; [repeat constructor|].
  assert (Hfirst : Forall (in_order PySort.str_lt key false x) g).
  { rewrite <- Hc in Hx. cbn in Hx. apply Forall_app in Hx. apply Hx. }
  clear Hc Hx.
  inversion IH as [|? ? IHs IHk]; subst.
  inversion Hg as [|? ? [Hne Hgk] _]; subst. cbn in Hne, Hgk.
  destruct (String.eqb_spec (key x) k) as [Hk|Hk].
  - constructor; [exact IHs|]. cbn. rewrite Hk. exact IHk.
  - assert (Hlt : PySort.str_lt (key x) k = true).
    { destruct g as [|y g]; [contradiction|].
      inversion Hgk as [|? ? Hy _]; subst. apply str_lt_total; [|assumption].
      inversion Hfirst as [|? ? Hxy _]; subst. exact Hxy. }
    constructor; [exact IH|]. constructor; [exact Hlt|].
    eapply Forall_impl; [exact IHk|]. cbn. intros kg Hkg.
    eapply str_lt_trans; eassumption.
Qed.
End GroupFacts.

Section GroupFilter.
Context {A : Type}.
Variable key : A -> string.

Lemma filter_key_same (k : string) (g : list A) :
  Forall (fun x => key x = k) g ->
  List.filter (fun x => String.eqb (key x) k) g = g.
Proof.
  induction 1 as [|x g Hx _ IH]; [reflexivity|]. cbn [List.filter].
  rewrite Hx, String.eqb_refl, IH. reflexivity.
Qed.

Lemma filter_key_other (k k' : string) (g : list A) :
  k' <> k -> Forall (fun x => key x = k') g ->
  List.filter (fun x => String.eqb (key x) k) g = [].
Proof.
  intros Hne. induction 1 as [|x g Hx _ IH]; [reflexivity|].
  cbn [List.filter]. rewrite Hx.
  destruct (String.eqb_spec k' k); [contradiction | exact IH].
Qed.

#[local] Abbreviation homogeneous := (homogeneous key).

Lemma str_lt_neq a b : PySort.str_lt a b = true -> a <> b.
Proof. intros H ->. rewrite str_lt_irrefl in H. discriminate. Qed.

Lemma filter_later_groups (k : string) (gs : list (string * list A)) :
  Forall homogeneous gs ->
  Forall (fun kg' : string * list A => PySort.str_lt k (fst kg') = true) gs ->
  List.filter (fun x => String.eqb (key x) k) (concat (map snd gs)) = [].
Proof.
  induction 1 as [|[k' g'] gs [_ Hg'] _ IH]; [reflexivity|].
  intros Hk. inversion Hk as [|? ? Hlt Hk']; subst. cbn in Hlt, Hg'.
  cbn [map concat snd]. rewrite List.filter_app.
  rewrite (filter_key_other k k');
    [apply IH, Hk' | apply not_eq_sym, str_lt_neq, Hlt | exact Hg'].
Qed.

(** Groups with distinct keys: filtering all elements by the key of a group
    gives back the group. *)
Lemma groups_filter (gs : list (string * list A)) :
  Forall homogeneous gs ->
  StronglySorted
    (fun kg kg' : string * list A => PySort.str_lt (fst kg) (fst kg') = true)
    gs ->
  Forall (fun kg =>
            List.filter (fun x => String.eqb (key x) (fst kg))
              (concat (map snd gs)) = snd kg) gs.
Proof.
  intros Hh Hs. induction Hs as [|[k g] gs Hs IH Hk]; [constructor|].
  inversion Hh as [|? ? [_ Hg] Hh']; subst. cbn in Hg.
  specialize (IH Hh'). cbn [map concat snd fst]. constructor.
  - cbn [fst snd]. rewrite List.filter_app, filter_key_same by assumption.
    rewrite filter_later_groups by assumption. apply app_nil_r.
  - rewrite Forall_forall in IH, Hk |- *. intros [k' g'] Hin.
    cbn [fst snd]. rewrite List.filter_app.
    rewrite (filter_key_other k' k);
      [apply (IH _ Hin) | apply str_lt_neq, (Hk _ Hin) | exact Hg].
Qed.

Lemma groups_keys (gs : list (string * list A)) (c : string) :
  Forall homogeneous gs ->
  (In c (map fst gs) <-> exists x, In x (concat (map snd gs)) /\ key x = c).
Proof.
  induction 1 as [|[k g] gs [Hne Hg] _ IH]; cbn [map concat fst snd In].
  - split; [contradiction | intros (x & [] & _)].
  - cbn in Hne, Hg. split.
    + intros [<-|Hin].
      * destruct g as [|x g]; [contradiction|]. exists x. split.
        -- apply in_or_app. left. left. reflexivity.
        -- inversion Hg; assumption.
      * apply IH in Hin as (x & Hx & Hk). exists x. split; [|exact Hk].
        apply in_or_app. right. exact Hx.
    + intros (x & Hx & Hk). apply in_app_or in Hx as [Hx|Hx].
      * left. rewrite List.Forall_forall in Hg. rewrite <- Hk. symmetry.
        apply Hg, Hx.
      * right. apply IH. exists x. auto.
Qed.
End GroupFilter.

Section DictFacts.
Context {V X : Type}.

Lemma dict_set_fresh (k : string) (v : V) (d : list (string * V)) :
  ~ In k (map fst d) -> PySort.dict_set String.eqb k v d = d ++ [(k, v)].
Proof.
  induction d as [|[k' v'] d IH]; intros Hk; [reflexivity|].
  cbn [PySort.dict_set]. destruct (String.eqb_spec k k') as [->|Hne].
  - exfalso. apply Hk. left. reflexivity.
  - rewrite IH; [reflexivity|]. intros Hin. apply Hk. right. exact Hin.
Qed.

Lemma dict_comprehension_distinct (key : X -> string) (value : X -> result V)
    (l : list X) (d d' : list (string * V)) :
  PySort.dict_comprehension String.eqb key value d l = Ok d' ->
  List.NoDup (map fst d ++ map key l) ->
  exists vs, Forall2 (fun x v => value x = Ok v) l vs
    /\ d' = d ++ combine (map key l) vs.
Proof.
  revert d. induction l as [|x l IH]; intros d.
  - intros [= <-] _. exists []. split; [constructor|].
    rewrite app_nil_r. reflexivity.
  - cbn [PySort.dict_comprehension]. destruct (value x) as [v|e] eqn:Hv;
      [|discriminate].
    intros Hd Hnd. cbn [map] in Hnd.
    rewrite dict_set_fresh in Hd.
    2:{ apply NoDup_remove_2 in Hnd. intros Hin. apply Hnd.
        apply in_or_app. left. exact Hin. }
    apply IH in Hd as (vs & Hvs & ->).
    + exists (v :: vs). split; [constructor; assumption|].
      rewrite <- app_assoc. reflexivity.
    + rewrite map_app, <- app_assoc. exact Hnd.
Qed.
End DictFacts.

Lemma increasing_keys_NoDup {G} (gs : list (string * G)) :
  StronglySorted
    (fun kg kg' : string * G => PySort.str_lt (fst kg) (fst kg') = true) gs ->
  List.NoDup (map fst gs).
Proof.
  induction 1 as [|[k g] gs _ IH Hk]; cbn [map fst]; constructor; [|exact IH].
  intros Hin. apply in_map_iff in Hin as ([k' g'] & Heq & Hin).
  cbn in Heq. subst k'. rewrite List.Forall_forall in Hk.
  specialize (Hk _ Hin). cbn in Hk. rewrite str_lt_irrefl in Hk. discriminate.
Qed.

Section ShareFacts.
Import PyNum.

Lemma truediv_share a G v :
  0 <= a <= G -> 0 < G ->
  truediv (PyInt a) (PyInt G) = Ok v ->
  exists f, v = PyFloat f /\ int_true_divide a G = Ok f
    /\ (Qabs (Q_of_float f - (a # Z.to_pos G)) <= half_ulp_one)%Q.
Proof.
  intros Ha HG. cbn [truediv].
  destruct (int_true_divide a G) as [f|e] eqn:Hf; [|discriminate].
  intros [= <-]. exists f. repeat split.
  eapply int_true_divide_share; eassumption.
Qed.

Lemma values_sum_bound (G : Z) (sums : list Z) (vs : list pynum) :
  0 < G ->
  Forall (fun a => 0 <= a <= G) sums ->
  Forall2 (fun a v => truediv (PyInt a) (PyInt G) = Ok v) sums vs ->
  (Qabs (values_sum vs - (ReadyMix.py_sum sums # Z.to_pos G))
   <= inject_Z (Z.of_nat (length vs)) * half_ulp_one)%Q.
Proof.
  intros HG Hs Hv. induction Hv as [|a v sums vs Hav Hv IH].
  - cbn. apply Qabs_Qle_condition. unfold Qle, Qminus, Qplus, Qopp. cbn. lia.
  - inversion Hs as [|? ? Ha Hs']; subst. specialize (IH Hs').
    destruct (truediv_share _ _ _ Ha HG Hav) as (f & -> & _ & Hf).
    cbn [values_sum fold_right number_value length].
    fold (values_sum vs).
    rewrite py_sum_cons.
    set (n := inject_Z (Z.of_nat (length vs))) in *.
    assert (E1 : ((a + ReadyMix.py_sum sums) # Z.to_pos G
                  == (a # Z.to_pos G) + (ReadyMix.py_sum sums # Z.to_pos G))%Q)
      by (symmetry; apply Qinv_plus_distr).
    assert (E2 : (inject_Z (Z.of_nat (S (length vs))) == n + 1)%Q).
    { subst n. rewrite Nat2Z.inj_succ, <- Z.add_1_r, inject_Z_plus.
      reflexivity. }
    rewrite E1, E2.
    apply Qabs_Qle_condition in Hf, IH. apply Qabs_Qle_condition.
    unfold half_ulp_one in *. lra.
Qed.

Lemma values_sum_one (G : Z) (sums : list Z) (vs : list pynum) :
  0 < G ->
  ReadyMix.py_sum sums = G ->
  Forall (fun a => 0 <= a) sums ->
  Forall2 (fun a v => truediv (PyInt a) (PyInt G) = Ok v) sums vs ->
  (Qabs (values_sum vs - 1)
   <= inject_Z (Z.of_nat (length vs)) * half_ulp_one)%Q.
Proof.
  intros HG Hsum Hs Hv.
  assert (Hle : Forall (fun a => 0 <= a <= G) sums).
  { clear Hv. subst G. clear HG. induction Hs as [|a sums Ha Hs IH];
      [constructor|].
    rewrite py_sum_cons. pose proof (py_sum_nonneg _ Hs).
    constructor; [lia|]. eapply Forall_impl; [exact IH|]. cbn. lia. }
  pose proof (values_sum_bound G sums vs HG Hle Hv) as H.
  rewrite Hsum in H.
  assert (E : (G # Z.to_pos G == 1)%Q).
  { unfold Qeq. cbn. rewrite Z2Pos.id by lia. lia. }
  rewrite E in H. exact H.
Qed.
End ShareFacts.

Section DistributionFacts.
Import ReadyMix.

Lemma py_sum_concat {A} (f : A -> Z) (gs : list (list A)) :
  py_sum (map (fun g => py_sum (map f g)) gs) = py_sum (map f (concat gs)).
Proof.
  induction gs as [|g gs IH]; [reflexivity|].
  cbn [map concat]. rewrite py_sum_cons, map_app, py_sum_app, IH. reflexivity.
Qed.

Lemma py_sum_filter_le {A} (f : A -> Z) (p : A -> bool) (l : list A) :
  Forall (fun x => 0 <= f x) l ->
  0 <= py_sum (map f (List.filter p l)) <= py_sum (map f l).
Proof.
  induction 1 as [|x l Hx _ IH]; [cbn; lia|].
  cbn [List.filter map]. destruct (p x); cbn [map]; rewrite ?py_sum_cons; lia.
Qed.

(** The list [distribution] groups: the ingredients sorted by category. *)
Lemma by_type_sorted (l : list triple) :
  StronglySorted (in_order PySort.str_lt type_of false)
    (PySort.sorted PySort.str_lt type_of false l).
Proof.
  apply (sorted_in_order PySort.str_lt type_of false (fun _ => True)).
  - intros a b _ _. apply str_lt_asym.
  - intros a b c _ _ _. apply str_lt_negtrans.
  - apply Forall_trivial.
Qed.

Lemma by_type_stable (c : string) (l : list triple) :
  List.filter (fun t => String.eqb (type_of t) c)
    (PySort.sorted PySort.str_lt type_of false l)
  = List.filter (fun t => String.eqb (type_of t) c) l.
Proof.
  apply sorted_stable. intros a b Ha Hb.
  apply String.eqb_eq in Ha, Hb. unfold PySort.before.
  rewrite Ha, Hb. apply str_lt_irrefl.
Qed.

(** With a total of zero the first group already raises. *)
Lemma distribution_zero_total (l : list triple) :
  l <> [] -> py_sum (map grams_of l) = 0 ->
  distribution l = Raise ZeroDivisionError.
Proof.
  intros Hne H0. unfold distribution. rewrite H0.
  destruct (PySort.sorted PySort.str_lt type_of false l) as [|x l'] eqn:Hs.
  - apply sorted_nil_inv in Hs. contradiction.
  - pose proof (groupby_cons_not_nil type_of x l') as Hg.
    destruct (PySort.groupby String.eqb type_of (x :: l')) as [|kg gs];
      [contradiction|].
    reflexivity.
Qed.

Lemma combine_Forall2_In {X V} (R : X -> V -> Prop) (key : X -> string)
    (l : list X) (vs : list V) (c : string) (v : V) :
  Forall2 R l vs -> In (c, v) (combine (map key l) vs) ->
  exists x, In x l /\ key x = c /\ R x v.
Proof.
  induction 1 as [|x v' l vs Hx _ IH]; cbn [map combine In]; [contradiction|].
  intros [[= <- <-]|Hin].
  - exists x. auto.
  - destruct (IH Hin) as (x' & Hx' & Hk & HR). exists x'. auto.
Qed.

Lemma distribution_Ok (l : list triple) (d : list (string * PyNum.pynum)) :
  let total := py_sum (map grams_of l) in
  let part c :=
    py_sum (map grams_of (List.filter (fun t => String.eqb (type_of t) c) l)) in
  distribution l = Ok d ->
  exists (gs : list (string * list triple)) (vs : list PyNum.pynum),
    d = combine (map fst gs) vs
    /\ List.NoDup (map fst gs)
    /\ (forall c, In c (map fst gs) <-> exists t, In t l /\ type_of t = c)
    /\ Forall2 (fun kg v =>
                  PyNum.truediv (PyNum.PyInt (part (fst kg))) (PyNum.PyInt total)
                  = Ok v) gs vs
    /\ py_sum (map (fun kg => part (fst kg)) gs) = total.
Proof.
  intros total part. unfold distribution. fold total.
  set (sl := PySort.sorted PySort.str_lt type_of false l).
  set (gs := PySort.groupby String.eqb type_of sl).
  intros Hd.
  pose proof (by_type_sorted l) as Hsl. fold sl in Hsl.
  pose proof (groupby_keys_increase type_of sl Hsl) as Hinc. fold gs in Hinc.
  pose proof (groupby_groups type_of sl) as Hhom. fold gs in Hhom.
  pose proof (groupby_concat type_of sl) as Hcat. fold gs in Hcat.
  pose proof (increasing_keys_NoDup gs Hinc) as Hnd.
  pose proof (groups_filter type_of gs Hhom Hinc) as Hfil.
  rewrite Hcat in Hfil.
  assert (Hpart : Forall (fun kg : string * list triple =>
                    py_sum (map grams_of (snd kg)) = part (fst kg)) gs).
  { eapply Forall_impl; [exact Hfil|]. cbn. intros kg Hkg. unfold part.
    rewrite <- by_type_stable. fold sl. rewrite Hkg. reflexivity. }
  apply dict_comprehension_distinct in Hd as (vs & Hvs & ->);
    [|exact Hnd].
  exists gs, vs. split; [reflexivity|]. split; [exact Hnd|]. split; [|split].
  - intros c. rewrite (groups_keys type_of gs c Hhom), Hcat.
    assert (Hperm : Permutation sl l) by apply sorted_perm.
    split; intros (t & Ht & Hc); exists t; split; auto.
    + eapply Permutation_in; eassumption.
    + eapply Permutation_in; [symmetry|]; eassumption.
  - clear -Hvs Hpart. induction Hvs as [|kg v gs vs Hv _ IH]; [constructor|].
    inversion Hpart as [|? ? Hp Hps]; subst. constructor; [|auto].
    rewrite <- Hp. exact Hv.
  - transitivity (py_sum (map (fun g => py_sum (map grams_of g)) (map snd gs))).
    + f_equal. rewrite map_map. clear -Hpart.
      induction Hpart as [|kg gs Hp _ IH]; [reflexivity|].
      cbn [map]. rewrite Hp, IH. reflexivity.
    + rewrite py_sum_concat, Hcat. apply py_sum_perm.
      apply Permutation_map, sorted_perm.
Qed.
End DistributionFacts.

Lemma triples_nonneg (s' : state) (refs : list IngredientRef.t)
    (triples : list ReadyMix.triple) :
  Forall2 (triple_for s') refs triples ->
  Forall (fun t => 0 <= ReadyMix.grams_of t) triples.
Proof.
  induction 1 as [|ref t refs triples (_ & _ & H0 & _) _ IH]; constructor; auto.
Qed.

(** C4: for a ReadyMix whose ingredients sum to a total [G > 0] grams, the
    distribution has one entry per ingredient category present, each
    category once; the value of a category is the quotient by [G] of the
    grams of all the ingredients of that category, wherever they stand in
    the list, rounded to a float, hence within [2 ^ -54] of the share; and
    the exact sum of the values differs from 1 by at most [2 ^ -54] per
    entry. *)
Theorem distribution_shares (w : world) (product_dict : ProductDict.t)
    (search_dict : SearchDict.t) (offer_dicts : list OfferDict.t)
    (s : state) (rm : ReadyMix.t) (s' : state) :
  let total := ReadyMix.py_sum (map ReadyMix.grams_of (ReadyMix.ingredients rm)) in
  let part c :=
    ReadyMix.py_sum
      (map ReadyMix.grams_of
         (List.filter (fun t => String.eqb (ReadyMix.type_of t) c)
            (ReadyMix.ingredients rm))) in
  let distribution := ReadyMix.ingredient_type_distribution rm in
  ReadyMix_init w product_dict search_dict offer_dicts s = (Ok rm, s') ->
  0 < total ->
  List.NoDup (map fst distribution)
  /\ (forall c, In c (map fst distribution) <->
                exists t, In t (ReadyMix.ingredients rm) /\ ReadyMix.type_of t = c)
  /\ (forall c v, In (c, v) distribution ->
        PyNum.truediv (PyNum.PyInt (part c)) (PyNum.PyInt total) = Ok v
        /\ (Qabs (number_value v - (part c # Z.to_pos total)) <= half_ulp_one)%Q)
  /\ (Qabs (values_sum (map snd distribution) - 1)
      <= inject_Z (Z.of_nat (length distribution)) * half_ulp_one)%Q.
Proof.
  intros total part distribution H Htotal.
  apply init_Ok in H as (triples & d & parsed & Ht & Hd & _ & ->).
  cbn [ReadyMix.ingredients ReadyMix.ingredient_type_distribution ReadyMix_built]
    in *.
  subst distribution.
  assert (Hnn : Forall (fun t => 0 <= ReadyMix.grams_of t)
                  (ReadyMix.sort_ingredients triples)).
  { apply triples_spec in Ht as [Hf _]. apply triples_nonneg in Hf.
    rewrite List.Forall_forall in Hf |- *. intros t Hin. apply Hf.
    eapply Permutation_in; [|exact Hin]. apply sorted_perm. }
  set (ings := ReadyMix.sort_ingredients triples) in *.
  destruct (distribution_Ok ings d Hd)
    as (gs & vs & -> & Hnd & Hkeys & Hvs & Hsum).
  fold total in Hvs, Hsum. fold part in Hvs, Hsum.
  assert (Hlen : length (map fst gs) = length vs)
    by (rewrite length_map; eapply Forall2_length; exact Hvs).
  assert (Hfst : map fst (combine (map fst gs) vs) = map fst gs).
  { clear -Hlen. revert vs Hlen. induction (map fst gs) as [|k ks IH];
      intros [|v vs] Hlen; try discriminate; [reflexivity|].
    cbn. f_equal. apply IH. cbn in Hlen. lia. }
  assert (Hsnd : map snd (combine (map fst gs) vs) = vs).
  { clear -Hlen. revert vs Hlen. induction (map fst gs) as [|k ks IH];
      intros [|v vs] Hlen; try discriminate; [reflexivity|].
    cbn. f_equal. apply IH. cbn in Hlen. lia. }
  assert (Hbound : forall c, 0 <= part c <= total).
  { intros c. apply py_sum_filter_le. exact Hnn. }
  rewrite Hfst, Hsnd. split; [exact Hnd|]. split; [exact Hkeys|]. split.
  - intros c v Hin.
    destruct (combine_Forall2_In _ fst gs vs c v Hvs Hin)
      as (kg & _ & <- & Hv).
    split; [exact Hv|].
    destruct (truediv_share _ _ _ (Hbound (fst kg)) Htotal Hv)
      as (f & -> & _ & Hf).
    exact Hf.
  - rewrite length_combine, Hlen, Nat.min_id.
    apply (values_sum_one total (map (fun kg => part (fst kg)) gs) vs
             Htotal Hsum).
    + apply List.Forall_forall. intros a Ha. apply in_map_iff in Ha as (kg & <- & _).
      apply Hbound.
    + clear -Hvs. induction Hvs; constructor; auto.
Qed.

(** The sample mix of 50 g, 50 g and 30 g in three categories. *)
Lemma distribution_shares_witness :
  exists rm s',
    sample_init = (Ok rm, s')
    /\ map fst (ReadyMix.ingredient_type_distribution rm)
       = ["Getreide"; "Kerne"; "Unbekannt"]%string
    /\ (Qabs (values_sum (map snd (ReadyMix.ingredient_type_distribution rm)) - 1)
        <= inject_Z 3 * half_ulp_one)%Q.
Proof.
  destruct sample_init as [[rm|e] s'] eqn:H; [|vm_compute in H; discriminate].
  exists rm, s'. split; [reflexivity|].
  assert (Htotal :
    0 < ReadyMix.py_sum (map ReadyMix.grams_of (ReadyMix.ingredients rm))).
  { vm_compute in H. injection H as <- _. reflexivity. }
  destruct (distribution_shares _ _ _ _ _ _ _ H Htotal) as (_ & _ & _ & Hsum).
  assert (Hkeys : map fst (ReadyMix.ingredient_type_distribution rm)
                  = ["Getreide"; "Kerne"; "Unbekannt"]%string).
  { vm_compute in H. injection H as <- _. reflexivity. }
  split; [exact Hkeys|].
  replace (length (ReadyMix.ingredient_type_distribution rm)) with 3%nat in Hsum
    by (rewrite <- (length_map fst), Hkeys; reflexivity).
  exact Hsum.
Defined.

(** C2, as the code has it: the division by the total has no guard.  A
    ReadyMix that is built with a total of 0 grams has no ingredient, and
    its distribution is the empty mapping; when the ingredients are
    resolved into a non-empty list of 0 grams in total, no ReadyMix is
    built: the constructor raises [ZeroDivisionError]. *)
Theorem zero_total_unguarded (w : world) (product_dict : ProductDict.t)
    (search_dict : SearchDict.t) (offer_dicts : list OfferDict.t) (s : state) :
  (forall rm s',
     ReadyMix_init w product_dict search_dict offer_dicts s = (Ok rm, s') ->
     ReadyMix.py_sum (map ReadyMix.grams_of (ReadyMix.ingredients rm)) = 0 ->
     ReadyMix.ingredients rm = []
     /\ ReadyMix.ingredient_type_distribution rm = [])
  /\ (forall triples s1,
        mapM (ReadyMix_triple w) (ProductDict.ingredients product_dict) s
        = (Ok triples, s1) ->
        triples <> [] ->
        ReadyMix.py_sum (map ReadyMix.grams_of triples) = 0 ->
        ReadyMix_init w product_dict search_dict offer_dicts s
        = (Raise ZeroDivisionError, s1)).
Proof.
  split.
  - intros rm s' H Hzero.
    apply init_Ok in H as (triples & d & parsed & _ & Hd & _ & ->).
    cbn [ReadyMix.ingredients ReadyMix.ingredient_type_distribution
           ReadyMix_built] in *.
    destruct (ReadyMix.sort_ingredients triples) as [|t l] eqn:Hs.
    + split; [reflexivity|]. cbn in Hd. congruence.
    + rewrite distribution_zero_total in Hd by (congruence || assumption).
      discriminate.
  - intros triples s1 Ht Hne Hzero.
    eapply init_distribution_raises; [exact Ht|].
    apply distribution_zero_total.
    + intros Hnil. apply sorted_nil_inv in Hnil. contradiction.
    + rewrite <- Hzero. apply py_sum_perm, Permutation_map, sorted_perm.
Qed.

Lemma zero_total_unguarded_witness :
  exists s1,
    ReadyMix_init (sample_world [pinch_product] [sample_search 1])
      pinch_product (sample_search 1) [] sample_state
    = (Raise ZeroDivisionError, s1).
Proof.
  destruct (mapM (ReadyMix_triple (sample_world [pinch_product] [sample_search 1]))
              (ProductDict.ingredients pinch_product) sample_state)
    as [[triples|e] s1] eqn:Ht; [|vm_compute in Ht; discriminate].
  exists s1.
  apply (proj2 (zero_total_unguarded _ pinch_product (sample_search 1) []
                  sample_state) triples s1 Ht);
    vm_compute in Ht; injection Ht as <- _; [discriminate | reflexivity].
Defined.

(** C2, the claim fails: a product whose only ingredient weighs 500 mg has
    0 grams in total, and its constructor raises [ZeroDivisionError]. *)
Lemma zero_grams_raise :
  ReadyMix.grams_of_milligram 500 = Ok 0
  /\ fst (ReadyMix_init (sample_world [pinch_product] [sample_search 1])
            pinch_product (sample_search 1) sample_offers sample_state)
     = Raise ZeroDivisionError.
Proof. split; vm_compute; reflexivity. Qed.

(** ** A whole run *)

Section RunFacts.
Variable w : world.

Lemma run_invariant_once s : run_invariant s -> fetched_at_most_once s.
Proof. intros [_ H] k. apply H. Qed.

Lemma initial_state_run_invariant cache type_map :
  run_invariant (initial_state cache type_map).
Proof.
  split; [apply initial_state_consistent|]. intros k. cbn. split; [lia|].
  discriminate.
Qed.

Lemma keeps_bind {A B} (m : M A) (k : A -> M B) :
  keeps_run_invariant m -> (forall a, keeps_run_invariant (k a)) ->
  keeps_run_invariant (m ≫= k).
Proof.
  intros Hm Hk s r s' Hinv. rewrite bind_unfold.
  destruct (m s) as [[a|e] s1] eqn:Hms.
  - destruct (Hm _ _ _ Hinv Hms) as [_ H1]. intros Hka.
    exact (Hk a _ _ _ (H1 a eq_refl) Hka).
  - destruct (Hm _ _ _ Hinv Hms) as [H1 _]. intros [= <- <-].
    split; [exact H1 | discriminate].
Qed.

Lemma keeps_pure {A} (m : M A) :
  (forall s, snd (m s) = s) -> keeps_run_invariant m.
Proof.
  intros Hm s r s' Hinv H. pose proof (Hm s) as Hs. rewrite H in Hs.
  cbn in Hs. subst s'. split; [apply run_invariant_once, Hinv | auto].
Qed.

Lemma fetches_feed ingredient_id r l :
  (forall k, r <> GetIngredientPage k) ->
  fetches ingredient_id (l ++ [r]) = fetches ingredient_id l.
Proof.
  intros Hr. rewrite fetches_app. unfold fetches at 2. cbn.
  rewrite bool_decide_eq_false_2 by apply Hr. cbn. lia.
Qed.

Lemma keeps_http_get_feed {A} (r : request) (answer : nat -> result A) :
  (forall k, r <> GetIngredientPage k) ->
  keeps_run_invariant (http_get r answer).
Proof.
  intros Hr s res s' [Hc Hf]. unfold http_get. intros [= <- <-].
  assert (Hinv : run_invariant (request_logged s r)).
  { split; [exact Hc|]. intros k. unfold request_logged.
    cbn [requests store]. rewrite fetches_feed by exact Hr. apply Hf. }
  split; [apply run_invariant_once, Hinv | intros; exact Hinv].
Qed.

Lemma keeps_getitem ingredient_id :
  keeps_run_invariant (IngredientDict_getitem w ingredient_id).
Proof.
  intros s r s' Hinv Hg.
  pose proof (getitem_store_grows w _ _ _ _ Hg) as Hgrow.
  assert (Hc : forall a, r = Ok a -> cache_consistent s').
  { intros a Ha. rewrite Ha in Hg.
    eapply getitem_consistent; [exact (proj1 Hinv) | exact Hg]. }
  destruct Hinv as [_ Hf]. rewrite getitem_cases in Hg.
  destruct (store s !! ingredient_id) as [i0|] eqn:Hst.
  { injection Hg as <- <-. split; [intros k; apply Hf|].
    intros a Ha. split; [exact (Hc a Ha) | exact Hf]. }
  assert (Hfile : forall i,
            (Ok i, resolved_from_file s ingredient_id i) = (r, s') ->
            fetched_at_most_once s'
            /\ (forall a, r = Ok a -> run_invariant s')).
  { intros i Heq. injection Heq as Hr Hs. subst s'.
    split; [intros k; apply Hf|].
    intros a Ha. split; [exact (Hc a Ha)|]. intros k.
    unfold resolved_from_file. cbn [requests]. split; [apply Hf|].
    intros H1. apply Hf in H1 as [v Hv]. exists v. apply Hgrow, Hv. }
  assert (H0 : fetches ingredient_id (requests s) = 0%nat).
  { destruct (Hf ingredient_id) as [Hle Hsome].
    destruct (fetches ingredient_id (requests s)) as [|[|n]]; [reflexivity| |lia].
    destruct (Hsome eq_refl) as [v Hv]. congruence. }
  assert (Hcount : forall k,
            let log := requests s ++ [GetIngredientPage ingredient_id] in
            (fetches k log <= 1)%nat
            /\ ((fetches k log = 1)%nat ->
                k = ingredient_id \/ is_Some (store s !! k))).
  { intros k. cbv zeta. rewrite fetches_app. unfold fetches at 2 4. cbn.
    destruct (decide (k = ingredient_id)) as [->|Hne].
    - rewrite bool_decide_eq_true_2 by reflexivity. cbn. rewrite H0. auto.
    - rewrite bool_decide_eq_false_2 by congruence. cbn.
      rewrite Nat.add_0_r. split; [apply Hf|]. intros H1. right.
      apply Hf, H1. }
  assert (Hweb :
    match ingredient_page w (length (requests s)) ingredient_id with
    | Ok p =>
        match cache_write w (S (length (requests s))) ingredient_id with
        | Written =>
            (Ok (Ingredient.of_page (ingredient_type_map s) ingredient_id p),
             resolved_from_web s ingredient_id p)
        | NotOpened e => (Raise e, fetched_into_memory s ingredient_id p)
        | Interrupted e remains =>
            (Raise e,
             file_written (fetched_into_memory s ingredient_id p)
               ingredient_id remains)
        end
    | Raise e => (Raise e, request_logged s (GetIngredientPage ingredient_id))
    end = (r, s') ->
    fetched_at_most_once s' /\ (forall a, r = Ok a -> run_invariant s')).
  { destruct (ingredient_page w _ _) as [p|e];
      [destruct (cache_write w _ _)|]; intros Heq;
      injection Heq as Hr Hs; subst s'.
    - split; [intros k; apply Hcount|].
      intros a Ha. split; [exact (Hc a Ha)|].
      intros k. unfold resolved_from_web. cbn [requests].
      split; [apply Hcount|]. intros H1.
      destruct (proj2 (Hcount k) H1) as [->|[v Hv]].
      + cbn [store]. rewrite lookup_insert_eq. eauto.
      + exists v. apply Hgrow. exact Hv.
    - split; [intros k; apply Hcount | subst r; discriminate].
    - split; [intros k; apply Hcount | subst r; discriminate].
    - split; [intros k; apply Hcount | subst r; discriminate]. }
  destruct (files s !! ingredient_id) as [[|i|e]|]; eauto.
  injection Hg as <- <-. split; [intros k; apply Hf | discriminate].
Qed.

Lemma keeps_triple ref : keeps_run_invariant (ReadyMix_triple w ref).
Proof.
  unfold ReadyMix_triple. apply keeps_bind; [apply keeps_getitem|].
  intros i. apply keeps_bind; [apply keeps_pure; reflexivity|].
  intros g. apply keeps_pure. reflexivity.
Qed.

Lemma keeps_triples refs : keeps_run_invariant (mapM (ReadyMix_triple w) refs).
Proof.
  induction refs as [|ref refs IH]; [apply keeps_pure; reflexivity|].
  rewrite mapM_cons. apply keeps_bind; [apply keeps_triple|].
  intros t. apply keeps_bind; [exact IH|].
  intros k. apply keeps_pure. reflexivity.
Qed.

Lemma keeps_init product_dict search_dict offer_dicts :
  keeps_run_invariant (ReadyMix_init w product_dict search_dict offer_dicts).
Proof.
  unfold ReadyMix_init. apply keeps_bind; [apply keeps_triples|].
  intros triples. cbv zeta. apply keeps_bind; [apply keeps_pure; reflexivity|].
  intros d. apply keeps_bind; [apply keeps_pure; reflexivity|].
  intros parsed. apply keeps_pure. reflexivity.
Qed.

Lemma keeps_list_append l x : keeps_run_invariant (list_append l x).
Proof.
  intros s r s' Hinv. unfold list_append. intros [= <- <-].
  assert (H : run_invariant
                (mk_state (store s) (files s) (requests s)
                   (<[l := deref s l ++ [x]]> (heap s)) (all_elements s)
                   (ingredient_type_map s))) by exact Hinv.
  split; [apply run_invariant_once, H | intros; exact H].
Qed.

Lemma keeps_append_ready_mix products offers rmsi :
  keeps_run_invariant (append_ready_mix w products offers rmsi).
Proof.
  unfold append_ready_mix. apply keeps_bind; [apply keeps_pure; reflexivity|].
  intros rmpd. apply keeps_bind; [apply keeps_init|].
  intros rm. apply keeps_bind; [apply keeps_pure; reflexivity|].
  intros s. apply keeps_list_append.
Qed.

Lemma keeps_for_each products offers items :
  keeps_run_invariant (for_each (append_ready_mix w products offers) items).
Proof.
  induction items as [|x items IH]; [apply keeps_pure; reflexivity|].
  cbn [for_each]. apply keeps_bind; [apply keeps_append_ready_mix|].
  intros _. exact IH.
Qed.

Lemma keeps_get_all : keeps_run_invariant (ReadyMixList_get_all_ready_mixes w).
Proof.
  unfold ReadyMixList_get_all_ready_mixes.
  apply keeps_bind; [apply keeps_http_get_feed; discriminate|].
  intros products.
  apply keeps_bind; [apply keeps_http_get_feed; discriminate|].
  intros search.
  apply keeps_bind; [apply keeps_http_get_feed; discriminate|].
  intros offers. apply keeps_for_each.
Qed.

Lemma keeps_new : keeps_run_invariant (ReadyMixList_new w).
Proof.
  unfold ReadyMixList_new. apply keeps_bind; [apply keeps_pure; reflexivity|].
  intros s. apply keeps_bind.
  - destruct (_ =? _)%nat; [apply keeps_get_all | apply keeps_pure; reflexivity].
  - intros _. apply keeps_bind; [apply keeps_pure; reflexivity|].
    intros s'. apply keeps_pure. reflexivity.
Qed.

(** Over a whole run, from the load of the module through the evaluation
    of [ReadyMixList()], returned or raised, no ingredient page is fetched
    twice. *)
Lemma run_fetches_once cache type_map r s' :
  ReadyMixList_new w (initial_state cache type_map) = (r, s') ->
  fetched_at_most_once s'.
Proof.
  intros H.
  exact (proj1 (keeps_new _ _ _ (initial_state_run_invariant cache type_map) H)).
Qed.
End RunFacts.

(** * Further properties of the code *)

(** ** IngredientDict: the other methods *)

Section DictMethods.
Variable w : world.


(** X1: after [d[key] = value], [d[key]] returns [value] and changes
    nothing: no request is made and no cache file is read or written,
    whatever the cache directory holds for the key; a record set by hand is
    never persisted. *)
Theorem setitem_then_getitem (key : string) (value : Ingredient.t) (s : state) :
  let s1 := snd (IngredientDict_setitem key value s) in
  IngredientDict_getitem w key s1 = (Ok value, s1)
  /\ files s1 = files s
  /\ requests s1 = requests s.
Proof.
  cbv zeta. rewrite getitem_cases. unfold IngredientDict_setitem.
  cbn [snd store]. rewrite lookup_insert_eq. auto.
Qed.


(** X3: a call of [__getitem__] changes [len(d)] by the one id it is asked
    for at most: the length grows by one when the call leaves in memory a
    record of an id that was not there, also when it raises because the
    cache file cannot be written, and is unchanged otherwise. *)
Theorem getitem_len (ingredient_id : string) (s : state)
    (r : result Ingredient.t) (s' : state) :
  IngredientDict_getitem w ingredient_id s = (r, s') ->
  fst (IngredientDict_len s')
  = match store s !! ingredient_id, store s' !! ingredient_id with
    | None, Some _ => Ok (S (size (store s)))
    | _, _ => Ok (size (store s))
    end.
Proof.
  rewrite getitem_cases. unfold IngredientDict_len. cbn [fst].
  destruct (store s !! ingredient_id) as [i0|] eqn:Hst.
  { intros [= <- <-]. reflexivity. }
  destruct (files s !! ingredient_id) as [[|i|e]|];
    try (destruct (ingredient_page w _ _) as [p|e'];
         [destruct (cache_write w _ _)|]);
    intros [= <- <-];
    cbn [store resolved_from_web resolved_from_file request_logged
         fetched_into_memory file_written];
    rewrite ?lookup_insert_eq, ?Hst; try reflexivity;
    rewrite map_size_insert_None by exact Hst; reflexivity.
Qed.

(** X4: what a resolution does with the cache file of an id that is not in
    memory.  A dump is loaded and returned without a request; a zero-length
    file counts as no file: the page is fetched and, when the file can be
    written, it is overwritten with the dump of the new record; a file
    whose reading raises makes the resolution raise the same exception,
    with no request and no repair, so that it raises again on every later
    call. *)
Theorem getitem_by_cache_file (ingredient_id : string) (s : state) :
  store s !! ingredient_id = None ->
  (forall i, files s !! ingredient_id = Some (FDump i) ->
     exists s', IngredientDict_getitem w ingredient_id s = (Ok i, s')
       /\ requests s' = requests s /\ files s' = files s)
  /\ (forall p, files s !! ingredient_id = Some FEmpty ->
        ingredient_page w (length (requests s)) ingredient_id = Ok p ->
        cache_write w (S (length (requests s))) ingredient_id = Written ->
        exists i s', IngredientDict_getitem w ingredient_id s = (Ok i, s')
          /\ requests s' = requests s ++ [GetIngredientPage ingredient_id]
          /\ files s' !! ingredient_id = Some (FDump i))
  /\ (forall e, files s !! ingredient_id = Some (FBroken e) ->
        IngredientDict_getitem w ingredient_id s = (Raise e, s)).
Proof.
  intros Hst. split; [|split].
  - intros i Hf. rewrite getitem_cases, Hst, Hf. eexists.
    split; [reflexivity|]. auto.
  - intros p Hf Hp Hw. rewrite getitem_cases, Hst, Hf, Hp, Hw. do 2 eexists.
    split; [reflexivity|]. split; [reflexivity|]. cbn.
    apply lookup_insert_eq.
  - intros e Hf. rewrite getitem_cases, Hst, Hf. reflexivity.
Qed.
End DictMethods.


Lemma hafer_state_stored : store hafer_state !! "Hafer" = Some hafer.
Proof. vm_compute. reflexivity. Qed.


Lemma hafer_state_run :
  IngredientDict_getitem (sample_world [sample_product] [sample_search 1])
    "Hafer" sample_state = (Ok hafer, hafer_state).
Proof. vm_compute. reflexivity. Qed.

(** The first resolution of a run makes the dictionary one record long. *)
Lemma getitem_len_witness :
  fst (IngredientDict_len hafer_state) = Ok 1%nat.
Proof.
  rewrite (getitem_len (sample_world [sample_product] [sample_search 1])
             "Hafer" sample_state (Ok hafer) hafer_state hafer_state_run).
  rewrite hafer_state_stored. vm_compute. reflexivity.
Defined.

(** A cache file that does not parse makes the resolution raise. *)
Lemma getitem_by_cache_file_witness :
  let s := initial_state {[ "Hafer"%string := FBroken JSONDecodeError ]}
             sample_types in
  IngredientDict_getitem (sample_world [sample_product] [sample_search 1])
    "Hafer" s = (Raise JSONDecodeError, s).
Proof.
  intros s.
  assert (Hnone : store s !! "Hafer" = None) by (vm_compute; reflexivity).
  apply (proj2 (proj2 (getitem_by_cache_file
                         (sample_world [sample_product] [sample_search 1])
                         "Hafer" s Hnone))).
  vm_compute. reflexivity.
Defined.

(** ** Relations every step of a run preserves *)

Section Steps.
Variable R : state -> state -> Prop.
Hypothesis R_refl : forall s, R s s.
Hypothesis R_trans : forall s1 s2 s3, R s1 s2 -> R s2 s3 -> R s1 s3.

Lemma steps_bind {A B} (m : M A) (k : A -> M B) :
  steps R m -> (forall a, steps R (k a)) -> steps R (m ≫= k).
Proof.
  intros Hm Hk s r s'. rewrite bind_unfold.
  destruct (m s) as [[a|e] s1] eqn:Hms.
  - intros Hka. eapply R_trans; [exact (Hm _ _ _ Hms) | exact (Hk _ _ _ _ Hka)].
  - intros [= <- <-]. exact (Hm _ _ _ Hms).
Qed.

Lemma steps_pure {A} (m : M A) : (forall s, snd (m s) = s) -> steps R m.
Proof.
  intros Hm s r s' H. pose proof (Hm s) as Hs. rewrite H in Hs.
  cbn in Hs. subst s'. apply R_refl.
Qed.

Lemma steps_mapM {X Y} (f : X -> M Y) (l : list X) :
  (forall x, In x l -> steps R (f x)) -> steps R (mapM f l).
Proof.
  induction l as [|x l IH]; intros Hf; [apply steps_pure; reflexivity|].
  rewrite mapM_cons. apply steps_bind; [apply Hf; left; reflexivity|].
  intros y. apply steps_bind; [apply IH; intros; apply Hf; right; assumption|].
  intros k. apply steps_pure. reflexivity.
Qed.

Lemma steps_for_each {X} (body : X -> M unit) (l : list X) :
  (forall x, steps R (body x)) -> steps R (for_each body l).
Proof.
  intros Hb. induction l as [|x l IH]; [apply steps_pure; reflexivity|].
  cbn [for_each]. apply steps_bind; [apply Hb | intros _; exact IH].
Qed.

(** The constructor of a ReadyMix, given what the resolution of each of
    its ingredients does. *)
Lemma steps_init_of (w : world) product_dict search_dict offer_dicts :
  (forall ref, In ref (ProductDict.ingredients product_dict) ->
     steps R (IngredientDict_getitem w (IngredientRef.id ref))) ->
  steps R (ReadyMix_init w product_dict search_dict offer_dicts).
Proof.
  intros Hget. unfold ReadyMix_init. apply steps_bind.
  - apply steps_mapM. intros ref Hin. unfold ReadyMix_triple.
    apply steps_bind; [apply Hget; exact Hin|].
    intros i. apply steps_bind; [apply steps_pure; reflexivity|].
    intros g. apply steps_pure. reflexivity.
  - intros triples. cbv zeta. apply steps_bind; [apply steps_pure; reflexivity|].
    intros d. apply steps_bind; [apply steps_pure; reflexivity|].
    intros parsed. apply steps_pure. reflexivity.
Qed.

(** The program as a whole, given what its primitive steps do. *)
Variable w : world.
Hypothesis R_getitem : forall id, steps R (IngredientDict_getitem w id).
Hypothesis R_http_get : forall A (r : request) (answer : nat -> result A),
  (forall id, r <> GetIngredientPage id) -> steps R (http_get r answer).
Hypothesis R_list_append : forall l x, steps R (list_append l x).

Lemma steps_init product_dict search_dict offer_dicts :
  steps R (ReadyMix_init w product_dict search_dict offer_dicts).
Proof. apply steps_init_of. intros ref _. apply R_getitem. Qed.

Lemma steps_append_ready_mix products offers rmsi :
  steps R (append_ready_mix w products offers rmsi).
Proof.
  unfold append_ready_mix. apply steps_bind; [apply steps_pure; reflexivity|].
  intros rmpd. apply steps_bind; [apply steps_init|].
  intros rm. apply steps_bind; [apply steps_pure; reflexivity|].
  intros s. apply R_list_append.
Qed.

Lemma steps_get_all : steps R (ReadyMixList_get_all_ready_mixes w).
Proof.
  unfold ReadyMixList_get_all_ready_mixes.
  apply steps_bind; [apply R_http_get; discriminate|]. intros products.
  apply steps_bind; [apply R_http_get; discriminate|]. intros search.
  apply steps_bind; [apply R_http_get; discriminate|]. intros offers.
  apply steps_for_each. intros rmsi. apply steps_append_ready_mix.
Qed.

Lemma steps_new : steps R (ReadyMixList_new w).
Proof.
  unfold ReadyMixList_new. apply steps_bind; [apply steps_pure; reflexivity|].
  intros s. apply steps_bind.
  - destruct (_ =? _)%nat; [apply steps_get_all | apply steps_pure; reflexivity].
  - intros _. apply steps_bind; [apply steps_pure; reflexivity|].
    intros s'. apply steps_pure. reflexivity.
Qed.
End Steps.

(** ** A whole run: the records *)

Section RunRecords.
Variable w : world.


(** X6: a run of [ReadyMixList()] that returns, from the load of the
    module on, leaves the dictionary and the cache directory in step: every
    record in memory is the content of its cache file, and the record of
    every page that was fetched is in memory.  (A run that raises need not:
    a cache file that cannot be written leaves its record in memory
    only.) *)
Theorem returned_run_is_persisted (cache : gmap string file)
    (type_map : gmap string string) (l : loc) (s' : state) :
  ReadyMixList_new w (initial_state cache type_map) = (Ok l, s') ->
  cache_consistent s'
  /\ (forall ingredient_id : string,
        (fetches ingredient_id (requests s') <= 1)%nat
        /\ ((fetches ingredient_id (requests s') = 1)%nat ->
            is_Some (store s' !! ingredient_id))).
Proof.
  intros H.
  exact (proj2 (keeps_new w _ _ _
                  (initial_state_run_invariant cache type_map) H) l eq_refl).
Qed.

Lemma getitem_records_traced cache type_map id :
  steps (fun s s' => records_traced w cache type_map s ->
                     records_traced w cache type_map s')
    (IngredientDict_getitem w id).
Proof.
  intros s r s'. rewrite getitem_cases.
  destruct (store s !! id) as [i0|] eqn:Hst; [intros [= <- <-]; auto|].
  assert (Hins : forall i fs,
            from_cache_or_page w cache type_map id i ->
            (forall k, k <> id -> fs !! k = files s !! k) ->
            records_traced w cache type_map s ->
            records_traced w cache type_map
              (mk_state (<[id := i]> (store s)) fs (requests s ++ [])
                 (heap s) (all_elements s) (ingredient_type_map s))
            /\ forall rs, records_traced w cache type_map
              (mk_state (<[id := i]> (store s)) fs rs
                 (heap s) (all_elements s) (ingredient_type_map s))).
  { intros i fs Hi Hfs (Htm & Hs & Hfl).
    assert (forall rs, records_traced w cache type_map
              (mk_state (<[id := i]> (store s)) fs rs
                 (heap s) (all_elements s) (ingredient_type_map s))).
    { intros rs. split; [exact Htm|]. cbn [store files]. split; intros k j.
      - destruct (decide (k = id)) as [->|Hne].
        + rewrite lookup_insert_eq. intros [= <-]. exact Hi.
        + rewrite lookup_insert_ne by congruence. auto.
      - destruct (decide (k = id)) as [->|Hne].
        + rewrite lookup_insert_eq. discriminate.
        + rewrite lookup_insert_ne by congruence. rewrite Hfs by exact Hne.
          auto. }
    auto. }
  destruct (files s !! id) as [[|i0|e]|] eqn:Hf;
    try (destruct (ingredient_page w _ _) as [p|e'] eqn:Hp;
         [destruct (cache_write w _ _)|]);
    intros [= <- <-] Hinv;
    try exact Hinv;
    try (destruct Hinv as (Htm & Hs & Hfl); split; [exact Htm|];
         split; assumption);
    try (apply Hins; [| |exact Hinv];
         [right; exists (length (requests s)), p;
          rewrite (proj1 Hinv); auto
         |intros k Hk; cbn; rewrite ?lookup_insert_ne by congruence;
          reflexivity]).
  apply Hins; [| |exact Hinv].
  - apply (proj2 (proj2 Hinv)); assumption.
  - reflexivity.
Qed.

(** X7: where the records come from.  After a run, returned or raised,
    every record in memory under an id is either the dump the cache
    directory held for that id when the module was loaded, or the record
    [from_web] builds from a page the server returned for that id, with
    the category map read at load time. *)
Theorem records_come_from_cache_or_page (cache : gmap string file)
    (type_map : gmap string string) (r : result loc) (s' : state) :
  ReadyMixList_new w (initial_state cache type_map) = (r, s') ->
  forall (ingredient_id : string) (i : Ingredient.t),
    store s' !! ingredient_id = Some i ->
    from_cache_or_page w cache type_map ingredient_id i.
Proof.
  intros H.
  assert (Hinv : records_traced w cache type_map s').
  { set (R := fun s s' : state => records_traced w cache type_map s ->
                                    records_traced w cache type_map s').
    assert (Hrefl : forall s, R s s) by (intros s Hs; exact Hs).
    assert (Htrans : forall s1 s2 s3, R s1 s2 -> R s2 s3 -> R s1 s3)
      by (intros s1 s2 s3 H1 H2 Hs; exact (H2 (H1 Hs))).
    apply (steps_new R Hrefl Htrans w (getitem_records_traced cache type_map))
      in H.
    - apply H. split; [reflexivity|]. split.
      + intros id i. cbn. rewrite lookup_empty. discriminate.
      + intros id i _ Hf. left. exact Hf.
    - intros A rq answer _ s0 r0 s0'. unfold http_get. intros [= <- <-] Hc.
      exact Hc.
    - intros l x s0 r0 s0'. unfold list_append. intros [= <- <-] Hc. exact Hc. }
  apply Hinv.
Qed.
End RunRecords.


(** The sample run. *)
Lemma returned_run_is_persisted_witness :
  cache_consistent built_state
  /\ (forall ingredient_id : string,
        (fetches ingredient_id (requests built_state) <= 1)%nat
        /\ ((fetches ingredient_id (requests built_state) = 1)%nat ->
            is_Some (store built_state !! ingredient_id))).
Proof.
  exact (returned_run_is_persisted
           (sample_world [sample_product] [sample_search 1]) ∅ sample_types
           _ _ built_state_run).
Defined.

(** In the sample run "Hafer" comes from its page. *)
Lemma records_come_from_cache_or_page_witness :
  from_cache_or_page (sample_world [sample_product] [sample_search 1]) ∅
    sample_types "Hafer" hafer.
Proof.
  apply (records_come_from_cache_or_page
           (sample_world [sample_product] [sample_search 1]) ∅ sample_types
           _ _ built_state_run "Hafer" hafer).
  vm_compute. reflexivity.
Defined.

(** ** ReadyMix: what the constructor requests *)

Section InitRequests.
Variable w : world.

Lemma fetched_pages_of_refl ids s : fetched_pages_of ids s s.
Proof. exists []. rewrite app_nil_r. split; [reflexivity | constructor]. Qed.

Lemma fetched_pages_of_trans ids s1 s2 s3 :
  fetched_pages_of ids s1 s2 -> fetched_pages_of ids s2 s3 ->
  fetched_pages_of ids s1 s3.
Proof.
  intros (r1 & H1 & F1) (r2 & H2 & F2). exists (r1 ++ r2). split.
  - rewrite H2, H1, app_assoc. reflexivity.
  - apply Forall_app. auto.
Qed.


Lemma getitem_fetched_pages ids id :
  In id ids -> steps (fetched_pages_of ids) (IngredientDict_getitem w id).
Proof.
  intros Hin s r s'. rewrite getitem_cases.
  assert (Hone : forall st fl, fetched_pages_of ids s
            (mk_state st fl (requests s ++ [GetIngredientPage id]) (heap s)
               (all_elements s) (ingredient_type_map s))).
  { intros st fl. exists [GetIngredientPage id]. split; [reflexivity|].
    constructor; [eauto | constructor]. }
  assert (Hsame : forall st fl, fetched_pages_of ids s
            (mk_state st fl (requests s) (heap s) (all_elements s)
               (ingredient_type_map s))).
  { intros st fl. exists []. cbn. rewrite app_nil_r.
    split; [reflexivity | constructor]. }
  destruct (store s !! id) as [i0|];
    [intros [= <- <-]; apply fetched_pages_of_refl|].
  destruct (files s !! id) as [[|i0|e]|];
    try (destruct (ingredient_page w _ _) as [p|e'];
         [destruct (cache_write w _ _)|]);
    intros [= <- <-];
    first [ apply fetched_pages_of_refl | apply Hone | apply Hsame ].
Qed.

Lemma init_fetched_pages product_dict search_dict offer_dicts :
  steps (fetched_pages_of
           (map IngredientRef.id (ProductDict.ingredients product_dict)))
    (ReadyMix_init w product_dict search_dict offer_dicts).
Proof.
  apply steps_init_of.
  - apply fetched_pages_of_refl.
  - apply fetched_pages_of_trans.
  - intros ref Hin. apply getitem_fetched_pages. apply in_map. exact Hin.
Qed.

(** X8: the constructor of a ReadyMix requests nothing but pages of the
    ingredients the product lists, and leaves the stored list alone,
    whether it returns or raises. *)
Theorem init_fetches_only_its_ingredients (product_dict : ProductDict.t)
    (search_dict : SearchDict.t) (offer_dicts : list OfferDict.t)
    (s : state) (r : result ReadyMix.t) (s' : state) :
  ReadyMix_init w product_dict search_dict offer_dicts s = (r, s') ->
  fetched_pages_of
    (map IngredientRef.id (ProductDict.ingredients product_dict)) s s'
  /\ lists_kept s s'.
Proof.
  intros H. split.
  - eapply init_fetched_pages. exact H.
  - eapply init_lists_kept. exact H.
Qed.

(** X9: when every ingredient the product lists is in memory already, the
    constructor of a ReadyMix changes nothing at all: no request, no file,
    no record, whether it returns or raises. *)
Theorem init_on_resolved_ingredients_is_pure (product_dict : ProductDict.t)
    (search_dict : SearchDict.t) (offer_dicts : list OfferDict.t) (s : state) :
  (forall ref, In ref (ProductDict.ingredients product_dict) ->
               is_Some (store s !! IngredientRef.id ref)) ->
  snd (ReadyMix_init w product_dict search_dict offer_dicts s) = s.
Proof.
  intros Hwarm.
  set (R := fun s0 s0' : state =>
         (forall ref, In ref (ProductDict.ingredients product_dict) ->
                      is_Some (store s0 !! IngredientRef.id ref)) -> s0' = s0).
  assert (Hrefl : forall s0, R s0 s0) by (intros s0 _; reflexivity).
  assert (Htrans : forall s1 s2 s3, R s1 s2 -> R s2 s3 -> R s1 s3).
  { intros s1 s2 s3 H1 H2 Hw. pose proof (H1 Hw) as E. subst s2.
    exact (H2 Hw). }
  assert (Hinit : steps R (ReadyMix_init w product_dict search_dict offer_dicts)).
  { apply steps_init_of; [exact Hrefl | exact Htrans |].
    intros ref Hin s0 r0 s0' Hg Hw. rewrite getitem_cases in Hg.
    destruct (Hw ref Hin) as [i Hi]. rewrite Hi in Hg.
    injection Hg as _ <-. reflexivity. }
  destruct (ReadyMix_init w product_dict search_dict offer_dicts s)
    as [r s'] eqn:H.
  exact (Hinit _ _ _ H Hwarm).
Qed.
End InitRequests.

Lemma sample_init_pairing :
  ReadyMix_init (sample_world [sample_product] [sample_search 1])
    sample_product (sample_search 1) sample_offers sample_state
  = (fst sample_init, snd sample_init).
Proof. apply surjective_pairing. Qed.

(** The sample ReadyMix requests the pages of its three ingredients. *)
Lemma init_fetches_only_its_ingredients_witness :
  fetched_pages_of
    (map IngredientRef.id (ProductDict.ingredients sample_product))
    sample_state (snd sample_init)
  /\ lists_kept sample_state (snd sample_init).
Proof.
  exact (init_fetches_only_its_ingredients
           (sample_world [sample_product] [sample_search 1])
           sample_product (sample_search 1) sample_offers sample_state
           (fst sample_init) (snd sample_init) sample_init_pairing).
Defined.

Lemma sample_init_resolved (ref : IngredientRef.t) :
  In ref (ProductDict.ingredients sample_product) ->
  is_Some (store (snd sample_init) !! IngredientRef.id ref).
Proof.
  intros [<-|[<-|[<-|[]]]]; vm_compute; eexists; reflexivity.
Qed.

(** Built a second time, the sample ReadyMix changes nothing. *)
Lemma init_on_resolved_ingredients_is_pure_witness :
  snd (ReadyMix_init (sample_world [sample_product] [sample_search 1])
         sample_product (sample_search 1) sample_offers (snd sample_init))
  = snd sample_init.
Proof.
  exact (init_on_resolved_ingredients_is_pure
           (sample_world [sample_product] [sample_search 1])
           sample_product (sample_search 1) sample_offers (snd sample_init)
           sample_init_resolved).
Defined.

(** ** ReadyMixList: the feeds *)

Section RunFeeds.
Variable w : world.

Lemma for_each_app {A} (body : A -> M unit) (l1 l2 : list A) s :
  for_each body (l1 ++ l2) s =
  match for_each body l1 s with
  | (Ok _, s1) => for_each body l2 s1
  | (Raise e, s1) => (Raise e, s1)
  end.
Proof.
  revert s. induction l1 as [|x l1 IH]; intros s; [reflexivity|].
  cbn [app for_each]. rewrite !bind_unfold.
  destruct (body x s) as [[[]|e] s1]; [apply IH | reflexivity].
Qed.

(** X10: a feed that cannot be fetched aborts [ReadyMixList()] on an empty
    list with the error of the request: the feeds after it are not
    requested, no ingredient is resolved, and the list stays empty. *)
Theorem feed_failure_aborts_run (s : state) (e : exn) :
  deref s (all_elements s) = [] ->
  let n := length (requests s) in
  (api_products w n = Raise e ->
     ReadyMixList_new w s = (Raise e, request_logged s GetProducts))
  /\ (forall products, api_products w n = Ok products ->
        api_search w (S n) = Raise e ->
        ReadyMixList_new w s
        = (Raise e, request_logged (request_logged s GetProducts) GetSearch))
  /\ (forall products search, api_products w n = Ok products ->
        api_search w (S n) = Ok search ->
        api_offers w (S (S n)) = Raise e ->
        ReadyMixList_new w s = (Raise e, feeds_requested s)).
Proof.
  intros Hempty n. subst n. rewrite new_cases, Hempty, get_all_cases.
  cbn [length Nat.eqb]. repeat split.
  - intros ->. reflexivity.
  - intros products -> ->. reflexivity.
  - intros products search -> -> ->. reflexivity.
Qed.

(** X11: a surviving search entry without a catalog product of its id stops
    the run with [StopIteration]: the mixes of the entries before it stay
    in the list, the entries after it are not looked at. *)
Theorem missing_product_stops_run (products : list ProductDict.t)
    (search : list SearchDict.t) (offers : list OfferDict.t)
    (pre post : list SearchDict.t) (rmsi : SearchDict.t) (s s1 : state) :
  api_products w (length (requests s)) = Ok products ->
  api_search w (S (length (requests s))) = Ok search ->
  api_offers w (S (S (length (requests s)))) = Ok offers ->
  List.filter is_ready_mix search = pre ++ rmsi :: post ->
  List.find (fun product => ProductDict.id product =? SearchDict.id rmsi)
    products = None ->
  for_each (append_ready_mix w products offers) pre (feeds_requested s)
  = (Ok tt, s1) ->
  ReadyMixList_get_all_ready_mixes w s = (Raise StopIteration, s1).
Proof.
  intros Hp Hs Ho Hf Hfind Hpre.
  rewrite get_all_cases, Hp, Hs, Ho.
  rewrite Hf, for_each_app, Hpre. cbn [for_each]. rewrite bind_unfold.
  unfold append_ready_mix. rewrite bind_unfold. unfold lift, next_match.
  rewrite Hfind. reflexivity.
Qed.



End RunFeeds.


(** With the search feed down, the sample run stops after two requests. *)
Lemma feed_failure_aborts_run_witness :
  ReadyMixList_new search_down_world sample_state
  = (Raise RequestException,
     request_logged (request_logged sample_state GetProducts) GetSearch).
Proof.
  apply (proj1 (proj2 (feed_failure_aborts_run search_down_world sample_state
                         RequestException eq_refl)) [sample_product]);
    reflexivity.
Defined.


Lemma two_entries_first_mix :
  for_each (append_ready_mix
              (sample_world [sample_product] [sample_search 1; sample_search 2])
              [sample_product] sample_offers)
    [sample_search 1] (feeds_requested sample_state)
  = (Ok tt, built_state).
Proof. vm_compute. reflexivity. Qed.

(** The second search entry has no product: the run stops there, with the
    first ReadyMix in the list. *)
Lemma missing_product_stops_run_witness :
  ReadyMixList_get_all_ready_mixes
    (sample_world [sample_product] [sample_search 1; sample_search 2])
    sample_state
  = (Raise StopIteration, built_state).
Proof.
  apply (missing_product_stops_run
           (sample_world [sample_product] [sample_search 1; sample_search 2])
           [sample_product] [sample_search 1; sample_search 2] sample_offers
           [sample_search 1] [] (sample_search 2) sample_state built_state).
  - vm_compute. reflexivity.
  - vm_compute. reflexivity.
  - vm_compute. reflexivity.
  - vm_compute. reflexivity.
  - vm_compute. reflexivity.
  - exact two_entries_first_mix.
Defined.


(** ** ReadyMix: the distribution, its keys and its values *)


Section FractionFacts.
Import PyNum.

(** The quotient of a part by the whole is a float between 0 and 1, and
    exactly 1.0 for the whole itself. *)
Lemma int_true_divide_fraction a G f :
  0 <= a <= G -> 0 < G ->
  int_true_divide a G = Ok f ->
  is_finite f = true
  /\ (0 <= Q_of_float f <= 1)%Q
  /\ (a = G -> f = float_one).
Proof.
  intros Ha HG. unfold int_true_divide.
  destruct (G =? 0) eqn:HG0; [apply Z.eqb_eq in HG0; lia|].
  replace (a <? 0) with false by (symmetry; apply Z.ltb_ge; lia).
  replace (G <? 0) with false by (symmetry; apply Z.ltb_ge; lia).
  rewrite !Z.abs_eq by lia. cbn [xorb].
  intros Hf.
  assert (Hround : f = round_ratio false a G)
    by (destruct (round_ratio false a G); congruence).
  assert (Hfin : is_finite f = true).
  { pose proof (round_ratio_sign a G) as Hs. rewrite <- Hround in Hs.
    destruct f; try reflexivity; [|contradiction].
    rewrite <- Hround in Hf. discriminate. }
  split; [exact Hfin|]. clear Hf Hfin. subst f. unfold round_ratio.
  destruct (a =? 0) eqn:Ha0.
  - apply Z.eqb_eq in Ha0. subst a. cbn [Q_of_float]. split.
    + split; unfold Qle; cbn; lia.
    + intros <-. lia.
  - apply Z.eqb_neq in Ha0.
    assert (He : rn_exp a G <= -52 /\ (a = G -> rn_exp a G = -52)).
    { unfold rn_exp, emin, emax, prec.
      destruct (Z.eq_dec a G) as [->|Hne].
      - assert (ilog2_ratio G G = 0); [|lia].
        unfold ilog2_ratio. rewrite Z.sub_diag. cbn [Z.leb Z.compare].
        rewrite Z.pow_0_r, Z.mul_1_r, Z.leb_refl. reflexivity.
      - pose proof (ilog2_ratio_neg a G ltac:(lia) ltac:(lia)). lia. }
    destruct He as [He52 HeG].
    pose proof (rn_mant_neg_exp a G ltac:(lia) HG ltac:(lia)) as [Hm Hm0].
    cbv zeta in Hm, Hm0.
    set (e := rn_exp a G) in *. set (m := rn_mant a G) in *.
    assert (HP : 0 < 2 ^ (- e)) by (apply Z.pow_pos_nonneg; lia).
    assert (Hle : m <= 2 ^ (- e)) by nia.
    split.
    + destruct (Z.eq_dec m 0) as [Hm00|Hm00].
      * rewrite Hm00. cbn [SF_of_rounded Z.eqb Q_of_float].
        split; unfold Qle; cbn; lia.
      * rewrite (Q_of_rounded m e) by lia.
        split; unfold Qle; cbn [Qnum Qden]; rewrite ?Z2Pos.id by lia; lia.
    + intros HaG. specialize (HeG HaG). subst a.
      assert (Hm52 : m = 2 ^ 52).
      { rewrite HeG in Hm, Hle. change (2 ^ (- -52)) with (2 ^ 52) in *. nia. }
      rewrite Hm52, HeG. reflexivity.
Qed.
End FractionFacts.

Section DistributionOrder.
Import ReadyMix.

Lemma map_fst_combine {X Y} (ks : list X) (vs : list Y) :
  length ks = length vs -> map fst (combine ks vs) = ks.
Proof.
  revert vs. induction ks as [|k ks IH]; intros [|v vs] Hlen;
    try discriminate; [reflexivity|].
  cbn. f_equal. apply IH. cbn in Hlen. lia.
Qed.

(** The keys of the distribution stand in ascending order. *)
Lemma distribution_keys_sorted (l : list triple)
    (d : list (string * PyNum.pynum)) :
  distribution l = Ok d ->
  StronglySorted (fun a b => PySort.str_lt a b = true) (map fst d).
Proof.
  unfold distribution.
  set (gs := PySort.groupby String.eqb type_of
               (PySort.sorted PySort.str_lt type_of false l)).
  intros Hd.
  assert (Hinc : StronglySorted
            (fun kg kg' : string * list triple =>
               PySort.str_lt (fst kg) (fst kg') = true) gs).
  { apply groupby_keys_increase, by_type_sorted. }
  apply dict_comprehension_distinct in Hd as (vs & Hvs & ->).
  2:{ cbn [map app]. change (map (fun g : string * list triple => fst g) gs)
        with (map fst gs). apply increasing_keys_NoDup. exact Hinc. }
  cbn [app]. change (map (fun g : string * list triple => fst g) gs)
    with (map fst gs).
  rewrite map_fst_combine
    by (rewrite length_map; eapply Forall2_length; exact Hvs).
  clear -Hinc. induction Hinc as [|kg gs' Hs IH Hall]; cbn; constructor.
  - exact IH.
  - rewrite List.Forall_forall in Hall |- *. intros k Hk.
    apply in_map_iff in Hk as (kg' & <- & Hin). apply Hall. exact Hin.
Qed.
End DistributionOrder.

(** X13: the categories of the distribution of a ReadyMix are listed in
    ascending order of their names, whatever the order of the
    ingredients. *)
Theorem distribution_keys_ascending (w : world) (product_dict : ProductDict.t)
    (search_dict : SearchDict.t) (offer_dicts : list OfferDict.t)
    (s : state) (rm : ReadyMix.t) (s' : state) :
  ReadyMix_init w product_dict search_dict offer_dicts s = (Ok rm, s') ->
  StronglySorted (fun a b => PySort.str_lt a b = true)
    (map fst (ReadyMix.ingredient_type_distribution rm)).
Proof.
  intros H. apply init_Ok in H as (triples & d & parsed & _ & Hd & _ & ->).
  cbn [ReadyMix.ingredient_type_distribution ReadyMix_built].
  eapply distribution_keys_sorted. exact Hd.
Qed.

(** X14: every value of the distribution of a ReadyMix is a finite float
    between 0 and 1, and it is exactly 1.0 when all the ingredients are of
    the one category. *)
Theorem distribution_values_are_fractions (w : world)
    (product_dict : ProductDict.t) (search_dict : SearchDict.t)
    (offer_dicts : list OfferDict.t) (s : state) (rm : ReadyMix.t)
    (s' : state) :
  ReadyMix_init w product_dict search_dict offer_dicts s = (Ok rm, s') ->
  forall c v, In (c, v) (ReadyMix.ingredient_type_distribution rm) ->
    exists f, v = PyNum.PyFloat f
      /\ is_finite f = true
      /\ (0 <= PyNum.Q_of_float f <= 1)%Q
      /\ (Forall (fun t => ReadyMix.type_of t = c) (ReadyMix.ingredients rm) ->
          f = float_one).
Proof.
  intros H c v Hin.
  apply init_Ok in H as (triples & d & parsed & Ht & Hd & _ & ->).
  cbn [ReadyMix.ingredients ReadyMix.ingredient_type_distribution ReadyMix_built]
    in *.
  assert (Hnn : Forall (fun t => 0 <= ReadyMix.grams_of t)
                  (ReadyMix.sort_ingredients triples)).
  { apply triples_spec in Ht as [Hf _]. apply triples_nonneg in Hf.
    rewrite List.Forall_forall in Hf |- *. intros t Ht'. apply Hf.
    eapply Permutation_in; [|exact Ht']. apply sorted_perm. }
  set (ings := ReadyMix.sort_ingredients triples) in *.
  set (total := ReadyMix.py_sum (map ReadyMix.grams_of ings)).
  assert (Htotal : 0 < total).
  { destruct (Z.eq_dec total 0) as [Hz|Hz].
    - exfalso. destruct ings as [|t l] eqn:Hi.
      + cbn in Hd. injection Hd as <-. destruct Hin.
      + rewrite distribution_zero_total in Hd by (congruence || exact Hz).
        discriminate.
    - pose proof (py_sum_nonneg (map ReadyMix.grams_of ings)) as Hp.
      assert (0 <= total); [|lia]. apply Hp.
      rewrite List.Forall_forall in Hnn |- *. intros g Hg.
      apply in_map_iff in Hg as (t & <- & Ht'). apply Hnn. exact Ht'. }
  destruct (distribution_Ok ings d Hd)
    as (gs & vs & -> & Hnd & Hkeys & Hvs & Hsum).
  destruct (combine_Forall2_In _ fst gs vs c v Hvs Hin)
    as (kg & _ & <- & Hv).
  set (part := ReadyMix.py_sum
                 (map ReadyMix.grams_of
                    (List.filter
                       (fun t => String.eqb (ReadyMix.type_of t) (fst kg))
                       ings))) in *.
  assert (Hbound : 0 <= part <= total) by (apply py_sum_filter_le; exact Hnn).
  destruct (truediv_share _ _ _ Hbound Htotal Hv) as (f & -> & Hdiv & _).
  destruct (int_true_divide_fraction _ _ _ Hbound Htotal Hdiv)
    as (Hfin & Hq & Hone).
  exists f. repeat split; try assumption; try apply Hq.
  intros Hall. apply Hone. subst part total.
  rewrite filter_key_same by exact Hall. reflexivity.
Qed.

(** The categories of the sample ReadyMix, in order. *)
Lemma distribution_keys_ascending_witness :
  exists rm s',
    sample_init = (Ok rm, s')
    /\ map fst (ReadyMix.ingredient_type_distribution rm)
       = ["Getreide"; "Kerne"; "Unbekannt"]%string
    /\ StronglySorted (fun a b => PySort.str_lt a b = true)
         (map fst (ReadyMix.ingredient_type_distribution rm)).
Proof.
  destruct sample_init as [[rm|e] s'] eqn:H; [|vm_compute in H; discriminate].
  exists rm, s'. split; [reflexivity|].
  pose proof (distribution_keys_ascending _ _ _ _ _ _ _ H) as Hs.
  split; [|exact Hs].
  vm_compute in H. injection H as <- _. reflexivity.
Defined.

(** The share of "Kerne" in the sample ReadyMix, 30 g of 130 g. *)
Lemma distribution_values_are_fractions_witness :
  exists rm s' f,
    sample_init = (Ok rm, s')
    /\ In ("Kerne"%string, PyNum.PyFloat f)
         (ReadyMix.ingredient_type_distribution rm)
    /\ is_finite f = true
    /\ (0 <= PyNum.Q_of_float f <= 1)%Q.
Proof.
  destruct sample_init as [[rm|e] s'] eqn:H; [|vm_compute in H; discriminate].
  assert (Hin : exists v, In ("Kerne"%string, v)
                            (ReadyMix.ingredient_type_distribution rm)).
  { vm_compute in H. injection H as <- _. eexists. right. left. reflexivity. }
  destruct Hin as [v Hin].
  destruct (distribution_values_are_fractions _ _ _ _ _ _ _ H _ _ Hin)
    as (f & -> & Hfin & Hq & _).
  exists rm, s', f. auto.
Defined.

(** ** Offer: the record without a marketing price, and the errors *)

Section OfferErrors.
Import PyNum.

Lemma fsub_diag s m e :
  fsub (S754_finite s m e) (S754_finite s m e) = S754_zero false.
Proof.
  unfold fsub, SFsub. rewrite Z.min_id. unfold shl_align.
  rewrite Z.sub_diag. cbn [fst].
  destruct s; cbn [cond_Zopp negb Z.opp]; rewrite ?Z.sub_diag;
    try rewrite Z.add_opp_diag_r; try rewrite Z.sub_opp_l; reflexivity.
Qed.

Lemma float_of_int_raise z e : float_of_int z = Raise e -> e = OverflowError.
Proof.
  unfold float_of_int. destruct (round_ratio _ _ _); congruence.
Qed.

Lemma to_float_raise x e : to_float x = Raise e -> e = OverflowError.
Proof. destruct x; [apply float_of_int_raise | discriminate]. Qed.

Lemma truediv_raise x y e :
  truediv x y = Raise e -> e = ZeroDivisionError \/ e = OverflowError.
Proof.
  destruct x as [a|f], y as [b|g]; cbn [truediv to_float].
  - unfold int_true_divide. destruct (b =? 0).
    + cbn. intros [= <-]. auto.
    + destruct (round_ratio _ _ _); cbn; intros [= <-]; auto.
  - destruct (float_of_int a) eqn:Ha; cbn [mbind result_bind].
    + destruct (is_zero g); intros [= <-]; auto.
    + intros [= <-]. right. eapply float_of_int_raise; eassumption.
  - destruct (float_of_int b) eqn:Hb; cbn [mbind result_bind].
    + destruct (is_zero _); intros [= <-]; auto.
    + intros [= <-]. right. eapply float_of_int_raise; eassumption.
  - cbn [mbind result_bind]. destruct (is_zero g); intros [= <-]; auto.
Qed.

Lemma int_true_divide_zero b :
  b <> 0 -> int_true_divide 0 b = Ok (S754_zero (b <? 0)).
Proof.
  intros Hb. unfold int_true_divide.
  destruct (b =? 0) eqn:H0; [apply Z.eqb_eq in H0; contradiction|].
  reflexivity.
Qed.
End OfferErrors.

(** X15: a pricing record without a marketing price (absent, empty or
    zero) gets its own price as original price; when that price is a
    non-zero [int] or a finite non-zero float and the quotation parses,
    the Offer is built with a discount of zero. *)
Theorem no_marketing_price_no_discount (decimal : N -> option N)
    (dict_data : OfferDict.t) (price_per_100g : spec_float) :
  py_bool (OfferDict.priceMarketing dict_data) = false ->
  match OfferDict.price dict_data with
  | PyNum.PyInt z => z <> 0
  | PyNum.PyFloat (S754_finite _ _ _) => True
  | PyNum.PyFloat _ => False
  end ->
  Offer.parse_price_per_100g decimal (OfferDict.priceQuotation dict_data)
  = Ok price_per_100g ->
  exists o sign,
    Offer.from_dict decimal dict_data = Ok o
    /\ Offer.original_price o = OfferDict.price dict_data
    /\ Offer.price o = OfferDict.price dict_data
    /\ Offer.discount_percentage o = PyNum.PyFloat (S754_zero sign).
Proof.
  intros Hm Hprice Hq. unfold Offer.from_dict. rewrite Hm, Hq.
  cbn [mbind result_bind]. unfold Offer.init.
  destruct (OfferDict.price dict_data) as [z|[| | |sg m e]];
    try contradiction.
  - cbn [PyNum.sub mbind result_bind]. rewrite Z.sub_diag.
    cbn [PyNum.truediv]. rewrite int_true_divide_zero by exact Hprice.
    cbn [mbind result_bind]. do 2 eexists. repeat split.
  - cbn [PyNum.sub PyNum.to_float mbind result_bind]. rewrite fsub_diag.
    cbn [PyNum.truediv PyNum.to_float mbind result_bind PyNum.is_zero].
    do 2 eexists. repeat split.
Qed.

(** X16: on a pricing record of the shape the feed has (a numeric price, a
    marketing price that is null, a boolean, a number or a string, a
    quotation that is a string), [Offer.from_dict] raises nothing but
    [ValueError] (a marketing price or a quotation that is not a number),
    [OverflowError] (an [int] too large for a float) and
    [ZeroDivisionError] (an original price of zero); and the error of a
    marketing price that does not convert comes first, whatever the
    quotation is. *)
Theorem from_dict_raises (decimal : N -> option N) (dict_data : OfferDict.t)
    (e : exn) :
  Offer.from_dict decimal dict_data = Raise e ->
  (e = ValueError \/ e = OverflowError \/ e = ZeroDivisionError)
  /\ (py_bool (OfferDict.priceMarketing dict_data) = true ->
      forall e', py_float decimal (OfferDict.priceMarketing dict_data)
                 = Raise e' ->
                 e = e').
Proof.
  unfold Offer.from_dict.
  destruct (py_bool (OfferDict.priceMarketing dict_data)) eqn:Hb.
  - destruct (py_float decimal (OfferDict.priceMarketing dict_data)) as [f|e0] eqn:Hf;
      cbn [mbind result_bind].
    + destruct (Offer.parse_price_per_100g _) as [q|e1] eqn:Hq;
        cbn [mbind result_bind].
      * unfold Offer.init.
        destruct (PyNum.sub _ _) as [d|e2] eqn:Hs; cbn [mbind result_bind].
        -- destruct (PyNum.truediv _ _) as [x|e3] eqn:Ht;
             cbn [mbind result_bind]; [discriminate|].
           intros [= <-]. split; [|intros _ e'; discriminate].
           apply truediv_raise in Ht as [->| ->]; auto.
        -- intros [= <-]. split; [|intros _ e'; discriminate].
           apply sub_raise in Hs as [-> _]. auto.
      * intros [= <-]. split; [|intros _ e'; discriminate].
        unfold Offer.parse_price_per_100g in Hq.
        apply float_of_string_raise in Hq. auto.
    + intros [= <-]. split; [|intros _ e' [= <-]; reflexivity].
      destruct (OfferDict.priceMarketing dict_data) as [|b|x|str];
        cbn in Hf, Hb; try discriminate.
      * apply to_float_raise in Hf. auto.
      * apply float_of_string_raise in Hf. auto.
  - cbn [mbind result_bind].
    destruct (Offer.parse_price_per_100g _) as [q|e1] eqn:Hq;
      cbn [mbind result_bind].
    + unfold Offer.init.
      destruct (PyNum.sub _ _) as [d|e2] eqn:Hs; cbn [mbind result_bind].
      * destruct (PyNum.truediv _ _) as [x|e3] eqn:Ht;
          cbn [mbind result_bind]; [discriminate|].
        intros [= <-]. split; [|discriminate].
        apply truediv_raise in Ht as [->| ->]; auto.
      * intros [= <-]. split; [|discriminate].
        apply sub_raise in Hs as [-> _]. auto.
    + intros [= <-]. split; [|discriminate].
      unfold Offer.parse_price_per_100g in Hq.
      apply float_of_string_raise in Hq. auto.
Qed.

(** The sample offer at 7.99 has no marketing price. *)
Lemma no_marketing_price_no_discount_witness :
  exists o,
    Offer.from_dict ascii_digits (sample_offer 7 "Beeren-Mix 500g" 7.99%float)
    = Ok o
    /\ Offer.discount_percentage o = PyNum.PyFloat (S754_zero false).
Proof.
  destruct (no_marketing_price_no_discount ascii_digits
              (sample_offer 7 "Beeren-Mix 500g" 7.99%float) (Prim2SF 1.6)
              eq_refl I ltac:(vm_compute; reflexivity))
    as (o & sign & Ho & _ & _ & Hd).
  exists o. split; [exact Ho|].
  rewrite Hd. vm_compute in Ho. injection Ho as <-.
  vm_compute in Hd. exact (eq_sym Hd).
Defined.

(** A marketing price that is not a number. *)
Lemma from_dict_raises_witness :
  let dict_data :=
    OfferDict.mk 9 "Beeren-Mix 500g" (JBool true) (JBool false)
      (PyNum.PyFloat (Prim2SF 7.99)) (JStr "n/a") "1,60 €/100g" "" "A1" in
  Offer.from_dict ascii_digits dict_data = Raise ValueError.
Proof.
  intros dict_data.
  destruct (Offer.from_dict ascii_digits dict_data) as [o|e] eqn:H;
    [vm_compute in H; discriminate|].
  destruct (from_dict_raises ascii_digits dict_data e H) as [_ Hfirst].
  rewrite (Hfirst eq_refl ValueError ltac:(vm_compute; reflexivity)).
  reflexivity.
Defined.

(** ** Ingredient: the sub-ingredients *)

Section StripFacts.
Import PyStr.
Open Scope string_scope.




End StripFacts.


(** ** The script: the figure *)

Section FloorFacts.
Import PyNum.

(** [int(a / d)] is the integer quotient as long as [a] is a float. *)
Lemma int_of_true_divide a d :
  0 <= a < 2 ^ 53 -> 2 <= d < 2 ^ 53 ->
  (quotient ← int_true_divide a d; int_of_float quotient) = Ok (a / d).
Proof.
  intros Ha Hd. unfold int_true_divide.
  destruct (d =? 0) eqn:Hd0; [apply Z.eqb_eq in Hd0; lia|].
  replace (a <? 0) with false by (symmetry; apply Z.ltb_ge; lia).
  replace (d <? 0) with false by (symmetry; apply Z.ltb_ge; lia).
  cbn [xorb]. rewrite !Z.abs_eq by lia. unfold round_ratio.
  destruct (a =? 0) eqn:Ha0.
  - apply Z.eqb_eq in Ha0. rewrite Ha0. reflexivity.
  - apply Z.eqb_neq in Ha0.
    assert (Hl1 : 1 <= Z.log2 d) by (apply Z.log2_le_pow2; lia).
    assert (Hl53 : Z.log2 d < 53) by (apply Z.log2_lt_pow2; lia).
    assert (He : rn_exp a d <= - Z.log2 d).
    { unfold rn_exp, emin, emax, prec.
      pose proof (ilog2_ratio_le a d ltac:(lia) ltac:(lia)) as Hl.
      assert (Z.log2 a < 53) by (apply Z.log2_lt_pow2; lia). lia. }
    pose proof (rn_mant_neg_exp a d ltac:(lia) ltac:(lia) ltac:(lia))
      as [Hm Hm0].
    cbv zeta in Hm, Hm0.
    set (e := rn_exp a d) in *. set (m := rn_mant a d) in *.
    assert (HL : 2 ^ Z.log2 d <= d < 2 * 2 ^ Z.log2 d).
    { pose proof (Z.log2_spec d ltac:(lia)) as Hs.
      rewrite Z.pow_succ_r in Hs by lia. lia. }
    assert (HP : 2 ^ Z.log2 d <= 2 ^ (- e)) by (apply Z.pow_le_mono_r; lia).
    set (K := 2 ^ (- e)) in *.
    assert (HK : d < 2 * K) by lia.
    pose proof (Z.div_mod a d ltac:(lia)) as Hdm.
    pose proof (Z.mod_pos_bound a d ltac:(lia)) as Hr.
    set (q := a / d) in *. set (r := a mod d) in *.
    assert (Hq : m / K = q).
    { symmetry. apply Z.div_unique with (r := m - q * K); [|lia].
      left. split.
      - assert (- d <= 2 * d * (m - q * K)) by nia. nia.
      - assert (2 * d * (m - q * K) <= 2 * (d - 1) * K + d) by nia. nia. }
    unfold SF_of_rounded, emax, prec.
    destruct (m =? 0) eqn:Hm00.
    + apply Z.eqb_eq in Hm00. cbn [mbind result_bind int_of_float].
      rewrite <- Hq, Hm00. reflexivity.
    + apply Z.eqb_neq in Hm00.
      destruct (m =? 2 ^ 53) eqn:Hm53.
      * apply Z.eqb_eq in Hm53.
        replace (e + 1 <=? 1024 - 53) with true by (symmetry; apply Z.leb_le; lia).
        cbn [mbind result_bind int_of_float].
        f_equal. rewrite <- Hq, Hm53. subst K.
        destruct (0 <=? e + 1) eqn:He1.
        -- apply Z.leb_le in He1. assert (e = -1) by lia.
           replace e with (-1) by lia. reflexivity.
        -- apply Z.leb_gt in He1.
           rewrite Z2Pos.id by (apply Z.pow_pos_nonneg; lia).
           replace (- e) with (1 + - (e + 1)) by lia.
           rewrite Z.pow_add_r by lia.
           change (2 ^ 53) with (2 ^ 1 * 2 ^ (53 - 1)).
           rewrite Z.div_mul_cancel_l; [reflexivity | | lia].
           apply Z.pow_nonzero; lia.
      * replace (e <=? 1024 - 53) with true by (symmetry; apply Z.leb_le; lia).
        cbn [mbind result_bind int_of_float].
        replace (0 <=? e) with false by (symmetry; apply Z.leb_gt; lia).
        rewrite Z2Pos.id by lia. subst K. rewrite Hq. reflexivity.
Qed.

Lemma trace_row_exact idx :
  0 <= idx < 2 ^ 53 -> trace_row idx = Ok (idx / 5 + 1).
Proof.
  intros Hi. unfold trace_row.
  pose proof (int_of_true_divide idx 5 Hi ltac:(lia)) as H.
  destruct (int_true_divide idx 5) as [q|e]; cbn [mbind result_bind] in *;
    [|discriminate].
  rewrite H. reflexivity.
Qed.
End FloorFacts.

(** X18: the place of a trace in the figure.  The row computed through the
    float quotient is the integer quotient of the index by 5, plus one, and
    the column is between 1 and 5; no two indices get the same cell; and the
    traces of the first ten rows of a table, all there are after
    [head(10)], fall into the two rows of the figure. *)
Theorem traces_fill_the_grid (idx idx' : Z) :
  0 <= idx < 2 ^ 53 -> 0 <= idx' < 2 ^ 53 ->
  trace_row idx = Ok (idx / 5 + 1)
  /\ 1 <= trace_col idx <= 5
  /\ (idx < 10 -> 1 <= idx / 5 + 1 <= 2)
  /\ (trace_row idx' = trace_row idx -> trace_col idx' = trace_col idx ->
      idx' = idx).
Proof.
  intros Hidx Hidx'.
  split; [apply trace_row_exact; exact Hidx|].
  unfold trace_col.
  pose proof (Z.mod_pos_bound idx 5 ltac:(lia)).
  pose proof (Z.div_mod idx 5 ltac:(lia)).
  split; [lia|]. split; [lia|].
  rewrite !trace_row_exact by assumption. intros [= Hq] Hm.
  pose proof (Z.div_mod idx' 5 ltac:(lia)). lia.
Qed.

(** The seventh trace goes to the second row, second column. *)
Lemma traces_fill_the_grid_witness :
  trace_row 6 = Ok 2 /\ trace_col 6 = 2.
Proof.
  destruct (traces_fill_the_grid 6 6 ltac:(lia) ltac:(lia)) as (Hrow & _).
  split; [exact Hrow | reflexivity].
Defined.
